(** * cf-sub-manager: the subscription worker of [functions/[[path]].js]

    A shallow embedding of the worker's request handlers in Rocq, together
    with the platform functions they call ([atob], [btoa], [String.split],
    [String.trim], [JSON.parse], [JSON.stringify], [encodeURIComponent],
    [URLSearchParams]).

    Conventions.
    - A JavaScript string is the list of its UTF-16 code units ([jsstring]).
    - An exception is a value of [outcome]: [Return v] or [Throw e]; a
      [try { ... } catch] block is [try_catch].
    - The network and the key-value namespace are explicit arguments: the
      network is a function from the requested URL to what [fetch] does with
      it, the namespace is a finite map from keys to stored texts.
    - [console.error] writes to a log no handler reads back; it is left out.
    - [async] functions are run to completion: a promise that rejects is a
      [Throw], [Promise.all] collects the results in the order of the array.
    - The global navigation guard of the admin panel
      ([frontend/src/router/index.js]) is embedded as the decision it takes:
      the argument it passes to [next]. *)

From Stdlib Require Import NArith ZArith List Lia String Ascii Bool ZifyNat ZifyN.
From Stdlib Require Import DecimalString DecimalPos DecimalFacts.
From stdpp Require Import gmap list.
Import ListNotations.

Open Scope N_scope.
Set Warnings "-register-all".

(** ** JavaScript strings *)

Module JsString.

Definition jsstring := list N.

(** The string written by an ASCII literal of the source. *)
Definition lit (s : string) : jsstring :=
  List.map N_of_ascii (list_ascii_of_string s).
Arguments lit s%_string.

(** [a === b] on strings: the same code units. *)
Fixpoint str_eqb (a b : jsstring) : bool :=
  match a, b with
  | [], [] => true
  | c :: a', d :: b' => (c =? d) && str_eqb a' b'
  | _, _ => false
  end.

(** [s.startsWith(p)] *)
Fixpoint startsWith (p s : jsstring) : bool :=
  match p, s with
  | [], _ => true
  | c :: p', d :: s' => (c =? d) && startsWith p' s'
  | _ :: _, [] => false
  end.

(** [s.endsWith(p)] *)
Definition endsWith (p s : jsstring) : bool :=
  startsWith (List.rev p) (List.rev s).

(** [s.substring(n)] for [n] within the length of [s]. *)
Definition substring_from (n : nat) (s : jsstring) : jsstring := skipn n s.

(** [s.split(sep)] for a separator of one code unit: never empty. *)
Fixpoint split (sep : N) (s : jsstring) : list jsstring :=
  match s with
  | [] => [[]]
  | c :: r =>
      if c =? sep then [] :: split sep r
      else match split sep r with
           | h :: t => (c :: h) :: t
           | [] => [[c]]
           end
  end.

(** [l.join(sep)] on an array of strings. *)
Fixpoint join (sep : jsstring) (l : list jsstring) : jsstring :=
  match l with
  | [] => []
  | [x] => x
  | x :: r => x ++ sep ++ join sep r
  end.

(** ECMAScript WhiteSpace and LineTerminator code units, what [trim] strips. *)
Definition is_js_space (c : N) : bool :=
  ((9 <=? c) && (c <=? 13)) || (c =? 32) || (c =? 160) || (c =? 5760)
  || ((8192 <=? c) && (c <=? 8202)) || (c =? 8232) || (c =? 8233)
  || (c =? 8239) || (c =? 8287) || (c =? 12288) || (c =? 65279).

Fixpoint trimStart (s : jsstring) : jsstring :=
  match s with
  | c :: r => if is_js_space c then trimStart r else s
  | [] => []
  end.

(** [s.trim()] *)
Definition trim (s : jsstring) : jsstring :=
  List.rev (trimStart (List.rev (trimStart s))).

(** A literal written with an apostrophe wherever the text has a double
    quote (code unit 34). *)
Definition dq (s : string) : jsstring :=
  List.map (fun c => if c =? 39 then 34 else c) (lit s).
Arguments dq s%_string.

Definition nl : N := 10.
Definition comma : N := 44.

End JsString.
Export JsString.

(** ** Base64: [btoa] and [atob]

    [btoa] is defined on strings whose code units are all at most 255 and
    throws InvalidCharacterError on the others.  [atob] is the forgiving
    base64 decoder of the WHATWG Infra standard: ASCII whitespace is removed,
    one or two trailing [=] are dropped when the length is a multiple of 4, a
    length of 1 modulo 4 and any code unit outside the alphabet are errors,
    and the bits left over after the last full octet are discarded. *)

Module Base64.

Definition b64_char (n : N) : N :=
  if n <? 26 then 65 + n
  else if n <? 52 then 71 + n
  else if n <? 62 then n - 4
  else if n =? 62 then 43
  else 47.

Definition b64_val (c : N) : option N :=
  if (65 <=? c) && (c <=? 90) then Some (c - 65)
  else if (97 <=? c) && (c <=? 122) then Some (c - 71)
  else if (48 <=? c) && (c <=? 57) then Some (c + 4)
  else if c =? 43 then Some 62
  else if c =? 47 then Some 63
  else None.

Definition pad : N := 61.

(** Three octets make four sextets; one or two trailing octets make two or
    three. *)
Fixpoint sextets (l : list N) : list N :=
  match l with
  | [] => []
  | [a] => [a / 4; (a mod 4) * 16]
  | [a; b] => [a / 4; (a mod 4) * 16 + b / 16; (b mod 16) * 4]
  | a :: b :: c :: r =>
      a / 4 :: (a mod 4) * 16 + b / 16 :: (b mod 16) * 4 + c / 64
        :: c mod 64 :: sextets r
  end.

Definition padding (len : nat) : list N :=
  match (len mod 3)%nat with
  | 1%nat => [pad; pad]
  | 2%nat => [pad]
  | _ => []
  end.

Definition latin1 (s : jsstring) : bool := forallb (fun c => c <=? 255) s.

(** [btoa(s)]: [None] is the InvalidCharacterError. *)
Definition btoa (s : jsstring) : option jsstring :=
  if latin1 s then Some (List.map b64_char (sextets s) ++ padding (length s))
  else None.

Definition is_ascii_whitespace (c : N) : bool :=
  (c =? 9) || (c =? 10) || (c =? 12) || (c =? 13) || (c =? 32).

(** One or two trailing [=] are dropped, and only from a text whose length
    is a multiple of 4. *)
Definition strip_padding (d : list N) : list N :=
  if (length d mod 4 =? 0)%nat then
    match List.rev d with
    | c1 :: r1 =>
        if c1 =? pad then
          match r1 with
          | c2 :: r2 => if c2 =? pad then List.rev r2 else List.rev r1
          | [] => List.rev r1
          end
        else d
    | [] => d
    end
  else d.

Fixpoint sextet_values (d : list N) : option (list N) :=
  match d with
  | [] => Some []
  | c :: r =>
      match b64_val c, sextet_values r with
      | Some v, Some vs => Some (v :: vs)
      | _, _ => None
      end
  end.

(** Four sextets make three octets; two or three trailing sextets make one
    or two, their low bits dropped. *)
Fixpoint octets (vs : list N) : list N :=
  match vs with
  | a :: b :: c :: d :: r =>
      a * 4 + b / 16 :: (b mod 16) * 16 + c / 4 :: (c mod 4) * 64 + d
        :: octets r
  | [a; b; c] => [a * 4 + b / 16; (b mod 16) * 16 + c / 4]
  | [a; b] => [a * 4 + b / 16]
  | _ => []
  end.

(** [atob(s)]: [None] is the InvalidCharacterError. *)
Definition atob (s : jsstring) : option jsstring :=
  let d := strip_padding (List.filter (fun c => negb (is_ascii_whitespace c)) s) in
  if (length d mod 4 =? 1)%nat then None
  else match sextet_values d with
       | Some vs => Some (octets vs)
       | None => None
       end.

End Base64.
Export Base64.

(** ** JavaScript values and exceptions *)

Module Js.

Inductive error : Type :=
| TypeError
| SyntaxError
| URIError
| InvalidCharacterError
| NetworkError.

Inductive outcome (A : Type) : Type :=
| Return (a : A)
| Throw (e : error).
Arguments Return {A} a.
Arguments Throw {A} e.

Definition bind {A B} (c : outcome A) (k : A -> outcome B) : outcome B :=
  match c with
  | Return a => k a
  | Throw e => Throw e
  end.

(** [try { c } catch (e) { h e }] *)
Definition try_catch {A} (c : outcome A) (h : error -> outcome A) : outcome A :=
  match c with
  | Return a => Return a
  | Throw e => h e
  end.

Definition of_option {A} (e : error) (o : option A) : outcome A :=
  match o with
  | Some a => Return a
  | None => Throw e
  end.

(** The values [JSON.parse] builds and the handlers compute with.  Numbers
    are the integers (ports, alter ids, flags): a number is printed in
    decimal, as JavaScript prints an integer below 10^21.  An object is
    the list of its own properties in the order [Object.keys] and
    [JSON.stringify] visit them. *)
Inductive value : Type :=
| VUndefined
| VNull
| VBool (b : bool)
| VNum (n : Z)
| VStr (s : jsstring)
| VArr (l : list value)
| VObj (kvs : list (jsstring * value)).

Fixpoint lookup_own (k : jsstring) (kvs : list (jsstring * value)) : value :=
  match kvs with
  | [] => VUndefined
  | (k', v) :: r => if str_eqb k k' then v else lookup_own k r
  end.

Fixpoint has_own (k : jsstring) (kvs : list (jsstring * value)) : bool :=
  match kvs with
  | [] => false
  | (k', _) :: r => str_eqb k k' || has_own k r
  end.

(** [delete o[k]] on the own properties. *)
Fixpoint delete_own (k : jsstring) (kvs : list (jsstring * value))
  : list (jsstring * value) :=
  match kvs with
  | [] => []
  | (k', v) :: r => if str_eqb k k' then delete_own k r else (k', v) :: delete_own k r
  end.

(** ToBoolean *)
Definition truthy (v : value) : bool :=
  match v with
  | VUndefined | VNull => false
  | VBool b => b
  | VNum n => negb (n =? 0)%Z
  | VStr s => match s with [] => false | _ => true end
  | VArr _ | VObj _ => true
  end.

(** [a || b] *)
Definition or_else (a b : value) : value := if truthy a then a else b.

Definition nullish (v : value) : bool :=
  match v with
  | VUndefined | VNull => true
  | _ => false
  end.

(** [v.k] for the property names the handlers read (outbounds, remark,
    protocol, settings, vnext, address, port, users, id, alterId, flow,
    encryption, streamSettings, network, security, wsSettings,
    httpSettings, headers, Host, host, path, links, name, password,
    oldPassword, subPath, adminPath, groupId, xrayConfig): none of them is
    a property of [Object.prototype], [Array.prototype], [String.prototype],
    [Number.prototype] or [Boolean.prototype], so on anything but an object
    with that own property the result is [undefined]; on [undefined] and
    [null] the access throws. *)
Definition get_prop (v : value) (k : jsstring) : outcome value :=
  match v with
  | VUndefined | VNull => Throw TypeError
  | VObj kvs => Return (lookup_own k kvs)
  | _ => Return VUndefined
  end.

(** [v?.k] *)
Definition opt_prop (v : value) (k : jsstring) : value :=
  match v with
  | VObj kvs => lookup_own k kvs
  | _ => VUndefined
  end.

(** [v[0]] *)
Definition get_index0 (v : value) : outcome value :=
  match v with
  | VUndefined | VNull => Throw TypeError
  | VArr (x :: _) => Return x
  | VStr (c :: _) => Return (VStr [c])
  | VObj kvs => Return (lookup_own (lit "0") kvs)
  | _ => Return VUndefined
  end.

(** [v?.[0]] *)
Definition opt_index0 (v : value) : value :=
  match v with
  | VArr (x :: _) => x
  | VStr (c :: _) => VStr [c]
  | VObj kvs => lookup_own (lit "0") kvs
  | _ => VUndefined
  end.

(** [v.length] *)
Definition get_length (v : value) : outcome value :=
  match v with
  | VUndefined | VNull => Throw TypeError
  | VArr l => Return (VNum (Z.of_nat (length l)))
  | VStr s => Return (VNum (Z.of_nat (length s)))
  | VObj kvs => Return (lookup_own (lit "length") kvs)
  | _ => Return VUndefined
  end.

Definition is_high_surrogate (c : N) : bool := (55296 <=? c) && (c <=? 56319).
Definition is_low_surrogate (c : N) : bool := (56320 <=? c) && (c <=? 57343).

(** The strings a string iterator yields: one per code point. *)
Fixpoint string_iter (s : jsstring) : list jsstring :=
  match s with
  | [] => []
  | c :: r =>
      match r with
      | d :: r' =>
          if is_high_surrogate c && is_low_surrogate d
          then match string_iter r with
               | _ :: t => [c; d] :: t
               | [] => [[c; d]]
               end
          else [c] :: string_iter r
      | [] => [[c]]
      end
  end.

(** The elements [for (const x of v)] visits. *)
Definition iterate (v : value) : outcome (list value) :=
  match v with
  | VArr l => Return l
  | VStr s => Return (List.map VStr (string_iter s))
  | _ => Throw TypeError
  end.

Definition is_array (v : value) : bool :=
  match v with
  | VArr _ => true
  | _ => false
  end.

Definition decimal (n : Z) : jsstring :=
  lit (NilZero.string_of_int (Z.to_int n)).

(** ToString.  An object parsed from JSON has no callable [toString] of its
    own: it prints through [Object.prototype.toString], unless an own
    property of that name hides it, and then the conversion throws.  An
    array prints its elements joined by commas, [undefined] and [null] as
    the empty string. *)
Fixpoint ToString (v : value) : outcome jsstring :=
  match v with
  | VUndefined => Return (lit "undefined")
  | VNull => Return (lit "null")
  | VBool true => Return (lit "true")
  | VBool false => Return (lit "false")
  | VNum n => Return (decimal n)
  | VStr s => Return s
  | VArr l =>
      (fix elements (l : list value) : outcome jsstring :=
         match l with
         | [] => Return []
         | x :: r =>
             bind (if nullish x then Return [] else ToString x) (fun sx =>
             match r with
             | [] => Return sx
             | _ => bind (elements r) (fun sr => Return (sx ++ lit "," ++ sr))
             end)
         end) l
  | VObj kvs =>
      if has_own (lit "toString") kvs then Throw TypeError
      else Return (lit "[object Object]")
  end.

(** [a === b] with a string on one side. *)
Definition strict_eq_str (v : value) (s : jsstring) : bool :=
  match v with
  | VStr t => str_eqb t s
  | _ => false
  end.

End Js.
Export Js.

Notation "'let*' x ':=' c 'in' k" := (bind c (fun x => k))
  (at level 10, x name, c at level 100, k at level 200).

(** ** JSON: [JSON.parse] and [JSON.stringify]

    The texts are those of RFC 8259 with integer numbers: a number is an
    integer of magnitude up to 2^53, written without fraction and exponent.
    On these texts [JSON_parse] gives the value [JSON.parse] gives.  A text
    with another number ([JSON.parse] reads it as a double: 1.5, or 1e400
    as Infinity, which [JSON.stringify] writes as null) is outside the
    fragment: [JSON_parse] gives [None] for it, as for a text that is not
    JSON.  The properties of an answer that depends on a text being read
    therefore take [JSON_parse s = Some v] as a hypothesis. *)

Module Json.

Definition is_json_ws (c : N) : bool :=
  (c =? 32) || (c =? 9) || (c =? 10) || (c =? 13).

Fixpoint skip_ws (s : jsstring) : jsstring :=
  match s with
  | c :: r => if is_json_ws c then skip_ws r else s
  | [] => []
  end.

Definition is_digit (c : N) : bool := (48 <=? c) && (c <=? 57).

Definition hex_val (c : N) : option N :=
  if is_digit c then Some (c - 48)
  else if (97 <=? c) && (c <=? 102) then Some (c - 87)
  else if (65 <=? c) && (c <=? 70) then Some (c - 55)
  else None.

Definition hex4 (a b c d : N) : option N :=
  match hex_val a, hex_val b, hex_val c, hex_val d with
  | Some x, Some y, Some z, Some w => Some (((x * 16 + y) * 16 + z) * 16 + w)
  | _, _, _, _ => None
  end.

Definition escape_char (e : N) : option N :=
  if e =? 34 then Some 34
  else if e =? 92 then Some 92
  else if e =? 47 then Some 47
  else if e =? 98 then Some 8
  else if e =? 102 then Some 12
  else if e =? 110 then Some 10
  else if e =? 114 then Some 13
  else if e =? 116 then Some 9
  else None.

Definition push (c : N) (p : option (jsstring * jsstring))
  : option (jsstring * jsstring) :=
  match p with
  | Some (t, r) => Some (c :: t, r)
  | None => None
  end.

(** The characters of a string literal after its opening quote, and what
    follows the closing quote. *)
Fixpoint parse_chars (s : jsstring) : option (jsstring * jsstring) :=
  match s with
  | [] => None
  | c :: r =>
      if c =? 34 then Some ([], r)
      else if c =? 92 then
        match r with
        | e :: r1 =>
            if e =? 117 then
              match r1 with
              | h1 :: h2 :: h3 :: h4 :: r2 =>
                  match hex4 h1 h2 h3 h4 with
                  | Some u => push u (parse_chars r2)
                  | None => None
                  end
              | _ => None
              end
            else
              match escape_char e with
              | Some u => push u (parse_chars r1)
              | None => None
              end
        | [] => None
        end
      else if c <? 32 then None
      else push c (parse_chars r)
  end.

Fixpoint parse_digits (acc : N) (s : jsstring) : N * jsstring :=
  match s with
  | c :: r => if is_digit c then parse_digits (acc * 10 + (c - 48)) r else (acc, s)
  | [] => (acc, [])
  end.

Definition max_safe : N := 9007199254740992.

Definition parse_number (s : jsstring) : option (Z * jsstring) :=
  let '(neg, s1) :=
    match s with
    | c :: r => if c =? 45 then (true, r) else (false, s)
    | [] => (false, s)
    end in
  match s1 with
  | d :: r =>
      if is_digit d then
        let '(n, r') := if d =? 48 then (0, r) else parse_digits 0 s1 in
        let integral :=
          match r' with
          | c :: _ => negb ((c =? 46) || (c =? 101) || (c =? 69))
          | [] => true
          end in
        if integral && (n <=? max_safe)
        then Some (if neg then (- Z.of_N n)%Z else Z.of_N n, r')
        else None
      else None
  | [] => None
  end.

(** An array index: the canonical decimal text of a number below 2^32 - 1. *)
Definition array_index (k : jsstring) : option N :=
  match k with
  | [] => None
  | c :: r =>
      if forallb is_digit k && ((length k <=? 1)%nat || negb (c =? 48))
         && (length k <=? 10)%nat
      then let n := fst (parse_digits 0 k) in
           if n <? 4294967295 then Some n else None
      else None
  end.

(** [o[k] = v]: an own property keeps its place; a new one goes after the
    others, array indices first and in ascending order. *)
Fixpoint obj_set (k : jsstring) (v : value) (kvs : list (jsstring * value))
  : list (jsstring * value) :=
  match kvs with
  | [] => [(k, v)]
  | (k', v') :: r =>
      if str_eqb k k' then (k, v) :: r
      else match array_index k, array_index k' with
           | Some i, Some j => if i <? j then (k, v) :: kvs else (k', v') :: obj_set k v r
           | Some _, None => (k, v) :: kvs
           | None, _ => (k', v') :: obj_set k v r
           end
  end.

Definition expect (c : N) (s : jsstring) : option jsstring :=
  match skip_ws s with
  | d :: r => if d =? c then Some r else None
  | [] => None
  end.

(** One JSON value at the head of [s] (after whitespace) and the rest of
    the text.  [fuel] bounds the nesting depth and the number of members;
    the length of the text is enough. *)
Fixpoint parse_value (fuel : nat) (s : jsstring) : option (value * jsstring) :=
  match fuel with
  | O => None
  | S f =>
      match skip_ws s with
      | [] => None
      | c :: r =>
          if c =? 123 then
            match skip_ws r with
            | 125 :: r' => Some (VObj [], r')
            | _ =>
                (fix members (n : nat) (acc : list (jsstring * value)) (s : jsstring)
                   : option (value * jsstring) :=
                   match n with
                   | O => None
                   | S n' =>
                       match expect 34 s with
                       | None => None
                       | Some s1 =>
                           match parse_chars s1 with
                           | None => None
                           | Some (k, s2) =>
                               match expect 58 s2 with
                               | None => None
                               | Some s3 =>
                                   match parse_value f s3 with
                                   | None => None
                                   | Some (v, s4) =>
                                       let acc' := obj_set k v acc in
                                       match skip_ws s4 with
                                       | d :: s5 =>
                                           if d =? 44 then members n' acc' s5
                                           else if d =? 125 then Some (VObj acc', s5)
                                           else None
                                       | [] => None
                                       end
                                   end
                               end
                           end
                       end
                   end) f [] r
            end
          else if c =? 91 then
            match skip_ws r with
            | 93 :: r' => Some (VArr [], r')
            | _ =>
                (fix elements (n : nat) (acc : list value) (s : jsstring)
                   : option (value * jsstring) :=
                   match n with
                   | O => None
                   | S n' =>
                       match parse_value f s with
                       | None => None
                       | Some (v, s1) =>
                           match skip_ws s1 with
                           | d :: s2 =>
                               if d =? 44 then elements n' (v :: acc) s2
                               else if d =? 93 then Some (VArr (List.rev (v :: acc)), s2)
                               else None
                           | [] => None
                           end
                       end
                   end) f [] r
            end
          else if c =? 34 then
            match parse_chars r with
            | Some (t, r') => Some (VStr t, r')
            | None => None
            end
          else if startsWith (lit "true") (c :: r) then Some (VBool true, skipn 4 (c :: r))
          else if startsWith (lit "false") (c :: r) then Some (VBool false, skipn 5 (c :: r))
          else if startsWith (lit "null") (c :: r) then Some (VNull, skipn 4 (c :: r))
          else
            match parse_number (c :: r) with
            | Some (n, r') => Some (VNum n, r')
            | None => None
            end
      end
  end.

(** [JSON.parse(s)] on the fragment: [Some v] is the value returned;
    [None] is the SyntaxError, or a text with a number outside the
    fragment. *)
Definition JSON_parse (s : jsstring) : option value :=
  match parse_value (S (length s)) s with
  | Some (v, r) => match skip_ws r with [] => Some v | _ => None end
  | None => None
  end.

Definition hex_digit (n : N) : N := if n <? 10 then 48 + n else 87 + n.

Definition unicode_escape (c : N) : jsstring :=
  [92; 117; hex_digit (c / 4096); hex_digit ((c / 256) mod 16);
   hex_digit ((c / 16) mod 16); hex_digit (c mod 16)].

(** The characters of a quoted string: the two-character escapes, the
    other control characters and the unpaired surrogates as [\uXXXX]. *)
Fixpoint quote_chars (s : jsstring) : jsstring :=
  match s with
  | [] => []
  | c :: r =>
      if c =? 34 then [92; 34] ++ quote_chars r
      else if c =? 92 then [92; 92] ++ quote_chars r
      else if c =? 8 then [92; 98] ++ quote_chars r
      else if c =? 12 then [92; 102] ++ quote_chars r
      else if c =? 10 then [92; 110] ++ quote_chars r
      else if c =? 13 then [92; 114] ++ quote_chars r
      else if c =? 9 then [92; 116] ++ quote_chars r
      else if c <? 32 then unicode_escape c ++ quote_chars r
      else if is_high_surrogate c then
        match r with
        | d :: r' =>
            if is_low_surrogate d then c :: d :: quote_chars r'
            else unicode_escape c ++ quote_chars r
        | [] => unicode_escape c
        end
      else if is_low_surrogate c then unicode_escape c ++ quote_chars r
      else c :: quote_chars r
  end.

Definition quote (s : jsstring) : jsstring := [34] ++ quote_chars s ++ [34].

(** The text of a value; a property whose value is [undefined] is left
    out, an [undefined] element of an array is written [null]. *)
Fixpoint serialize (v : value) : jsstring :=
  match v with
  | VUndefined => lit "null"
  | VNull => lit "null"
  | VBool true => lit "true"
  | VBool false => lit "false"
  | VNum n => decimal n
  | VStr s => quote s
  | VArr l =>
      [91] ++
      (fix elements (l : list value) : jsstring :=
         match l with
         | [] => []
         | x :: r =>
             match r with
             | [] => serialize x
             | _ => serialize x ++ [44] ++ elements r
             end
         end) l ++ [93]
  | VObj kvs =>
      [123] ++
      (fix members (first : bool) (kvs : list (jsstring * value)) : jsstring :=
         match kvs with
         | [] => []
         | (k, x) :: r =>
             match x with
             | VUndefined => members first r
             | _ => (if first then [] else [44]) ++ quote k ++ [58]
                      ++ serialize x ++ members false r
             end
         end) true kvs ++ [125]
  end.

(** [JSON.stringify(v)] for the object literals the handlers pass. *)
Definition JSON_stringify (v : value) : jsstring := serialize v.

End Json.
Export Json.

(** ** Percent-encoding: [encodeURIComponent] and [URLSearchParams] *)

Module Uri.

(** The code points of a string; [None] stands for an unpaired surrogate. *)
Fixpoint code_points (s : jsstring) : list (option N) :=
  match s with
  | [] => []
  | c :: r =>
      if is_high_surrogate c then
        match r with
        | d :: r' =>
            if is_low_surrogate d
            then Some (65536 + (c - 55296) * 1024 + (d - 56320)) :: code_points r'
            else None :: code_points r
        | [] => [None]
        end
      else if is_low_surrogate c then None :: code_points r
      else Some c :: code_points r
  end.

Definition utf8 (cp : N) : list N :=
  if cp <? 128 then [cp]
  else if cp <? 2048 then [192 + cp / 64; 128 + cp mod 64]
  else if cp <? 65536 then
    [224 + cp / 4096; 128 + (cp / 64) mod 64; 128 + cp mod 64]
  else
    [240 + cp / 262144; 128 + (cp / 4096) mod 64; 128 + (cp / 64) mod 64;
     128 + cp mod 64].

Definition hex_upper (n : N) : N := if n <? 10 then 48 + n else 55 + n.

Definition percent (b : N) : jsstring := [37; hex_upper (b / 16); hex_upper (b mod 16)].

Definition is_alnum (c : N) : bool :=
  ((48 <=? c) && (c <=? 57)) || ((65 <=? c) && (c <=? 90))
  || ((97 <=? c) && (c <=? 122)).

(** What [encodeURIComponent] leaves as it is: letters, digits and
    [- _ . ! ~ * ' ( )]. *)
Definition uri_unreserved (c : N) : bool :=
  is_alnum c || (c =? 45) || (c =? 95) || (c =? 46) || (c =? 33) || (c =? 126)
  || (c =? 42) || (c =? 39) || (c =? 40) || (c =? 41).

Fixpoint encode_points (cps : list (option N)) : outcome jsstring :=
  match cps with
  | [] => Return []
  | None :: _ => Throw URIError
  | Some cp :: r =>
      let* t := encode_points r in
      Return ((if uri_unreserved cp then [cp] else List.concat (List.map percent (utf8 cp))) ++ t)
  end.

(** [encodeURIComponent(v)] *)
Definition encodeURIComponent (v : value) : outcome jsstring :=
  let* s := ToString v in
  encode_points (code_points s).

(** What the application/x-www-form-urlencoded serializer leaves as it is:
    letters, digits and [* - . _]; a space becomes [+]. *)
Definition form_unreserved (b : N) : bool :=
  is_alnum b || (b =? 42) || (b =? 45) || (b =? 46) || (b =? 95).

Definition form_byte (b : N) : jsstring :=
  if b =? 32 then [43]
  else if form_unreserved b then [b]
  else percent b.

(** A string as the serializer sees it: an unpaired surrogate is U+FFFD. *)
Definition form_encode (s : jsstring) : jsstring :=
  List.concat (List.map (fun cp =>
    List.concat (List.map form_byte
      (utf8 (match cp with Some c => c | None => 65533 end))))
    (code_points s)).

Fixpoint to_strings (fields : list (jsstring * value))
  : outcome (list (jsstring * jsstring)) :=
  match fields with
  | [] => Return []
  | (k, v) :: r =>
      let* sv := ToString v in
      let* t := to_strings r in
      Return ((k, sv) :: t)
  end.

(** [new URLSearchParams({ ... }).toString()] *)
Definition URLSearchParams_toString (fields : list (jsstring * value))
  : outcome jsstring :=
  let* pairs := to_strings fields in
  Return (join (lit "&")
            (List.map (fun kv => form_encode (fst kv) ++ lit "=" ++ form_encode (snd kv))
               pairs)).

End Uri.
Export Uri.

(** ** The worker *)

Module Worker.

(** What [fetch(url)] does: it rejects, or it resolves to a response whose
    body [response.text()] reads ([None]: reading the body rejects). *)
Inductive fetch_result : Type :=
| FetchRejects
| FetchResponse (ok : bool) (status : N) (text : option jsstring).

(** The services of the runtime the handlers rely on: the network, the
    message text of an exception, [crypto.randomUUID()] and the key listing
    of the namespace. *)
Record platform : Type := {
  pf_fetch : jsstring -> fetch_result;
  pf_message : error -> jsstring;
  pf_randomUUID : jsstring;
  pf_list : jsstring -> gmap jsstring jsstring -> list jsstring
}.

Record request : Type := {
  req_pathname : jsstring;
  req_method : jsstring;
  req_authorization : option jsstring;
  req_body : jsstring
}.

(** A response: the status, the body and the headers given to the
    [Response] constructor. *)
Record response : Type := {
  status : N;
  body : jsstring;
  headers : list (jsstring * jsstring)
}.

Definition nonblank (line : jsstring) : bool :=
  negb (str_eqb (trim line) []).

(** [atob(x)] where [x] may be [undefined]. *)
Definition atob_arg (x : option jsstring) : outcome jsstring :=
  of_option InvalidCharacterError
    (atob (match x with Some s => s | None => lit "undefined" end)).

Definition fetch (pf : platform) (url : jsstring) : outcome (bool * N * option jsstring) :=
  match pf_fetch pf url with
  | FetchRejects => Throw NetworkError
  | FetchResponse ok st text => Return (ok, st, text)
  end.

Definition fetchSubscriptionNodes (pf : platform) (subUrl : jsstring)
  : outcome (list jsstring) :=
  if startsWith (lit "data:") subUrl then
    try_catch
      (let base64Content := nth_error (split comma subUrl) 1 in
       let* decoded := atob_arg base64Content in
       Return (split nl decoded))
      (fun _ => Return [])
  else
    try_catch
      (let* response := fetch pf subUrl in
       let '(ok, _, body_text) := response in
       if negb ok then Return []
       else
         let* text := of_option NetworkError body_text in
         try_catch
           (let* decoded := atob_arg (Some text) in
            Return (List.filter nonblank (split nl decoded)))
           (fun _ => Return (List.filter nonblank (split nl text))))
      (fun _ => Return []).

Inductive auth_result : Type :=
| AuthOk
| AuthFail (message : jsstring) (status : N).

(** [a === b] and [a !== b]: two objects or arrays built by separate
    [JSON.parse] calls are never the same object. *)
Definition strict_eq (a b : value) : bool :=
  match a, b with
  | VUndefined, VUndefined => true
  | VNull, VNull => true
  | VBool x, VBool y => Bool.eqb x y
  | VNum x, VNum y => (x =? y)%Z
  | VStr x, VStr y => str_eqb x y
  | _, _ => false
  end.

Definition CONFIG : jsstring := lit "CONFIG".
Definition SUBS_GROUP : jsstring := lit "SUBS_GROUP:".

(** [await env.KV_NAMESPACE.get(key)]: the stored text, or [null]. *)
Definition kv_get (kv : gmap jsstring jsstring) (key : jsstring) : option jsstring :=
  kv !! key.

(** A text-or-null that passes [if (str)]: a text, and not the empty one. *)
Definition present (o : option jsstring) : option jsstring :=
  match o with
  | Some (c :: r) => Some (c :: r)
  | _ => None
  end.

(** [JSON.parse(s)] as the handlers call it.  Where [JSON_parse] reads the
    text, this is the value the code works with.  The SyntaxError stands for
    every other text: for a text that is not JSON, where the code throws it,
    and also for a JSON text with a number outside the fragment of [Json],
    which the code reads. *)
Definition parse (s : jsstring) : outcome value :=
  of_option SyntaxError (JSON_parse s).

Definition checkAuth (kv : gmap jsstring jsstring) (req : request)
  : outcome auth_result :=
  let configStr := kv_get kv CONFIG in
  let* config :=
    match present configStr with
    | Some s => parse s
    | None => Return (VObj [])
    end in
  let* savedPassword := get_prop config (lit "password") in
  if negb (truthy savedPassword) then
    if endsWith (lit "/getConfig") (req_pathname req)
       || endsWith (lit "/saveConfig") (req_pathname req)
    then Return AuthOk
    else Return (AuthFail (lit "Not configured yet.") 403)
  else
    match present (req_authorization req) with
    | None => Return (AuthFail (lit "Authorization header is missing.") 401)
    | Some authHeader =>
        if negb (startsWith (lit "Bearer ") authHeader)
        then Return (AuthFail (lit "Authorization header is missing.") 401)
        else
          let token := substring_from 7 authHeader in
          if negb (strict_eq (VStr token) savedPassword)
          then Return (AuthFail (lit "Invalid token.") 401)
          else Return AuthOk
    end.

Fixpoint map_outcome {A B} (f : A -> outcome B) (l : list A) : outcome (list B) :=
  match l with
  | [] => Return []
  | x :: r =>
      let* y := f x in
      let* t := map_outcome f r in
      Return (y :: t)
  end.

Definition btoa_or_throw (s : jsstring) : outcome jsstring :=
  of_option InvalidCharacterError (btoa s).

Definition vmess_link (outbound remark server : value) : outcome jsstring :=
  let* server_remark := get_prop server (lit "remark") in
  let* address := get_prop server (lit "address") in
  let* port := get_prop server (lit "port") in
  let* users := get_prop server (lit "users") in
  let* user0 := get_index0 users in
  let* id := get_prop user0 (lit "id") in
  let* alterId := get_prop user0 (lit "alterId") in
  let* streamSettings := get_prop outbound (lit "streamSettings") in
  let wsSettings := opt_prop streamSettings (lit "wsSettings") in
  let httpSettings := opt_prop streamSettings (lit "httpSettings") in
  let vmess :=
    VObj [ (lit "v", VStr (lit "2"));
           (lit "ps", or_else server_remark remark);
           (lit "add", address);
           (lit "port", port);
           (lit "id", id);
           (lit "aid", alterId);
           (lit "net", or_else (opt_prop streamSettings (lit "network")) (VStr (lit "tcp")));
           (lit "type", VStr (lit "none"));
           (lit "host",
             or_else (opt_prop (opt_prop wsSettings (lit "headers")) (lit "Host"))
               (or_else (opt_index0 (opt_prop httpSettings (lit "host"))) (VStr [])));
           (lit "path",
             or_else (opt_prop wsSettings (lit "path"))
               (or_else (opt_prop httpSettings (lit "path")) (VStr [])));
           (lit "tls",
             if strict_eq_str (opt_prop streamSettings (lit "security")) (lit "tls")
             then VStr (lit "tls") else VStr []) ] in
  let* encoded := btoa_or_throw (JSON_stringify vmess) in
  Return (lit "vmess://" ++ encoded).

Definition vless_link (outbound remark server : value) : outcome jsstring :=
  let* streamSettings := get_prop outbound (lit "streamSettings") in
  let wsSettings := opt_prop streamSettings (lit "wsSettings") in
  let* path := encodeURIComponent (or_else (opt_prop wsSettings (lit "path")) (VStr [])) in
  let* users := get_prop server (lit "users") in
  let* user0 := get_index0 users in
  let* flow := get_prop user0 (lit "flow") in
  let* encryption := get_prop user0 (lit "encryption") in
  let* params :=
    URLSearchParams_toString
      [ (lit "type", or_else (opt_prop streamSettings (lit "network")) (VStr (lit "tcp")));
        (lit "security", or_else (opt_prop streamSettings (lit "security")) (VStr (lit "none")));
        (lit "path", VStr path);
        (lit "host", or_else (opt_prop (opt_prop wsSettings (lit "headers")) (lit "Host")) (VStr []));
        (lit "flow", or_else flow (VStr []));
        (lit "encryption", or_else encryption (VStr (lit "none"))) ] in
  let* id := get_prop user0 (lit "id") in
  let* id_text := ToString id in
  let* address := get_prop server (lit "address") in
  let* address_text := ToString address in
  let* port := get_prop server (lit "port") in
  let* port_text := ToString port in
  let* server_remark := get_prop server (lit "remark") in
  let* name := encodeURIComponent (or_else server_remark remark) in
  Return (lit "vless://" ++ id_text ++ lit "@" ++ address_text ++ lit ":" ++ port_text
            ++ lit "?" ++ params ++ lit "#" ++ name).

(** The links one outbound contributes (one turn of the outer loop). *)
Definition outbound_links (outbound : value) : outcome (list jsstring) :=
  let* outbound_remark := get_prop outbound (lit "remark") in
  let remark := or_else outbound_remark (VStr (lit "imported-node")) in
  let* protocol := get_prop outbound (lit "protocol") in
  let* settings := get_prop outbound (lit "settings") in
  let vnext := opt_prop settings (lit "vnext") in
  if strict_eq_str protocol (lit "vmess") && truthy vnext then
    let* servers := iterate vnext in
    map_outcome (vmess_link outbound remark) servers
  else if strict_eq_str protocol (lit "vless") && truthy vnext then
    let* servers := iterate vnext in
    map_outcome (vless_link outbound remark) servers
  else Return [].

Definition parseXrayConfig (configStr : jsstring) : list jsstring :=
  match
    (let* config := parse configStr in
     let* outbounds := get_prop config (lit "outbounds") in
     if negb (truthy outbounds) || negb (is_array outbounds) then Return []
     else
       let* items := iterate outbounds in
       let* nodes := map_outcome outbound_links items in
       Return (List.concat nodes))
  with
  | Return nodes => nodes
  | Throw _ => []
  end.

(** [new Set(l)], as the list of its elements in insertion order. *)
Definition set_add (s : list jsstring) (x : jsstring) : list jsstring :=
  if existsb (str_eqb x) s then s else s ++ [x].

Definition new_Set (l : list jsstring) : list jsstring := fold_left set_add l [].

Definition is_nonempty (s : jsstring) : bool :=
  match s with
  | [] => false
  | _ => true
  end.

(** [subLinks.map(link => fetchSubscriptionNodes(link))]: [map] is a method
    of arrays only, and [startsWith] of strings only. *)
Definition fetch_link (pf : platform) (link : value) : outcome (list jsstring) :=
  match link with
  | VStr subUrl => fetchSubscriptionNodes pf subUrl
  | _ => Throw TypeError
  end.

Definition no_cache_headers : list (jsstring * jsstring) :=
  [ (lit "Content-Type", lit "text/plain; charset=utf-8");
    (lit "Cache-Control", lit "no-store, no-cache, must-revalidate, proxy-revalidate");
    (lit "Pragma", lit "no-cache");
    (lit "Expires", lit "0") ].

Definition handleSubscription (pf : platform) (kv : gmap jsstring jsstring)
    (groupId : jsstring) : response :=
  if negb (is_nonempty groupId) then
    {| status := 400; body := lit "Group ID is required."; headers := [] |}
  else
    match present (kv_get kv (SUBS_GROUP ++ groupId)) with
    | None =>
        {| status := 404;
           body := lit "// Group not found or has no subscriptions.";
           headers := [(lit "Content-Type", lit "text/plain; charset=utf-8")] |}
    | Some groupDataStr =>
        match
          (let* groupData := parse groupDataStr in
           let* links := get_prop groupData (lit "links") in
           let subLinks := or_else links (VArr []) in
           let* items :=
             match subLinks with
             | VArr l => Return l
             | _ => Throw TypeError
             end in
           let* allNodesArrays := map_outcome (fetch_link pf) items in
           let allNodes := List.filter is_nonempty (List.concat allNodesArrays) in
           let uniqueNodes := new_Set allNodes in
           let* encoded := btoa_or_throw (join [nl] uniqueNodes) in
           Return {| status := 200; body := encoded; headers := no_cache_headers |})
        with
        | Return r => r
        | Throw e =>
            {| status := 500;
               body := lit "// Error processing group: " ++ pf_message pf e;
               headers := [] |}
        end
    end.

Definition json_headers : list (jsstring * jsstring) :=
  [(lit "Content-Type", lit "application/json")].

Definition json_response (st : N) (v : value) : response :=
  {| status := st; body := JSON_stringify v; headers := json_headers |}.

Definition message_response (st : N) (success : bool) (message : jsstring) : response :=
  json_response st
    (VObj [(lit "success", VBool success); (lit "message", VStr message)]).

(** [s.replace(pat, rep)] with a string pattern: the first occurrence. *)
Fixpoint replace_first (pat rep s : jsstring) : jsstring :=
  if startsWith pat s then rep ++ skipn (length pat) s
  else match s with
       | [] => []
       | c :: r => c :: replace_first pat rep r
       end.

(** One entry of the group listing; [None] is the [null] the [catch]
    returns. *)
Definition group_summary (kv : gmap jsstring jsstring) (key : jsstring)
  : option value :=
  match
    (let* data := parse (match kv_get kv key with Some s => s | None => lit "null" end) in
     let* name := get_prop data (lit "name") in
     let* links := get_prop data (lit "links") in
     let* linkCount := if truthy links then get_length links else Return (VNum 0) in
     Return (VObj [ (lit "id", VStr (replace_first SUBS_GROUP [] key));
                    (lit "name", name);
                    (lit "linkCount", linkCount) ]))
  with
  | Return g => Some g
  | Throw _ => None
  end.

Definition msg_old_password : jsstring := [26087; 23494; 30721; 38169; 35823].
Definition msg_all_required : jsstring :=
  [25152; 26377; 23383; 27573; 22343; 20026; 24517; 22635; 39033].
Definition msg_config_saved : jsstring :=
  [37197; 32622; 24050; 20445; 23384; 65281; 35831; 20351; 29992; 26032; 23494;
   30721; 21644; 26032; 36335; 24452; 65288; 22914; 26524; 24050; 26356; 25913;
   65289; 12290].
Definition msg_no_nodes : jsstring :=
  [22312; 25552; 20379; 30340; 37197; 32622; 20013; 27809; 26377; 25214; 21040;
   26377; 25928; 30340; 33410; 28857].
Definition msg_imported (count : nat) : jsstring :=
  [25104; 21151; 23548; 20837; 32] ++ decimal (Z.of_nat count)
    ++ [32; 20010; 33410; 28857; 46].

Definition handleAdminApi (pf : platform) (kv : gmap jsstring jsstring)
    (req : request) (action : jsstring)
  : outcome (response * gmap jsstring jsstring) :=
  let* authResult := checkAuth kv req in
  match authResult with
  | AuthFail message st => Return (message_response st false message, kv)
  | AuthOk =>
      match (if str_eqb (req_method req) (lit "POST")
             then JSON_parse (req_body req) else Some (VObj [])) with
      | None => Return (message_response 400 false (lit "Invalid JSON body"), kv)
      | Some body =>
          let configStr :=
            match present (kv_get kv CONFIG) with
            | Some s => s
            | None => lit "{}"
            end in
          let* config := parse configStr in
          if str_eqb action (lit "login") then
            Return (message_response 200 true (lit "Login successful"), kv)
          else if str_eqb action (lit "saveConfig") then
            let* password := get_prop body (lit "password") in
            let* subPath := get_prop body (lit "subPath") in
            let* adminPath := get_prop body (lit "adminPath") in
            let* old := get_prop config (lit "password") in
            let* oldPassword := get_prop body (lit "oldPassword") in
            if truthy old && negb (strict_eq old oldPassword) then
              Return (message_response 403 false msg_old_password, kv)
            else if negb (truthy password) || negb (truthy subPath)
                    || negb (truthy adminPath) then
              Return (message_response 400 false msg_all_required, kv)
            else
              let newConfig :=
                VObj [ (lit "password", password); (lit "subPath", subPath);
                       (lit "adminPath", adminPath) ] in
              Return (message_response 200 true msg_config_saved,
                      <[CONFIG := JSON_stringify newConfig]> kv)
          else if str_eqb action (lit "getConfig") then
            let* data :=
              match config with
              | VUndefined | VNull => Throw TypeError
              | VObj props => Return (VObj (delete_own (lit "password") props))
              | _ => Return config
              end in
            let isConfigured :=
              match present (kv_get kv CONFIG) with
              | Some _ => true
              | None => false
              end in
            Return (json_response 200
                      (VObj [ (lit "success", VBool true); (lit "data", data);
                              (lit "isConfigured", VBool isConfigured) ]), kv)
          else if str_eqb action (lit "getGroups") then
            let keys := pf_list pf SUBS_GROUP kv in
            let groups := omap (group_summary kv) keys in
            Return (json_response 200
                      (VObj [(lit "success", VBool true); (lit "data", VArr groups)]), kv)
          else if str_eqb action (lit "getGroupDetails") then
            let* id := get_prop body (lit "id") in
            let* id_text := ToString id in
            match present (kv_get kv (SUBS_GROUP ++ id_text)) with
            | None => Return (message_response 404 false (lit "Group not found"), kv)
            | Some groupDataStr =>
                let* data := parse groupDataStr in
                Return (json_response 200
                          (VObj [(lit "success", VBool true); (lit "data", data)]), kv)
            end
          else if str_eqb action (lit "saveGroup") then
            let* id := get_prop body (lit "id") in
            let* name := get_prop body (lit "name") in
            let* links := get_prop body (lit "links") in
            if negb (truthy name) || negb (is_array links) then
              Return (message_response 400 false (lit "Invalid group data"), kv)
            else
              let groupId := or_else id (VStr (pf_randomUUID pf)) in
              let* groupId_text := ToString groupId in
              Return (json_response 200
                        (VObj [ (lit "success", VBool true);
                                (lit "message", VStr (lit "Group saved"));
                                (lit "id", groupId) ]),
                      <[SUBS_GROUP ++ groupId_text :=
                          JSON_stringify (VObj [(lit "name", name); (lit "links", links)])]> kv)
          else if str_eqb action (lit "deleteGroup") then
            let* id := get_prop body (lit "id") in
            let* id_text := ToString id in
            Return (message_response 200 true (lit "Group deleted"),
                    delete (SUBS_GROUP ++ id_text) kv)
          else if str_eqb action (lit "batchImport") then
            let* groupId := get_prop body (lit "groupId") in
            let* xrayConfig := get_prop body (lit "xrayConfig") in
            let* groupId_text := ToString groupId in
            match present (kv_get kv (SUBS_GROUP ++ groupId_text)) with
            | None => Return (message_response 404 false (lit "Group not found"), kv)
            | Some groupDataStr =>
                let nodes :=
                  match ToString xrayConfig with
                  | Return text => parseXrayConfig text
                  | Throw _ => []
                  end in
                match nodes with
                | [] => Return (message_response 400 false msg_no_nodes, kv)
                | _ =>
                    let* importedNodesContent := btoa_or_throw (join [nl] nodes) in
                    let dataUrl := lit "data:text/plain;base64," ++ importedNodesContent in
                    let* groupData := parse groupDataStr in
                    let* links := get_prop groupData (lit "links") in
                    match groupData, links with
                    | VObj props, VArr l =>
                        let groupData' :=
                          VObj (obj_set (lit "links") (VArr (l ++ [VStr dataUrl])) props) in
                        Return (message_response 200 true (msg_imported (length nodes)),
                                <[SUBS_GROUP ++ groupId_text := JSON_stringify groupData']> kv)
                    | _, _ => Throw TypeError
                    end
                end
            end
          else
            Return (message_response 404 false (lit "Unknown API action"), kv)
      end
  end.

Definition onRequest (pf : platform) (kv : gmap jsstring jsstring) (req : request)
  : outcome (response * gmap jsstring jsstring) :=
  let pathSegments := List.filter is_nonempty (split 47 (req_pathname req)) in
  let* config :=
    match present (kv_get kv CONFIG) with
    | Some s => parse s
    | None => Return (VObj [(lit "subPath", VStr (lit "sub"));
                            (lit "adminPath", VStr (lit "admin"))])
    end in
  let* configured_subPath := get_prop config (lit "subPath") in
  let subPath := or_else configured_subPath (VStr (lit "sub")) in
  let* configured_adminPath := get_prop config (lit "adminPath") in
  let adminPath := or_else configured_adminPath (VStr (lit "admin")) in
  let not_found :=
    Return ({| status := 404; body := lit "Not Found"; headers := [] |}, kv) in
  match pathSegments with
  | first :: groupId :: rest =>
      if strict_eq (VStr first) subPath then
        Return (handleSubscription pf kv groupId, kv)
      else if strict_eq (VStr first) adminPath && str_eqb groupId (lit "api") then
        match rest with
        | action :: _ => handleAdminApi pf kv req action
        | [] => not_found
        end
      else not_found
  | _ => not_found
  end.

End Worker.
Export Worker.

(** ** The vocabulary of the specification *)

Module Spec.

(** Each distinct entry once, in the order of its first occurrence. *)
Fixpoint first_occurrences (l : list jsstring) : list jsstring :=
  match l with
  | [] => []
  | x :: r => x :: List.filter (fun y => negb (str_eqb y x)) (first_occurrences r)
  end.

(** The substring after the first comma (empty when there is no comma). *)
Fixpoint after_first_comma (s : jsstring) : jsstring :=
  match s with
  | [] => []
  | c :: r => if c =? comma then r else after_first_comma r
  end.

(** The substring before the first comma (all of it when there is none). *)
Fixpoint until_comma (s : jsstring) : jsstring :=
  match s with
  | [] => []
  | c :: r => if c =? comma then [] else c :: until_comma r
  end.

Definition has_comma (s : jsstring) : bool := existsb (fun c => c =? comma) s.

(** The entries of an embedded reference as the specification words them:
    the whole substring after the first comma is decoded and split on
    newlines, a decode failure gives no entry. *)
Definition data_entries (linkRef : jsstring) : list jsstring :=
  match atob (after_first_comma linkRef) with
  | Some decoded => split nl decoded
  | None => []
  end.

(** The entries a reference contributes. *)
Definition fetched (pf : platform) (linkRef : jsstring) : list jsstring :=
  match fetchSubscriptionNodes pf linkRef with
  | Return entries => entries
  | Throw _ => []
  end.

(** A configuration value with its password field taken out. *)
Definition without_password (config : value) : value :=
  match config with
  | VObj props => VObj (delete_own (lit "password") props)
  | _ => config
  end.

(** A line is blank when it is empty or made of white space only. *)
Definition blank (line : jsstring) : bool := forallb is_js_space line.

End Spec.
Export Spec.

(** ** Scenarios: concrete platforms, stores and configurations *)

Module Scenario.

Definition error_name (e : error) : jsstring :=
  match e with
  | TypeError => lit "TypeError"
  | SyntaxError => lit "SyntaxError"
  | URIError => lit "URIError"
  | InvalidCharacterError => lit "InvalidCharacterError"
  | NetworkError => lit "NetworkError"
  end.

Definition platform_with (net : jsstring -> fetch_result) : platform :=
  {| pf_fetch := net;
     pf_message := error_name;
     pf_randomUUID := lit "3f1c2a9e-5b7d-4c1a-9e2f-0a1b2c3d4e5f";
     pf_list := fun prefix kv =>
       List.filter (startsWith prefix) (List.map fst (map_to_list kv)) |}.

Definition up_url : jsstring := lit "https://up.example/sub".
Definition mirror_url : jsstring := lit "https://mirror.example/sub".
Definition down_url : jsstring := lit "https://down.example/sub".

(** A network where [up_url] answers 200 with the body [up], [mirror_url]
    answers 200 with the body [mirror], and no other host is reachable. *)
Definition network (up mirror : jsstring) (url : jsstring) : fetch_result :=
  if str_eqb url up_url then FetchResponse true 200 (Some up)
  else if str_eqb url mirror_url then FetchResponse true 200 (Some mirror)
  else FetchRejects.

Definition offline : platform := platform_with (fun _ => FetchRejects).

(** The text [saveGroup] stores for a group with these links. *)
Definition group_text (links : list jsstring) : jsstring :=
  JSON_stringify
    (VObj [(lit "name", VStr (lit "demo")); (lit "links", VArr (List.map VStr links))]).

(** A namespace holding the single group [g1]. *)
Definition store_with_group (links : list jsstring) : gmap jsstring jsstring :=
  {[ SUBS_GROUP ++ lit "g1" := group_text links ]}.

Definition X_Y : jsstring := lit "X" ++ [nl] ++ lit "Y".

(** A client configuration with one vmess outbound and one endpoint. *)
Definition vmess_config : jsstring :=
  dq "{'outbounds':[{'protocol':'vmess','settings':{'vnext':[{'address':'h','port':443,'users':[{'id':'u1'}]}]}}]}".

(** A client configuration with one vless outbound over WebSocket, path /ws. *)
Definition vless_config : jsstring :=
  dq "{'outbounds':[{'protocol':'vless','settings':{'vnext':[{'address':'h','port':443,'users':[{'id':'u1'}]}]},'streamSettings':{'network':'ws','wsSettings':{'path':'/ws'}}}]}".

(** The text [saveConfig] stores, and a namespace holding it. *)
Definition config_text (password : jsstring) : jsstring :=
  JSON_stringify
    (VObj [ (lit "password", VStr password); (lit "subPath", VStr (lit "sub"));
            (lit "adminPath", VStr (lit "admin")) ]).

Definition store_with_config (password : jsstring) : gmap jsstring jsstring :=
  {[ CONFIG := config_text password ]}.

(** The [getConfig] request of an administrator presenting [token]. *)
Definition getConfig_request (token : jsstring) : request :=
  {| req_pathname := lit "/admin/api/getConfig";
     req_method := lit "GET";
     req_authorization := Some (lit "Bearer " ++ token);
     req_body := [] |}.

End Scenario.
Export Scenario.

(** ** The shape of the values [JSON.parse] builds

    What the parser returns and what the serializer reads back: numbers in
    the safe range, properties in the order [obj_set] keeps, no [undefined]
    inside. *)

Module JsonShape.

(** [k'] may stand before [k] in an object: they differ, and an array index
    never follows a larger index or another key. *)
Definition key_before (k' k : jsstring) : bool :=
  negb (str_eqb k k')
  && match array_index k, array_index k' with
     | Some i, Some j => j <=? i
     | Some _, None => false
     | None, _ => true
     end.

(** The keys of an object in the order [obj_set] keeps them. *)
Fixpoint keys_ordered (ks : list jsstring) : bool :=
  match ks with
  | [] => true
  | k' :: r => forallb (key_before k') r && keys_ordered r
  end.

(** The values [JSON.parse] builds. *)
Fixpoint well_formed (v : value) : bool :=
  match v with
  | VUndefined => false
  | VNull | VBool _ | VStr _ => true
  | VNum n => (Z.abs n <=? Z.of_N max_safe)%Z
  | VArr l => forallb well_formed l
  | VObj kvs =>
      keys_ordered (List.map fst kvs)
      && forallb (fun kv => well_formed (snd kv)) kvs
  end.

(** A bound on the fuel the parser needs to read a value back: its nesting
    and the lengths of its arrays and objects. *)
Fixpoint depth (v : value) : nat :=
  match v with
  | VArr l => S (Nat.max (length l) (list_max (List.map depth l)))
  | VObj kvs => S (Nat.max (length kvs) (list_max (List.map (fun kv => depth (snd kv)) kvs)))
  | _ => 1
  end.

(** What may follow a value in a JSON text: nothing, a comma or a closing
    bracket. *)
Definition delimited (rest : jsstring) : Prop :=
  match rest with
  | [] => True
  | c :: _ => c = 44 \/ c = 93 \/ c = 125
  end.

(** The first character of a printed value. *)
Definition value_start (c : N) : Prop :=
  c = 123 \/ c = 91 \/ c = 34 \/ c = 116 \/ c = 102 \/ c = 110 \/ c = 45
  \/ is_digit c = true.

Section Loops.

Variable parse_inner : jsstring -> option (value * jsstring).

(** The member loop of the object parser, over the parser of the values. *)
Fixpoint members_loop (n : nat) (acc : list (jsstring * value)) (s : jsstring)
  : option (value * jsstring) :=
  match n with
  | O => None
  | S n' =>
      match expect 34 s with
      | None => None
      | Some s1 =>
          match parse_chars s1 with
          | None => None
          | Some (k, s2) =>
              match expect 58 s2 with
              | None => None
              | Some s3 =>
                  match parse_inner s3 with
                  | None => None
                  | Some (v, s4) =>
                      let acc' := obj_set k v acc in
                      match skip_ws s4 with
                      | d :: s5 =>
                          if d =? 44 then members_loop n' acc' s5
                          else if d =? 125 then Some (VObj acc', s5)
                          else None
                      | [] => None
                      end
                  end
              end
          end
      end
  end.

(** The element loop of the array parser. *)
Fixpoint elements_loop (n : nat) (acc : list value) (s : jsstring)
  : option (value * jsstring) :=
  match n with
  | O => None
  | S n' =>
      match parse_inner s with
      | None => None
      | Some (v, s1) =>
          match skip_ws s1 with
          | d :: s2 =>
              if d =? 44 then elements_loop n' (v :: acc) s2
              else if d =? 93 then Some (VArr (List.rev (v :: acc)), s2)
              else None
          | [] => None
          end
      end
  end.

End Loops.

(** The two loops of the serializer. *)
Fixpoint ser_elements (l : list value) : jsstring :=
  match l with
  | [] => []
  | x :: r =>
      match r with
      | [] => serialize x
      | _ => serialize x ++ [44] ++ ser_elements r
      end
  end.

Fixpoint ser_members (first : bool) (kvs : list (jsstring * value)) : jsstring :=
  match kvs with
  | [] => []
  | (k, x) :: r =>
      match x with
      | VUndefined => ser_members first r
      | _ => (if first then [] else [44]) ++ quote k ++ [58]
               ++ serialize x ++ ser_members false r
      end
  end.

(** A value that the parser with fuel [f] reads back from its text,
    whatever delimiter follows. *)
Definition reads_back (f : nat) (x : value) : Prop :=
  forall tail, delimited tail -> parse_value f (serialize x ++ tail) = Some (x, tail).

Definition is_undefined (v : value) : bool :=
  match v with
  | VUndefined => true
  | _ => false
  end.

(** The properties [JSON.stringify] writes: those with a defined value. *)
Definition defined_props (kvs : list (jsstring * value)) : list (jsstring * value) :=
  List.filter (fun kv => negb (is_undefined (snd kv))) kvs.

(** A value read from parsed JSON: undefined (a missing property) or
    well-formed. *)
Definition read_value (v : value) : bool := is_undefined v || well_formed v.

End JsonShape.
Export JsonShape.

(** ** Parts of the handlers

    The pieces of the handlers that the properties below speak about, each
    written as it stands in the source. *)

Module Views.

(** The entries of a feed: the distinct non-empty entries fetched from the
    references, in the order of first occurrence. *)
Definition feed_entries (pf : platform) (refs : list jsstring) : list jsstring :=
  first_occurrences (List.filter is_nonempty (List.concat (List.map (fetched pf) refs))).

(** The body the admin handler works with: the parsed JSON text of a POST
    request, the empty object for another method; [None] when the text of a
    POST request does not parse. *)
Definition request_json (req : request) : option value :=
  if str_eqb (req_method req) (lit "POST") then JSON_parse (req_body req)
  else Some (VObj []).

(** The configuration text the admin handler parses. *)
Definition stored_config (kv : gmap jsstring jsstring) : jsstring :=
  match present (kv_get kv CONFIG) with
  | Some s => s
  | None => lit "{}"
  end.

(** The configuration object [saveConfig] stores. *)
Definition new_config (password subPath adminPath : value) : value :=
  VObj [ (lit "password", password); (lit "subPath", subPath);
         (lit "adminPath", adminPath) ].

(** The group object [saveGroup] stores. *)
Definition new_group (name links : value) : value :=
  VObj [(lit "name", name); (lit "links", links)].

(** The embedded reference [batchImport] builds for a payload. *)
Definition data_url (payload : jsstring) : jsstring :=
  lit "data:text/plain;base64," ++ payload.

(** The answer to a path that no route takes. *)
Definition not_found : response :=
  {| status := 404; body := lit "Not Found"; headers := [] |}.

Definition slash : N := 47.

(** The routes of [onRequest] over the path segments, for the two
    configured path values. *)
Definition route (pf : platform) (kv : gmap jsstring jsstring) (req : request)
    (subPath adminPath : value) : outcome (response * gmap jsstring jsstring) :=
  match List.filter is_nonempty (split 47 (req_pathname req)) with
  | first :: second :: rest =>
      if strict_eq (VStr first) subPath then
        Return (handleSubscription pf kv second, kv)
      else if strict_eq (VStr first) adminPath && str_eqb second (lit "api") then
        match rest with
        | action :: _ => handleAdminApi pf kv req action
        | [] => Return (not_found, kv)
        end
      else Return (not_found, kv)
  | _ => Return (not_found, kv)
  end.

(** The server endpoints of an outbound that the importer turns into links:
    those of a vmess or vless outbound with a truthy [settings.vnext]. *)
Definition endpoints (outbound : value) : list value :=
  let protocol := opt_prop outbound (lit "protocol") in
  let vnext := opt_prop (opt_prop outbound (lit "settings")) (lit "vnext") in
  if (strict_eq_str protocol (lit "vmess") || strict_eq_str protocol (lit "vless"))
     && truthy vnext
  then match iterate vnext with
       | Return servers => servers
       | Throw _ => []
       end
  else [].

(** An outbound the importer passes over: a value other than [undefined] and
    [null] (reading a property of these throws) whose protocol is neither
    the string vmess nor the string vless. *)
Definition passed_over (outbound : value) : bool :=
  negb (nullish outbound)
  && negb (strict_eq_str (opt_prop outbound (lit "protocol")) (lit "vmess"))
  && negb (strict_eq_str (opt_prop outbound (lit "protocol")) (lit "vless")).

Definition has_scheme (link : jsstring) : bool :=
  startsWith (lit "vmess://") link || startsWith (lit "vless://") link.

(** The display name an outbound gives to its links. *)
Definition outbound_remark (outbound : value) : value :=
  or_else (opt_prop outbound (lit "remark")) (VStr (lit "imported-node")).

(** The descriptor of a vmess link, as the importer fills it for a server
    endpoint of an outbound. *)
Definition vmess_fields (outbound server : value) : list (jsstring * value) :=
  let user0 := opt_index0 (opt_prop server (lit "users")) in
  let streamSettings := opt_prop outbound (lit "streamSettings") in
  let wsSettings := opt_prop streamSettings (lit "wsSettings") in
  let httpSettings := opt_prop streamSettings (lit "httpSettings") in
  [ (lit "v", VStr (lit "2"));
    (lit "ps", or_else (opt_prop server (lit "remark")) (outbound_remark outbound));
    (lit "add", opt_prop server (lit "address"));
    (lit "port", opt_prop server (lit "port"));
    (lit "id", opt_prop user0 (lit "id"));
    (lit "aid", opt_prop user0 (lit "alterId"));
    (lit "net", or_else (opt_prop streamSettings (lit "network")) (VStr (lit "tcp")));
    (lit "type", VStr (lit "none"));
    (lit "host",
      or_else (opt_prop (opt_prop wsSettings (lit "headers")) (lit "Host"))
        (or_else (opt_index0 (opt_prop httpSettings (lit "host"))) (VStr [])));
    (lit "path",
      or_else (opt_prop wsSettings (lit "path"))
        (or_else (opt_prop httpSettings (lit "path")) (VStr [])));
    (lit "tls",
      if strict_eq_str (opt_prop streamSettings (lit "security")) (lit "tls")
      then VStr (lit "tls") else VStr []) ].

(** The value [JSON.parse] gives for a text ([undefined] when it throws),
    and the outbounds of a configuration. *)
Definition parsed (s : jsstring) : value :=
  match JSON_parse s with
  | Some v => v
  | None => VUndefined
  end.

Definition outbounds_of (config : value) : list value :=
  match opt_prop config (lit "outbounds") with
  | VArr items => items
  | _ => []
  end.

(** The answer and the namespace an outcome of a handler carries. *)
Definition answer_of (c : outcome (response * gmap jsstring jsstring)) : response :=
  match c with
  | Return (r, _) => r
  | Throw _ => {| status := 500; body := []; headers := [] |}
  end.

Definition store_of (kv : gmap jsstring jsstring)
    (c : outcome (response * gmap jsstring jsstring)) : gmap jsstring jsstring :=
  match c with
  | Return (_, kv') => kv'
  | Throw _ => kv
  end.

End Views.
Export Views.

(** ** Further scenarios *)

Module Cases.

(** A namespace with a password and the empty group [g1], and the request
    of its administrator that imports [vmess_config] into that group. *)
Definition import_store : gmap jsstring jsstring :=
  <[SUBS_GROUP ++ lit "g1" := group_text []]> (store_with_config (lit "s3cret")).

Definition import_request : request :=
  {| req_pathname := lit "/admin/api/batchImport";
     req_method := lit "POST";
     req_authorization := Some (lit "Bearer s3cret");
     req_body :=
       JSON_stringify
         (VObj [ (lit "groupId", VStr (lit "g1"));
                 (lit "xrayConfig", VStr vmess_config) ]) |}.

(** A configuration whose second outbound has an endpoint without users. *)
Definition broken_config : jsstring :=
  dq "{'outbounds':[{'protocol':'vmess','settings':{'vnext':[{'address':'h','port':443,'users':[{'id':'u1'}]}]}},{'protocol':'vmess','settings':{'vnext':[{'address':'h2','port':443}]}}]}".

(** A configuration with the vmess outbound of [vmess_config] and a vless
    outbound next to it. *)
Definition mixed_config : jsstring :=
  dq "{'outbounds':[{'protocol':'vmess','settings':{'vnext':[{'address':'h','port':443,'users':[{'id':'u1'}]}]}},{'protocol':'vless','settings':{'vnext':[{'address':'h2','port':8443,'users':[{'id':'u2'}]}]}}]}".

(** A configuration as a client writes it: the vmess outbound of
    [vmess_config] between a direct and a blocking outbound. *)
Definition xray_config : jsstring :=
  dq "{'outbounds':[{'protocol':'freedom','tag':'direct'},{'protocol':'vmess','settings':{'vnext':[{'address':'h','port':443,'users':[{'id':'u1'}]}]}},{'protocol':'blackhole','tag':'block'}]}".

(** The configuration [vmess_config] with a remark of one code unit above
    255 (U+4E2D) on its outbound. *)
Definition wide_remark_config : jsstring :=
  dq "{'outbounds':[{'remark':'" ++ [20013%N]
    ++ dq "','protocol':'vmess','settings':{'vnext':[{'address':'h','port':443,'users':[{'id':'u1'}]}]}}]}".

(** A configuration text with equal paths, and the namespace holding it. *)
Definition same_paths_text : jsstring :=
  dq "{'password':'pw','subPath':'x','adminPath':'x'}".

Definition same_paths_store : gmap jsstring jsstring :=
  <[CONFIG := same_paths_text]> empty.

(** The text [saveConfig] stores for the body [first_config_body], and the
    request that sends this body to a namespace without a configuration. *)
Definition first_config_body : jsstring :=
  dq "{'password':'pw','subPath':'s','adminPath':'a'}".

Definition first_config_request : request :=
  {| req_pathname := lit "/admin/api/saveConfig";
     req_method := lit "POST";
     req_authorization := None;
     req_body := first_config_body |}.

Definition first_config_store : gmap jsstring jsstring :=
  <[CONFIG := first_config_body]> empty.

(** A request of the administrator of [store_with_config] with the password
    s3cret, for a path and a body. *)
Definition admin_request (path body : jsstring) : request :=
  {| req_pathname := path;
     req_method := lit "POST";
     req_authorization := Some (lit "Bearer s3cret");
     req_body := body |}.

(** The body that saves the group [g1] with one link, the text stored for
    it and the namespace after the request. *)
Definition save_g1_body (link : jsstring) : jsstring :=
  dq "{'id':'g1','name':'demo','links':['" ++ link ++ dq "']}".

Definition saved_g1_text (link : jsstring) : jsstring :=
  dq "{'name':'demo','links':['" ++ link ++ dq "']}".

Definition saved_g1_store (link : jsstring) : gmap jsstring jsstring :=
  <[SUBS_GROUP ++ lit "g1" := saved_g1_text link]> (store_with_config (lit "s3cret")).

Definition saved_g1_answer : response :=
  json_response 200
    (VObj [ (lit "success", VBool true);
            (lit "message", VStr (lit "Group saved"));
            (lit "id", VStr (lit "g1")) ]).

(** A request without credentials. *)
Definition anonymous_request (method path body : jsstring) : request :=
  {| req_pathname := path;
     req_method := method;
     req_authorization := None;
     req_body := body |}.

End Cases.
Export Cases.

(** ** The navigation guard of the admin panel

    The global guard of [frontend/src/router/index.js].  A guard ends by
    calling [next]: with no argument the navigation goes on, with a route
    name it is redirected there. *)

Module Frontend.

Inductive navigation : Type :=
| Proceed
| Redirect (name : jsstring).

(** [to.name === name], for the name of the target route ([None]: a route
    without a name). *)
Definition is_route (to_name : option jsstring) (name : jsstring) : bool :=
  match to_name with
  | Some n => str_eqb n name
  | None => false
  end.

(** [localStorage.getItem('auth_token')] as a condition: a stored token,
    and not the empty one. *)
Definition has_token (auth_token : option jsstring) : bool :=
  match present auth_token with
  | Some _ => true
  | None => false
  end.

(** [router.beforeEach].  [answer] is what
    [(await fetch('/api/getConfig')).json()] gives: the parsed body, or the
    exception of a failed request or of a body that is not JSON. *)
Definition beforeEach (answer : outcome value) (auth_token : option jsstring)
    (to_name : option jsstring) : outcome navigation :=
  try_catch
    (let* data := answer in
     let* isConfigured := get_prop data (lit "isConfigured") in
     if negb (truthy isConfigured) && negb (is_route to_name (lit "Setup")) then
       Return (Redirect (lit "Setup"))
     else if truthy isConfigured && is_route to_name (lit "Setup") then
       Return (Redirect (lit "Login"))
     else if has_token auth_token
             && (is_route to_name (lit "Login") || is_route to_name (lit "Setup")) then
       Return (Redirect (lit "Dashboard"))
     else Return Proceed)
    (fun _ =>
       if negb (is_route to_name (lit "Setup")) then Return (Redirect (lit "Setup"))
       else Return Proceed).

End Frontend.
Export Frontend.

(** * Properties *)

(** ** Base64 round trip *)

Section Base64Facts.

Lemma list_ind3 (A : Type) (P : list A -> Prop) :
  P [] -> (forall a, P [a]) -> (forall a b, P [a; b]) ->
  (forall a b c r, P r -> P (a :: b :: c :: r)) ->
  forall l, P l.
Proof.
  intros H0 H1 H2 H3 l.
  assert (H : P l /\ (forall a, P (a :: l)) /\ (forall a b, P (a :: b :: l))).
  { induction l as [|x l (IH0 & IH1 & IH2)]; [now auto|].
    split; [apply IH1|]. split; [intros a; apply IH2|].
    intros a b. now apply H3. }
  apply H.
Qed.

Ltac split_b64_char n :=
  unfold b64_char;
  destruct (N.ltb_spec n 26);
  [|destruct (N.ltb_spec n 52);
    [|destruct (N.ltb_spec n 62); [|destruct (N.eqb_spec n 62)]]].

Ltac decide_tests :=
  repeat (first [ case N.ltb_spec | case N.leb_spec | case N.eqb_spec ];
          intros; simpl; try lia).

Ltac euclid := zify; Z.to_euclidean_division_equations; lia.

Lemma b64_val_char n : n < 64 -> b64_val (b64_char n) = Some n.
Proof.
  intros Hn. split_b64_char n; unfold b64_val; decide_tests; f_equal; lia.
Qed.

Lemma b64_char_not_whitespace n : is_ascii_whitespace (b64_char n) = false.
Proof.
  split_b64_char n; unfold is_ascii_whitespace; decide_tests; reflexivity.
Qed.

Lemma b64_char_not_pad n : (b64_char n =? pad) = false.
Proof.
  split_b64_char n; unfold pad; decide_tests; reflexivity.
Qed.

Lemma latin1_Forall s : latin1 s = true <-> List.Forall (fun c => c <= 255) s.
Proof.
  unfold latin1. rewrite forallb_forall, List.Forall_forall.
  split; intros H c Hc; apply N.leb_le; now apply H.
Qed.

Lemma sextets_bound s :
  List.Forall (fun c => c <= 255) s -> List.Forall (fun v => v < 64) (sextets s).
Proof.
  induction s as [| a | a b | a b c r IH] using list_ind3; intros H; simpl.
  - constructor.
  - inversion_clear H. repeat constructor; euclid.
  - inversion_clear H as [|? ? Ha H']. inversion_clear H'.
    repeat constructor; euclid.
  - inversion_clear H as [|? ? Ha H']. inversion_clear H' as [|? ? Hb H''].
    inversion_clear H'' as [|? ? Hc Hr].
    repeat constructor; try euclid. now apply IH.
Qed.

Lemma octets_sextets s : List.Forall (fun c => c <= 255) s -> octets (sextets s) = s.
Proof.
  induction s as [| a | a b | a b c r IH] using list_ind3; intros H; simpl.
  - reflexivity.
  - inversion_clear H. f_equal. euclid.
  - inversion_clear H as [|? ? Ha H']. inversion_clear H'. repeat f_equal; euclid.
  - inversion_clear H as [|? ? Ha H']. inversion_clear H' as [|? ? Hb H''].
    inversion_clear H'' as [|? ? Hc Hr].
    rewrite IH by assumption. repeat f_equal; euclid.
Qed.

Lemma sextet_values_chars vs :
  List.Forall (fun v => v < 64) vs -> sextet_values (List.map b64_char vs) = Some vs.
Proof.
  induction 1 as [|v vs Hv _ IH]; simpl; [reflexivity|].
  now rewrite b64_val_char, IH.
Qed.

Lemma padding_step n : padding (S (S (S n))) = padding n.
Proof.
  unfold padding. replace (S (S (S n))) with (n + 1 * 3)%nat by lia.
  now rewrite Nat.Div0.mod_add.
Qed.

(** The encoded text is a whole number of quadruples: the sextets and the
    padding that completes them. *)
Lemma sextets_shape s :
  exists k : nat,
    (length (sextets s) = 4 * k /\ padding (length s) = [])%nat
    \/ (length (sextets s) = 4 * k + 2 /\ padding (length s) = [pad; pad])%nat
    \/ (length (sextets s) = 4 * k + 3 /\ padding (length s) = [pad])%nat.
Proof.
  induction s as [| a | a b | a b c r [k IH]] using list_ind3.
  - exists 0%nat. left. split; reflexivity.
  - exists 0%nat. right. left. split; reflexivity.
  - exists 0%nat. right. right. split; reflexivity.
  - exists (S k). cbn [length sextets]. rewrite padding_step.
    destruct IH as [[-> ->]|[[-> ->]|[-> ->]]];
      [left|right; left|right; right]; split; auto; lia.
Qed.

Lemma filter_all {A} (f : A -> bool) l :
  List.Forall (fun x => f x = true) l -> List.filter f l = l.
Proof.
  induction 1 as [|x l Hx _ IH]; simpl; [reflexivity|]. now rewrite Hx, IH.
Qed.

Lemma rev_map_head vs c r :
  List.rev (List.map b64_char vs) = c :: r -> (c =? pad) = false.
Proof.
  rewrite <- map_rev. destruct (List.rev vs); simpl; [discriminate|].
  intros [= <- _]. apply b64_char_not_pad.
Qed.

Lemma strip_padding_chars vs pads :
  (length (List.map b64_char vs ++ pads) mod 4 = 0)%nat ->
  pads = [] \/ pads = [pad] \/ pads = [pad; pad] ->
  strip_padding (List.map b64_char vs ++ pads) = List.map b64_char vs.
Proof.
  intros Hlen Hpads. unfold strip_padding.
  apply Nat.eqb_eq in Hlen. rewrite Hlen. rewrite rev_app_distr.
  destruct Hpads as [->|[->| ->]]; simpl.
  - rewrite app_nil_r.
    destruct (List.rev (List.map b64_char vs)) as [|c1 r1] eqn:E; [reflexivity|].
    now rewrite (rev_map_head _ _ _ E).
  - destruct (List.rev (List.map b64_char vs)) as [|c2 r2] eqn:E.
    + apply (f_equal (@List.rev N)) in E. rewrite rev_involutive in E. now rewrite E.
    + rewrite (rev_map_head _ _ _ E). rewrite <- E. apply rev_involutive.
  - apply rev_involutive.
Qed.

(** Decoding what [btoa] produced gives the text back. *)
Lemma atob_btoa s b : btoa s = Some b -> atob b = Some s.
Proof.
  unfold btoa. destruct (latin1 s) eqn:Hl; [|discriminate]. intros [= <-].
  apply latin1_Forall in Hl.
  pose proof (sextets_bound s Hl) as Hv.
  destruct (sextets_shape s) as [k Hk].
  unfold atob.
  rewrite filter_all.
  2:{ apply List.Forall_app. split.
      - apply List.Forall_forall. intros c Hc. apply in_map_iff in Hc as [v [<- _]].
        now rewrite b64_char_not_whitespace.
      - destruct Hk as [[_ ->]|[[_ ->]|[_ ->]]]; repeat constructor. }
  rewrite strip_padding_chars.
  - rewrite length_map.
    replace ((length (sextets s) mod 4 =? 1)%nat) with false.
    + now rewrite sextet_values_chars, octets_sextets.
    + symmetry. apply Nat.eqb_neq.
      destruct Hk as [[-> _]|[[-> _]|[-> _]]]; euclid.
  - rewrite length_app, length_map.
    destruct Hk as [[-> ->]|[[-> ->]|[-> ->]]]; simpl length; euclid.
  - destruct Hk as [[_ ->]|[[_ ->]|[_ ->]]]; auto.
Qed.

Lemma btoa_latin1 s : latin1 s = true -> exists b, btoa s = Some b.
Proof. intros H. unfold btoa. rewrite H. eauto. Qed.

End Base64Facts.

(** ** Strings and sets *)

Section StringFacts.

Lemma str_eqb_eq a b : str_eqb a b = true <-> a = b.
Proof.
  revert b. induction a as [|c a IH]; intros [|d b]; simpl;
    try (split; [discriminate|congruence]); [tauto|].
  rewrite andb_true_iff, N.eqb_eq, IH. split; [intros [-> ->]|intros [= -> ->]]; auto.
Qed.

Lemma str_eqb_neq a b : str_eqb a b = false <-> a <> b.
Proof.
  rewrite <- str_eqb_eq. destruct (str_eqb a b); split; congruence.
Qed.

Lemma str_eqb_refl a : str_eqb a a = true.
Proof. now apply str_eqb_eq. Qed.

Lemma split_nonempty sep s : split sep s <> [].
Proof.
  destruct s as [|c r]; simpl; [discriminate|].
  destruct (c =? sep); [discriminate|]. destruct (split sep r); discriminate.
Qed.

Lemma split_no_sep sep x : ~ In sep x -> split sep x = [x].
Proof.
  induction x as [|c r IH]; simpl; intros H; [reflexivity|].
  destruct (N.eqb_spec c sep) as [->|_]; [exfalso; auto|].
  rewrite IH by tauto. reflexivity.
Qed.

Lemma split_app sep x y : ~ In sep x -> split sep (x ++ sep :: y) = x :: split sep y.
Proof.
  induction x as [|c r IH]; simpl; intros H.
  - now rewrite N.eqb_refl.
  - destruct (N.eqb_spec c sep) as [->|_]; [exfalso; auto|].
    rewrite IH by tauto. reflexivity.
Qed.

Lemma trimStart_nil s : trimStart s = [] <-> forallb is_js_space s = true.
Proof.
  induction s as [|c r IH]; simpl; [tauto|].
  destruct (is_js_space c); simpl; [exact IH|]. split; discriminate.
Qed.

Lemma trimStart_head s : forallb is_js_space (trimStart s) = true -> trimStart s = [].
Proof.
  induction s as [|c r IH]; simpl; [reflexivity|].
  destruct (is_js_space c) eqn:E; [exact IH|]. simpl. rewrite E. discriminate.
Qed.

Lemma forallb_rev {A} (f : A -> bool) l : forallb f (List.rev l) = forallb f l.
Proof.
  induction l as [|x l IH]; simpl; [reflexivity|].
  rewrite forallb_app, IH. simpl. rewrite andb_true_r. apply andb_comm.
Qed.

(** [line.trim() !== ''] holds exactly of the lines that are not blank. *)
Lemma nonblank_not_blank line : nonblank line = negb (blank line).
Proof.
  unfold nonblank, blank, trim.
  destruct (forallb is_js_space line) eqn:E; simpl.
  - apply trimStart_nil in E. rewrite E. reflexivity.
  - apply negb_true_iff, str_eqb_neq. intros H.
    apply (f_equal (@List.rev N)) in H. rewrite rev_involutive in H. simpl in H.
    apply trimStart_nil in H. rewrite forallb_rev in H.
    apply trimStart_head in H. apply trimStart_nil in H. congruence.
Qed.

Lemma nonblank_nonempty line : nonblank line = true -> is_nonempty line = true.
Proof. destruct line; [discriminate|reflexivity]. Qed.

End StringFacts.

Section SetFacts.

Lemma filter_filter {A} (f g : A -> bool) l :
  List.filter f (List.filter g l) = List.filter (fun x => g x && f x) l.
Proof.
  induction l as [|x l IH]; simpl; [reflexivity|].
  destruct (g x); simpl; [destruct (f x)|]; now rewrite IH.
Qed.

Lemma existsb_str_eqb x s : existsb (str_eqb x) s = true <-> In x s.
Proof.
  rewrite existsb_exists. split.
  - intros [y [Hy E]]. apply str_eqb_eq in E. now subst.
  - intros H. exists x. split; [assumption|apply str_eqb_refl].
Qed.

(** A [Set] built from an array lists the first occurrences, the elements
    already present staying where they are. *)
Lemma fold_set_add l : forall acc,
  fold_left set_add l acc
  = acc ++ List.filter (fun y => negb (existsb (str_eqb y) acc)) (first_occurrences l).
Proof.
  induction l as [|x r IH]; intros acc; simpl.
  - now rewrite app_nil_r.
  - rewrite IH. unfold set_add. rewrite filter_filter.
    destruct (existsb (str_eqb x) acc) eqn:E; simpl.
    + f_equal. apply filter_ext. intros y.
      destruct (str_eqb y x) eqn:Eyx; simpl; [|reflexivity].
      apply str_eqb_eq in Eyx. subst y. now rewrite E.
    + rewrite <- app_assoc. simpl. do 2 f_equal. apply filter_ext. intros y.
      rewrite existsb_app. simpl. rewrite orb_false_r, negb_orb. apply andb_comm.
Qed.

Lemma new_Set_first_occurrences l : new_Set l = first_occurrences l.
Proof.
  unfold new_Set. rewrite fold_set_add. simpl. apply filter_all.
  apply List.Forall_forall. reflexivity.
Qed.

Lemma first_occurrences_In x l : In x (first_occurrences l) <-> In x l.
Proof.
  induction l as [|y r IH]; simpl; [tauto|].
  rewrite filter_In, IH. split.
  - intros [H|[H _]]; auto.
  - intros [H|H]; [now left|].
    destruct (str_eqb x y) eqn:E; [left; symmetry; now apply str_eqb_eq|].
    right. split; [assumption|reflexivity].
Qed.

Lemma first_occurrences_NoDup l : List.NoDup (first_occurrences l).
Proof.
  induction l as [|y r IH]; simpl; constructor.
  - rewrite filter_In. intros [_ H]. now rewrite str_eqb_refl in H.
  - now apply List.NoDup_filter.
Qed.

End SetFacts.


(** ** The fetcher, the aggregator and the admin API *)

Section FetchFacts.

Variable pf : platform.

Lemma fetch_total subUrl : exists entries, fetchSubscriptionNodes pf subUrl = Return entries.
Proof.
  unfold fetchSubscriptionNodes, fetch, atob_arg.
  destruct (startsWith (lit "data:") subUrl).
  - destruct (atob _); simpl; eauto.
  - destruct (pf_fetch pf subUrl) as [|ok st [text|]]; simpl; eauto.
    destruct ok; simpl; eauto. destruct (atob text); simpl; eauto.
    destruct ok; simpl; eauto.
Qed.

Lemma fetched_spec subUrl : fetchSubscriptionNodes pf subUrl = Return (fetched pf subUrl).
Proof.
  unfold fetched. destruct (fetch_total subUrl) as [l ->]. reflexivity.
Qed.

Lemma map_fetch_links refs :
  map_outcome (fetch_link pf) (List.map VStr refs) = Return (List.map (fetched pf) refs).
Proof.
  induction refs as [|u r IH]; simpl; [reflexivity|].
  rewrite fetched_spec, IH. reflexivity.
Qed.

Lemma fetch_remote_text url st text :
  startsWith (lit "data:") url = false ->
  pf_fetch pf url = FetchResponse true st (Some text) ->
  fetchSubscriptionNodes pf url =
    Return (List.filter nonblank
              (split nl (match atob text with Some decoded => decoded | None => text end))).
Proof.
  intros Hd Hf. unfold fetchSubscriptionNodes, fetch, atob_arg.
  rewrite Hd, Hf. simpl. destruct (atob text); reflexivity.
Qed.

Lemma fetch_remote_rejects url :
  startsWith (lit "data:") url = false ->
  pf_fetch pf url = FetchRejects ->
  fetchSubscriptionNodes pf url = Return [].
Proof.
  intros Hd Hf. unfold fetchSubscriptionNodes, fetch. now rewrite Hd, Hf.
Qed.

(** A remote source never contributes a blank line. *)
Lemma remote_entries_nonblank url entry :
  startsWith (lit "data:") url = false ->
  In entry (fetched pf url) -> blank entry = false.
Proof.
  intros Hd. unfold fetched, fetchSubscriptionNodes, fetch, atob_arg. rewrite Hd.
  assert (Hfilter : forall text, In entry (List.filter nonblank (split nl text)) ->
                                 blank entry = false).
  { intros text Hin. apply filter_In in Hin as [_ Hnb].
    rewrite nonblank_not_blank in Hnb. now apply negb_true_iff. }
  destruct (pf_fetch pf url) as [|ok st [text|]]; simpl; try tauto.
  - destruct ok; simpl; [|tauto]. destruct (atob text); simpl; apply Hfilter.
  - destruct ok; simpl; tauto.
Qed.

End FetchFacts.

Section AggregationFacts.

Lemma JSON_parse_empty : JSON_parse [] = None.
Proof. reflexivity. Qed.

Lemma present_parsed stored v : JSON_parse stored = Some v -> present (Some stored) = Some stored.
Proof. destruct stored; [discriminate|reflexivity]. Qed.

Lemma latin1_app a b : latin1 (a ++ b) = latin1 a && latin1 b.
Proof. apply forallb_app. Qed.

Lemma latin1_join l :
  List.Forall (fun e => latin1 e = true) l -> latin1 (join [nl] l) = true.
Proof.
  induction 1 as [|x r Hx Hr IH]; [reflexivity|].
  destruct r as [|y r]; [exact Hx|].
  change (join [nl] (x :: y :: r)) with (x ++ [nl] ++ join [nl] (y :: r)).
  rewrite !latin1_app, Hx, IH. reflexivity.
Qed.

Lemma join_split sep s : join [sep] (split sep s) = s.
Proof.
  induction s as [|c r IH]; [reflexivity|]. simpl.
  pose proof (split_nonempty sep r) as Hne.
  destruct (N.eqb_spec c sep) as [->|_].
  - destruct (split sep r) as [|h t]; [congruence|].
    change (join [sep] ([] :: h :: t)) with ([] ++ [sep] ++ join [sep] (h :: t)).
    now rewrite IH.
  - destruct (split sep r) as [|h t]; [congruence|].
    destruct t as [|h' t]; simpl in *; now rewrite <- IH.
Qed.

Lemma first_occurrences_NoDup_id l : List.NoDup l -> first_occurrences l = l.
Proof.
  induction 1 as [|x r Hx _ IH]; simpl; [reflexivity|].
  rewrite IH. f_equal. apply filter_all. apply List.Forall_forall.
  intros y Hy. apply negb_true_iff, str_eqb_neq. congruence.
Qed.

(** What stands before an entry in the output is the output of what stands
    before its first occurrence in the input. *)
Lemma first_occurrences_prefix p x q :
  ~ In x p ->
  exists t, first_occurrences (p ++ x :: q) = first_occurrences p ++ x :: t.
Proof.
  intros Hx. rewrite <- !new_Set_first_occurrences. unfold new_Set.
  rewrite fold_left_app. simpl.
  change (fold_left set_add p []) with (new_Set p).
  unfold set_add at 2.
  replace (existsb (str_eqb x) (new_Set p)) with false.
  - rewrite fold_set_add, <- app_assoc. simpl. eauto.
  - symmetry. apply not_true_is_false. rewrite existsb_str_eqb.
    now rewrite new_Set_first_occurrences, first_occurrences_In.
Qed.

Variable pf : platform.
Variable kv : gmap jsstring jsstring.

(** The response for a stored group whose links are the strings [refs]. *)
Lemma handleSubscription_links groupId stored groupData links refs :
  groupId <> [] ->
  kv_get kv (SUBS_GROUP ++ groupId) = Some stored ->
  JSON_parse stored = Some groupData ->
  get_prop groupData (lit "links") = Return links ->
  or_else links (VArr []) = VArr (List.map VStr refs) ->
  handleSubscription pf kv groupId =
    match btoa (join [nl] (first_occurrences
                  (List.filter is_nonempty (List.concat (List.map (fetched pf) refs))))) with
    | Some encoded => {| status := 200; body := encoded; headers := no_cache_headers |}
    | None => {| status := 500;
                 body := lit "// Error processing group: " ++ pf_message pf InvalidCharacterError;
                 headers := [] |}
    end.
Proof.
  intros Hid Hkv Hparse Hlinks Hor. unfold handleSubscription.
  destruct groupId as [|g gs]; [congruence|]. cbn [is_nonempty negb].
  rewrite Hkv, (present_parsed _ _ Hparse).
  unfold parse. rewrite Hparse. cbn [of_option bind]. rewrite Hlinks. cbn [bind].
  rewrite Hor. cbn [bind]. rewrite map_fetch_links. cbn [bind].
  rewrite new_Set_first_occurrences. unfold btoa_or_throw.
  destruct (btoa _); reflexivity.
Qed.

End AggregationFacts.

Section DataReferenceFacts.

Lemma split_first s : nth_error (split comma s) 0 = Some (until_comma s).
Proof.
  induction s as [|c r IH]; simpl; [reflexivity|].
  destruct (c =? comma); [reflexivity|].
  destruct (split comma r) as [|h t]; simpl in *; congruence.
Qed.

Lemma split_second s :
  nth_error (split comma s) 1 =
    if has_comma s then Some (until_comma (after_first_comma s)) else None.
Proof.
  induction s as [|c r IH]; simpl; [reflexivity|].
  destruct (c =? comma); simpl.
  - apply split_first.
  - pose proof (split_nonempty comma r) as Hne.
    destruct (split comma r) as [|h t]; [congruence|]. exact IH.
Qed.

Lemma until_comma_whole s : has_comma s = false -> until_comma s = s.
Proof.
  induction s as [|c r IH]; simpl; [reflexivity|].
  destruct (c =? comma); simpl; [discriminate|].
  intros H. now rewrite IH.
Qed.

End DataReferenceFacts.

Section AdminFacts.

Lemma has_own_delete_own k props : has_own k (delete_own k props) = false.
Proof.
  induction props as [|[k' v] r IH]; simpl; [reflexivity|].
  destruct (str_eqb k k') eqn:E; simpl; [exact IH|]. now rewrite E, IH.
Qed.

Lemma checkAuth_status kv req message st :
  checkAuth kv req = Return (AuthFail message st) -> st <> 200.
Proof.
  unfold checkAuth.
  destruct (match present (kv_get kv CONFIG) with
            | Some s => parse s
            | None => Return (VObj [])
            end) as [config|e]; cbn [bind]; [|discriminate].
  destruct (get_prop config (lit "password")) as [saved|e]; cbn [bind]; [|discriminate].
  destruct (negb (truthy saved)).
  - destruct (_ || _); intros [= <- <-] || discriminate; discriminate.
  - destruct (present (req_authorization req)) as [authHeader|].
    + destruct (negb (startsWith _ _)); [intros [= <- <-]; discriminate|].
      destruct (negb (strict_eq _ _)); [intros [= <- <-]; discriminate|discriminate].
    + intros [= <- <-]; discriminate.
Qed.

(** What a successful [getConfig] answers, for a namespace whose CONFIG text
    parses to [config]. *)
Lemma getConfig_response pf kv req stored config r kv' :
  kv_get kv CONFIG = Some stored ->
  JSON_parse stored = Some config ->
  handleAdminApi pf kv req (lit "getConfig") = Return (r, kv') ->
  status r = 200 ->
  r = json_response 200
        (VObj [ (lit "success", VBool true);
                (lit "data", without_password config);
                (lit "isConfigured", VBool true) ])
  /\ kv' = kv.
Proof.
  intros Hkv Hparse. unfold handleAdminApi.
  destruct (checkAuth kv req) as [[|message st]|e] eqn:Hauth; cbn [bind]; [| |discriminate].
  - destruct (if str_eqb (req_method req) (lit "POST") then _ else _) as [body|].
    + rewrite Hkv, (present_parsed _ _ Hparse). unfold parse. rewrite Hparse.
      cbn [of_option bind].
      change (str_eqb (lit "getConfig") (lit "login")) with false.
      change (str_eqb (lit "getConfig") (lit "saveConfig")) with false.
      change (str_eqb (lit "getConfig") (lit "getConfig")) with true.
      cbv iota.
      destruct config; cbn [bind without_password]; try discriminate;
        intros [= <- <-] _; split; reflexivity.
    + intros [= <- <-]. discriminate.
  - intros [= <- <-] Hst. exfalso. apply (checkAuth_status _ _ _ _ Hauth). exact Hst.
Qed.

End AdminFacts.

Section ImporterFacts.

Lemma Return_inj {A} (a b : A) : Return a = Return b -> a = b.
Proof. congruence. Qed.

Lemma get_prop_opt v k x : get_prop v k = Return x -> x = opt_prop v k.
Proof. destruct v; simpl; congruence. Qed.

Lemma bind_Return {A B} (c : outcome A) (k : A -> outcome B) (b : B) :
  bind c k = Return b -> exists a, c = Return a /\ k a = Return b.
Proof. destruct c as [a|e]; simpl; [eauto|discriminate]. Qed.

Ltac step_bind H :=
  match type of H with
  | bind ?c _ = Return _ =>
      let a := fresh "a" in
      let E := fresh "E" in
      apply bind_Return in H as (a & E & H)
  end.

Lemma btoa_or_throw_Return s b : btoa_or_throw s = Return b -> btoa s = Some b.
Proof. unfold btoa_or_throw. destruct (btoa s); simpl; congruence. Qed.

(** Every vmess link is the scheme marker followed by the base64 encoding of
    the JSON text of a descriptor that carries the address, the port and the
    first user's id of the endpoint. *)
Lemma vmess_link_descriptor outbound remark server link :
  vmess_link outbound remark server = Return link ->
  exists users user0 descriptor payload,
    get_prop server (lit "users") = Return users
    /\ get_index0 users = Return user0
    /\ link = lit "vmess://" ++ payload
    /\ atob payload = Some (JSON_stringify (VObj descriptor))
    /\ lookup_own (lit "add") descriptor = opt_prop server (lit "address")
    /\ lookup_own (lit "port") descriptor = opt_prop server (lit "port")
    /\ lookup_own (lit "id") descriptor = opt_prop user0 (lit "id").
Proof.
  unfold vmess_link. intros H. repeat step_bind H.
  apply Return_inj in H. subst link.
  match goal with
  | Hb : btoa_or_throw _ = Return _ |- _ =>
      apply btoa_or_throw_Return, atob_btoa in Hb; rename Hb into Hatob
  end.
  match goal with
  | Hu : get_prop server (lit "users") = Return ?users,
    H0 : get_index0 ?users = Return ?user0,
    Hid : get_prop ?user0 (lit "id") = Return ?id,
    Hadd : get_prop server (lit "address") = Return ?address,
    Hport : get_prop server (lit "port") = Return ?port |- _ =>
      apply get_prop_opt in Hid, Hadd, Hport; subst id address port;
      exists users, user0
  end.
  do 2 eexists. split; [first [assumption|reflexivity]|]. split; [assumption|].
  split; [reflexivity|]. split; [exact Hatob|].
  split; [|split]; vm_compute; reflexivity.
Qed.

Lemma to_strings_cons k v r pairs :
  to_strings ((k, v) :: r) = Return pairs ->
  exists sv t, ToString v = Return sv /\ to_strings r = Return t /\ pairs = (k, sv) :: t.
Proof.
  cbn [to_strings]. intros H.
  apply bind_Return in H as (sv & Hsv & H). apply bind_Return in H as (t & Ht & H).
  apply Return_inj in H. eauto.
Qed.

(** The shape of a vless link: the six query fields in order, each passed
    through the form encoding of the serializer; the path has been through
    [encodeURIComponent] before. *)
Lemma vless_link_shape outbound remark server link :
  vless_link outbound remark server = Return link ->
  exists streamSettings users user0 id address port type security path host flow encryption name,
    get_prop outbound (lit "streamSettings") = Return streamSettings
    /\ get_prop server (lit "users") = Return users
    /\ get_index0 users = Return user0
    /\ encodeURIComponent
         (or_else (opt_prop (opt_prop streamSettings (lit "wsSettings")) (lit "path")) (VStr []))
       = Return path
    /\ ToString (or_else (opt_prop streamSettings (lit "network")) (VStr (lit "tcp"))) = Return type
    /\ ToString (or_else (opt_prop streamSettings (lit "security")) (VStr (lit "none")))
       = Return security
    /\ ToString (or_else (opt_prop user0 (lit "encryption")) (VStr (lit "none")))
       = Return encryption
    /\ ToString (or_else (opt_prop user0 (lit "flow")) (VStr [])) = Return flow
    /\ ToString (opt_prop user0 (lit "id")) = Return id
    /\ ToString (opt_prop server (lit "address")) = Return address
    /\ ToString (opt_prop server (lit "port")) = Return port
    /\ encodeURIComponent (or_else (opt_prop server (lit "remark")) remark) = Return name
    /\ link = lit "vless://" ++ id ++ lit "@" ++ address ++ lit ":" ++ port
              ++ lit "?" ++ join (lit "&")
                   [ form_encode (lit "type") ++ lit "=" ++ form_encode type;
                     form_encode (lit "security") ++ lit "=" ++ form_encode security;
                     form_encode (lit "path") ++ lit "=" ++ form_encode path;
                     form_encode (lit "host") ++ lit "=" ++ form_encode host;
                     form_encode (lit "flow") ++ lit "=" ++ form_encode flow;
                     form_encode (lit "encryption") ++ lit "=" ++ form_encode encryption ]
              ++ lit "#" ++ name.
Proof.
  unfold vless_link. intros H.
  apply bind_Return in H as (streamSettings & Hstream & H).
  apply bind_Return in H as (path & Hpath & H).
  apply bind_Return in H as (users & Husers & H).
  apply bind_Return in H as (user0 & Huser0 & H).
  apply bind_Return in H as (flowv & Hflow & H).
  apply bind_Return in H as (encryptionv & Hencryption & H).
  apply bind_Return in H as (params & Hparams & H).
  apply bind_Return in H as (idv & Hidv & H).
  apply bind_Return in H as (id & Hid & H).
  apply bind_Return in H as (addressv & Haddressv & H).
  apply bind_Return in H as (address & Haddress & H).
  apply bind_Return in H as (portv & Hportv & H).
  apply bind_Return in H as (port & Hport & H).
  apply bind_Return in H as (remarkv & Hremarkv & H).
  apply bind_Return in H as (name & Hname & H).
  apply Return_inj in H. subst link.
  unfold URLSearchParams_toString in Hparams.
  apply bind_Return in Hparams as (pairs & Hpairs & Hparams).
  apply Return_inj in Hparams. subst params.
  apply to_strings_cons in Hpairs as (type & p1 & Htype & Hpairs & ->).
  apply to_strings_cons in Hpairs as (security & p2 & Hsecurity & Hpairs & ->).
  apply to_strings_cons in Hpairs as (path' & p3 & Hpath' & Hpairs & ->).
  apply to_strings_cons in Hpairs as (host & p4 & Hhost & Hpairs & ->).
  apply to_strings_cons in Hpairs as (flow & p5 & Hflow' & Hpairs & ->).
  apply to_strings_cons in Hpairs as (encryption & p6 & Hencryption' & Hpairs & ->).
  apply Return_inj in Hpairs. subst p6.
  apply Return_inj in Hpath'. subst path'.
  apply get_prop_opt in Hflow, Hencryption, Hidv, Haddressv, Hportv, Hremarkv. subst.
  exists streamSettings, users, user0, id, address, port, type, security, path, host,
    flow, encryption, name.
  repeat (split; [assumption|]). reflexivity.
Qed.

End ImporterFacts.

(** ** Worked examples *)

Section Examples.

Example btoa_lines : btoa (lit "A" ++ [nl] ++ lit "B") = Some (lit "QQpC").
Proof. reflexivity. Qed.

Example atob_without_padding : atob (lit "QQ") = Some (lit "A").
Proof. reflexivity. Qed.

Example atob_rejects_comma : atob (lit "QQ==,Qg==") = None.
Proof. reflexivity. Qed.

Example atob_of_undefined : atob (lit "undefined") = None.
Proof. reflexivity. Qed.

Example parse_orders_keys :
  JSON_parse (dq "{ 'name': 'g', 'links' : ['a', 'b\nA'], 'n': -12, '1': true }")
  = Some (VObj [(lit "1", VBool true); (lit "name", VStr (lit "g"));
                (lit "links", VArr [VStr (lit "a"); VStr [98; 10; 65]]);
                (lit "n", VNum (-12))]).
Proof. vm_compute. reflexivity. Qed.

Example stringify_skips_undefined :
  JSON_stringify (VObj [(lit "name", VStr (lit "g")); (lit "x", VUndefined);
                        (lit "links", VArr [VStr [98; 10; 65]; VUndefined]);
                        (lit "n", VNum (-12))])
  = dq "{'name':'g','links':['b\nA',null],'n':-12}".
Proof. vm_compute. reflexivity. Qed.

(** The embedded reference of the specification's scenario: the payload is
    the text A, B, A on three lines and the output decodes to A, B. *)
Example duplicate_lines_scenario :
  let ref := lit "data:text/plain;base64,QQpCCkE=" in
  let response := handleSubscription offline (store_with_group [ref]) (lit "g1") in
  status response = 200
  /\ atob (body response) = Some (lit "A" ++ [nl] ++ lit "B").
Proof. vm_compute. split; reflexivity. Qed.

(** An entry with a code unit above 255 makes [btoa] throw: the handler
    answers 500. *)
Example entry_outside_latin1 :
  let pf := platform_with (network ([33410; 28857] ++ lit " 1") []) in
  fetchSubscriptionNodes pf up_url = Return [[33410; 28857] ++ lit " 1"]
  /\ status (handleSubscription pf (store_with_group [up_url]) (lit "g1")) = 500.
Proof. vm_compute. split; reflexivity. Qed.

(** The router: the default paths, a subscription request and a request the
    worker does not serve. *)
Example route_subscription :
  fst <$> (match onRequest offline (store_with_group [])
                   {| req_pathname := lit "/sub/g1"; req_method := lit "GET";
                      req_authorization := None; req_body := [] |} with
           | Return r => Some r
           | Throw _ => None
           end)
  = Some {| status := 200; body := []; headers := no_cache_headers |}.
Proof. vm_compute. reflexivity. Qed.

Example route_not_found :
  fst <$> (match onRequest offline (store_with_group [])
                   {| req_pathname := lit "/sub"; req_method := lit "GET";
                      req_authorization := None; req_body := [] |} with
           | Return r => Some r
           | Throw _ => None
           end)
  = Some {| status := 404; body := lit "Not Found"; headers := [] |}.
Proof. vm_compute. reflexivity. Qed.

(** First configuration, then a group saved and read back by the
    subscription handler. *)
Example save_then_subscribe :
  let setup :=
    {| req_pathname := lit "/admin/api/saveConfig"; req_method := lit "POST";
       req_authorization := None;
       req_body := dq "{'password':'pw','subPath':'sub','adminPath':'admin'}" |} in
  let save :=
    {| req_pathname := lit "/admin/api/saveGroup"; req_method := lit "POST";
       req_authorization := Some (lit "Bearer pw");
       req_body := dq "{'id':'g9','name':'n','links':['data:,QQ==']}" |} in
  match handleAdminApi offline ∅ setup (lit "saveConfig") with
  | Return (r1, kv1) =>
      match handleAdminApi offline kv1 save (lit "saveGroup") with
      | Return (r2, kv2) =>
          status r1 = 200 /\ status r2 = 200
          /\ kv_get kv2 CONFIG = Some (config_text (lit "pw"))
          /\ handleSubscription offline kv2 (lit "g9")
             = {| status := 200; body := lit "QQ=="; headers := no_cache_headers |}
      | Throw _ => False
      end
  | Throw _ => False
  end.
Proof. vm_compute. repeat split. Qed.

End Examples.

(** * The claims *)

(** ** C1: the aggregation output *)

(** C1, as stated, fails: a reference may contribute an empty entry, and the
    aggregation drops it.  The embedded reference below decodes to the three
    entries A, the empty string and B; the claim asks for the encoding of
    these three joined by newlines, the output is the encoding of A and B. *)
Lemma empty_entry_is_dropped :
  let ref := lit "data:text/plain;base64,QQoKQg==" in
  let response := handleSubscription offline (store_with_group [ref]) (lit "g1") in
  fetched offline ref = [lit "A"; []; lit "B"]
  /\ btoa (join [nl] (first_occurrences (List.concat (List.map (fetched offline) [ref]))))
     = Some (lit "QQoKQg==")
  /\ status response = 200
  /\ body response = lit "QQpC"
  /\ Some (body response)
     <> btoa (join [nl] (first_occurrences (List.concat (List.map (fetched offline) [ref])))).
Proof. vm_compute. repeat split; discriminate. Qed.

(** C1 (amended): for every stored group whose links are strings, and whose
    non-empty fetched entries hold code units up to 255 only, the response is
    a 200 whose body is the base64 encoding of the newline-join of the
    non-empty fetched entries, each distinct one exactly once and in the
    order of its first occurrence in the concatenation of the per-reference
    results. *)
Theorem aggregation_output
    (pf : platform) (kv : gmap jsstring jsstring)
    (groupId stored : jsstring) (groupData links : value) (refs : list jsstring) :
  groupId <> [] ->
  kv_get kv (SUBS_GROUP ++ groupId) = Some stored ->
  JSON_parse stored = Some groupData ->
  get_prop groupData (lit "links") = Return links ->
  or_else links (VArr []) = VArr (List.map VStr refs) ->
  let fetched_entries := List.concat (List.map (fetched pf) refs) in
  let entries := List.filter is_nonempty fetched_entries in
  List.Forall (fun e => latin1 e = true) entries ->
  exists encoded,
    handleSubscription pf kv groupId
      = {| status := 200; body := encoded; headers := no_cache_headers |}
    /\ btoa (join [nl] (first_occurrences entries)) = Some encoded
    /\ List.NoDup (first_occurrences entries)
    /\ (forall e, In e (first_occurrences entries) <-> In e fetched_entries /\ e <> [])
    /\ (forall p e q, entries = p ++ e :: q -> ~ In e p ->
          exists t, first_occurrences entries = first_occurrences p ++ e :: t).
Proof.
  intros Hid Hkv Hparse Hlinks Hor fetched_entries entries Hlatin.
  assert (Hl : latin1 (join [nl] (first_occurrences entries)) = true).
  { apply latin1_join. rewrite List.Forall_forall in *. intros e He.
    apply Hlatin. now apply first_occurrences_In. }
  destruct (btoa_latin1 _ Hl) as [encoded Hb]. exists encoded.
  split; [|split; [exact Hb|split; [apply first_occurrences_NoDup|split]]].
  - rewrite (handleSubscription_links pf kv _ _ _ _ _ Hid Hkv Hparse Hlinks Hor).
    fold fetched_entries. fold entries. now rewrite Hb.
  - intros e. rewrite first_occurrences_In. unfold entries. rewrite filter_In.
    destruct e; simpl; intuition congruence.
  - intros p e q -> Hp. now apply first_occurrences_prefix.
Qed.

Lemma aggregation_output_witness :
  let pf := platform_with (network (lit "B!") []) in
  let refs := [lit "data:text/plain;base64,QQpCIQpB"; up_url] in
  exists encoded,
    handleSubscription pf (store_with_group refs) (lit "g1")
      = {| status := 200; body := encoded; headers := no_cache_headers |}
    /\ btoa (join [nl] [lit "A"; lit "B!"]) = Some encoded.
Proof.
  destruct (aggregation_output
              (platform_with (network (lit "B!") []))
              (store_with_group [lit "data:text/plain;base64,QQpCIQpB"; up_url])
              (lit "g1")
              (group_text [lit "data:text/plain;base64,QQpCIQpB"; up_url])
              (VObj [(lit "name", VStr (lit "demo"));
                     (lit "links", VArr [VStr (lit "data:text/plain;base64,QQpCIQpB");
                                         VStr up_url])])
              (VArr [VStr (lit "data:text/plain;base64,QQpCIQpB"); VStr up_url])
              [lit "data:text/plain;base64,QQpCIQpB"; up_url])
    as [encoded [H1 [H2 _]]].
  - discriminate.
  - vm_compute. reflexivity.
  - vm_compute. reflexivity.
  - vm_compute. reflexivity.
  - vm_compute. reflexivity.
  - vm_compute. repeat constructor.
  - exists encoded. split; [exact H1|exact H2].
Defined.

(** ** C2: blank lines *)

(** C2 fails on the code: an embedded reference is split on newlines without
    the blank-line filter the remote branch applies, and the aggregation only
    removes empty strings.  The group below holds one embedded reference
    whose payload is a single space; the output decodes to that space. *)
Theorem blank_line_from_data_reference :
  let ref := lit "data:text/plain;base64,IA==" in
  let response := handleSubscription offline (store_with_group [ref]) (lit "g1") in
  fetchSubscriptionNodes offline ref = Return [lit " "]
  /\ response = {| status := 200; body := lit "IA=="; headers := no_cache_headers |}
  /\ atob (body response) = Some (lit " ")
  /\ blank (lit " ") = true.
Proof. vm_compute. repeat split. Qed.

(** ** C3: plain and encoded sources *)

(** C3, as stated, fails: a plain body that is itself well-formed base64 is
    decoded.  The source at [up_url] answers the plain text abcd, the one at
    [mirror_url] its base64 encoding; they contribute different entries. *)
Lemma base64_shaped_text_is_decoded :
  let pf := platform_with (network (lit "abcd") (lit "YWJjZA==")) in
  btoa (lit "abcd") = Some (lit "YWJjZA==")
  /\ fetchSubscriptionNodes pf up_url = Return [[105; 183; 29]]
  /\ fetchSubscriptionNodes pf mirror_url = Return [lit "abcd"]
  /\ fetchSubscriptionNodes pf up_url <> fetchSubscriptionNodes pf mirror_url.
Proof. vm_compute. repeat split; discriminate. Qed.

(** C3 (amended): when one remote source answers a text that the base64
    decoder rejects, and another answers the base64 encoding of that text,
    both contribute the same entries: the non-blank lines of the text. *)
Theorem plain_and_encoded_sources_agree
    (pf : platform) (plainUrl encodedUrl text encoded : jsstring) (st st' : N) :
  startsWith (lit "data:") plainUrl = false ->
  startsWith (lit "data:") encodedUrl = false ->
  pf_fetch pf plainUrl = FetchResponse true st (Some text) ->
  pf_fetch pf encodedUrl = FetchResponse true st' (Some encoded) ->
  btoa text = Some encoded ->
  atob text = None ->
  fetchSubscriptionNodes pf plainUrl = fetchSubscriptionNodes pf encodedUrl
  /\ fetchSubscriptionNodes pf plainUrl = Return (List.filter nonblank (split nl text)).
Proof.
  intros Hp He Fp Fe Hb Ha.
  rewrite (fetch_remote_text pf _ _ _ Hp Fp), (fetch_remote_text pf _ _ _ He Fe).
  rewrite Ha, (atob_btoa _ _ Hb). split; reflexivity.
Qed.

Lemma plain_and_encoded_sources_agree_witness :
  let pf := platform_with (network (lit "ss://a#1") (lit "c3M6Ly9hIzE=")) in
  fetchSubscriptionNodes pf up_url = fetchSubscriptionNodes pf mirror_url
  /\ fetchSubscriptionNodes pf up_url = Return [lit "ss://a#1"].
Proof.
  apply (plain_and_encoded_sources_agree
           (platform_with (network (lit "ss://a#1") (lit "c3M6Ly9hIzE=")))
           up_url mirror_url (lit "ss://a#1") (lit "c3M6Ly9hIzE=") 200 200);
    vm_compute; reflexivity.
Defined.

(** ** C4: the fetcher never raises *)

(** C4: for every platform and every link reference the fetch returns a
    sequence of entries; it is the empty sequence when the payload of an
    embedded reference does not decode, when the request is rejected
    (network exception), when the status is not a success, and when reading
    the body fails. *)
Theorem fetch_never_raises (pf : platform) (subUrl : jsstring) :
  (exists entries, fetchSubscriptionNodes pf subUrl = Return entries)
  /\ (startsWith (lit "data:") subUrl = true ->
      atob (match nth_error (split comma subUrl) 1 with
            | Some payload => payload
            | None => lit "undefined"
            end) = None ->
      fetchSubscriptionNodes pf subUrl = Return [])
  /\ (startsWith (lit "data:") subUrl = false ->
      pf_fetch pf subUrl = FetchRejects
      \/ (exists st text, pf_fetch pf subUrl = FetchResponse false st text)
      \/ (exists ok st, pf_fetch pf subUrl = FetchResponse ok st None) ->
      fetchSubscriptionNodes pf subUrl = Return []).
Proof.
  split; [apply fetch_total|]. split.
  - intros Hd Ha. unfold fetchSubscriptionNodes, atob_arg. rewrite Hd, Ha. reflexivity.
  - intros Hd H. unfold fetchSubscriptionNodes, fetch. rewrite Hd.
    destruct H as [->|[(st & text & ->)|(ok & st & ->)]]; simpl; try reflexivity.
    destruct ok; reflexivity.
Qed.

Lemma fetch_never_raises_witness :
  fetchSubscriptionNodes offline (lit "data:text/plain;base64,@@@") = Return []
  /\ fetchSubscriptionNodes offline down_url = Return [].
Proof.
  split.
  - apply (proj1 (proj2 (fetch_never_raises offline (lit "data:text/plain;base64,@@@"))));
      vm_compute; reflexivity.
  - apply (proj2 (proj2 (fetch_never_raises offline down_url)));
      [vm_compute; reflexivity | left; reflexivity].
Defined.

(** ** C5: a missing group is not an empty group *)

(** C5: a request for a group that is not in the store is never answered
    with a 200, and for every group id the router can pass (a non-empty path
    segment) it is answered with the 404 not-found response; a stored group
    whose list of links is empty is answered with a 200 and the empty
    encoded output. *)
Theorem missing_group_is_not_found
    (pf : platform) (kv : gmap jsstring jsstring) (groupId : jsstring) :
  (kv_get kv (SUBS_GROUP ++ groupId) = None ->
     status (handleSubscription pf kv groupId) <> 200
     /\ (groupId <> [] ->
         handleSubscription pf kv groupId
         = {| status := 404;
              body := lit "// Group not found or has no subscriptions.";
              headers := [(lit "Content-Type", lit "text/plain; charset=utf-8")] |}))
  /\ (forall stored groupData,
        groupId <> [] ->
        kv_get kv (SUBS_GROUP ++ groupId) = Some stored ->
        JSON_parse stored = Some groupData ->
        get_prop groupData (lit "links") = Return (VArr []) ->
        handleSubscription pf kv groupId
        = {| status := 200; body := []; headers := no_cache_headers |}).
Proof.
  split.
  - intros Hkv. unfold handleSubscription. rewrite Hkv.
    destruct groupId as [|g gs]; cbn [is_nonempty negb present status].
    + split; [discriminate|congruence].
    + split; [discriminate|reflexivity].
  - intros stored groupData Hid Hkv Hparse Hlinks.
    now rewrite (handleSubscription_links pf kv _ _ _ _ [] Hid Hkv Hparse Hlinks eq_refl).
Qed.

Lemma missing_group_is_not_found_witness :
  status (handleSubscription offline (store_with_group []) (lit "g2")) = 404
  /\ handleSubscription offline (store_with_group []) (lit "g1")
     = {| status := 200; body := []; headers := no_cache_headers |}.
Proof.
  split.
  - rewrite (proj2 (proj1 (missing_group_is_not_found
                             offline (store_with_group []) (lit "g2")) eq_refl)).
    + reflexivity.
    + discriminate.
  - apply (proj2 (missing_group_is_not_found offline (store_with_group []) (lit "g1"))
             (group_text [])
             (VObj [(lit "name", VStr (lit "demo")); (lit "links", VArr [])])).
    + discriminate.
    + vm_compute. reflexivity.
    + vm_compute. reflexivity.
    + reflexivity.
Defined.

(** ** C6: one failing link, one answering link *)

(** C6, as stated, fails: the body X, newline, Y is accepted by the
    whole-body base64 attempt (the newline is skipped and XY decodes to one
    octet), so the answering source contributes the single entry "]" and the
    output decodes to it. *)
Lemma two_letter_lines_are_decoded :
  let pf := platform_with (network X_Y []) in
  let response := handleSubscription pf (store_with_group [down_url; up_url]) (lit "g1") in
  pf_fetch pf down_url = FetchRejects
  /\ pf_fetch pf up_url = FetchResponse true 200 (Some X_Y)
  /\ response = {| status := 200; body := lit "XQ=="; headers := no_cache_headers |}
  /\ atob (body response) = Some (lit "]")
  /\ atob (body response) <> Some X_Y.
Proof. vm_compute. repeat split; discriminate. Qed.

(** C6 (amended): for a group with exactly two link references, one whose
    fetch fails with a network error and one whose remote source answers a
    text that the base64 decoder rejects, made of distinct non-blank lines
    of code units up to 255, the aggregation output base64-decodes to
    exactly that text. *)
Theorem failed_link_contributes_nothing
    (pf : platform) (kv : gmap jsstring jsstring)
    (groupId stored : jsstring) (groupData : value)
    (down up text : jsstring) (st : N) :
  groupId <> [] ->
  kv_get kv (SUBS_GROUP ++ groupId) = Some stored ->
  JSON_parse stored = Some groupData ->
  get_prop groupData (lit "links") = Return (VArr [VStr down; VStr up])
  \/ get_prop groupData (lit "links") = Return (VArr [VStr up; VStr down]) ->
  startsWith (lit "data:") down = false ->
  startsWith (lit "data:") up = false ->
  pf_fetch pf down = FetchRejects ->
  pf_fetch pf up = FetchResponse true st (Some text) ->
  atob text = None ->
  latin1 text = true ->
  List.Forall (fun line => blank line = false) (split nl text) ->
  List.NoDup (split nl text) ->
  exists encoded,
    handleSubscription pf kv groupId
      = {| status := 200; body := encoded; headers := no_cache_headers |}
    /\ atob encoded = Some text.
Proof.
  intros Hid Hkv Hparse Hlinks Hd Hu Fd Fu Ha Hl Hlines Hdistinct.
  assert (Eup : fetched pf up = split nl text).
  { unfold fetched. rewrite (fetch_remote_text pf _ _ _ Hu Fu), Ha.
    apply filter_all. eapply List.Forall_impl; [|exact Hlines].
    intros line Hb. rewrite nonblank_not_blank, Hb. reflexivity. }
  assert (Edown : fetched pf down = []).
  { unfold fetched. now rewrite (fetch_remote_rejects pf _ Hd Fd). }
  assert (Hne : List.filter is_nonempty (split nl text) = split nl text).
  { apply filter_all. eapply List.Forall_impl; [|exact Hlines].
    intros [|c r]; [discriminate|reflexivity]. }
  destruct (btoa_latin1 _ Hl) as [encoded Hb]. exists encoded.
  split; [|now apply atob_btoa].
  assert (Hres : forall refs,
    List.concat (List.map (fetched pf) refs) = split nl text ->
    match btoa (join [nl] (first_occurrences
                  (List.filter is_nonempty (List.concat (List.map (fetched pf) refs))))) with
    | Some encoded => {| status := 200; body := encoded; headers := no_cache_headers |}
    | None => {| status := 500;
                 body := lit "// Error processing group: " ++ pf_message pf InvalidCharacterError;
                 headers := [] |}
    end = {| status := 200; body := encoded; headers := no_cache_headers |}).
  { intros refs ->. now rewrite Hne, first_occurrences_NoDup_id, join_split, Hb. }
  destruct Hlinks as [Hlinks|Hlinks].
  - rewrite (handleSubscription_links pf kv _ _ _ _ [down; up] Hid Hkv Hparse Hlinks eq_refl).
    apply Hres. simpl. now rewrite Edown, Eup, app_nil_r.
  - rewrite (handleSubscription_links pf kv _ _ _ _ [up; down] Hid Hkv Hparse Hlinks eq_refl).
    apply Hres. simpl. now rewrite Edown, Eup, !app_nil_r.
Qed.

Lemma failed_link_contributes_nothing_witness :
  let text := lit "ss://x" ++ [nl] ++ lit "ss://y" in
  let pf := platform_with (network text []) in
  exists encoded,
    handleSubscription pf (store_with_group [down_url; up_url]) (lit "g1")
      = {| status := 200; body := encoded; headers := no_cache_headers |}
    /\ atob encoded = Some text.
Proof.
  apply (failed_link_contributes_nothing
           (platform_with (network (lit "ss://x" ++ [nl] ++ lit "ss://y") []))
           (store_with_group [down_url; up_url]) (lit "g1")
           (group_text [down_url; up_url])
           (VObj [(lit "name", VStr (lit "demo"));
                  (lit "links", VArr [VStr down_url; VStr up_url])])
           down_url up_url (lit "ss://x" ++ [nl] ++ lit "ss://y") 200).
  - discriminate.
  - vm_compute. reflexivity.
  - vm_compute. reflexivity.
  - left. reflexivity.
  - vm_compute. reflexivity.
  - vm_compute. reflexivity.
  - vm_compute. reflexivity.
  - vm_compute. reflexivity.
  - vm_compute. reflexivity.
  - vm_compute. reflexivity.
  - vm_compute. repeat constructor.
  - vm_compute. repeat constructor; simpl; intuition discriminate.
Defined.

(** ** C7: importing a vmess outbound *)

(** The scenario of the specification: the configuration with one vmess
    outbound and one endpoint (address h, port 443, user id u1) and nothing
    else imports as exactly one link; it starts with vmess:// and the rest
    decodes from base64 to a JSON text whose value has add = "h", port = 443
    and id = "u1". *)
Theorem vmess_import_scenario :
  exists payload text descriptor,
    parseXrayConfig vmess_config = [lit "vmess://" ++ payload]
    /\ atob payload = Some text
    /\ JSON_parse text = Some descriptor
    /\ opt_prop descriptor (lit "add") = VStr (lit "h")
    /\ opt_prop descriptor (lit "port") = VNum 443
    /\ opt_prop descriptor (lit "id") = VStr (lit "u1").
Proof.
  exists (lit "eyJ2IjoiMiIsInBzIjoiaW1wb3J0ZWQtbm9kZSIsImFkZCI6ImgiLCJwb3J0Ijo0NDMsImlkIjoidTEiLCJuZXQiOiJ0Y3AiLCJ0eXBlIjoibm9uZSIsImhvc3QiOiIiLCJwYXRoIjoiIiwidGxzIjoiIn0=").
  exists (dq "{'v':'2','ps':'imported-node','add':'h','port':443,'id':'u1','net':'tcp','type':'none','host':'','path':'','tls':''}").
  exists (VObj [ (lit "v", VStr (lit "2")); (lit "ps", VStr (lit "imported-node"));
                 (lit "add", VStr (lit "h")); (lit "port", VNum 443);
                 (lit "id", VStr (lit "u1")); (lit "net", VStr (lit "tcp"));
                 (lit "type", VStr (lit "none")); (lit "host", VStr []);
                 (lit "path", VStr []); (lit "tls", VStr []) ]).
  vm_compute. repeat split.
Qed.

(** C7, as stated for every configuration whose outbounds contain exactly
    one vmess outbound, fails: the importer converts the vless outbounds as
    well.  The configuration below holds exactly one vmess outbound, with one
    endpoint (address h, port 443, user id u1), and a vless outbound next to
    it; it imports as two links, the second a vless:// one. *)
Lemma second_outbound_adds_a_link :
  length (List.filter
            (fun outbound => strict_eq_str (opt_prop outbound (lit "protocol")) (lit "vmess"))
            (outbounds_of (parsed mixed_config))) = 1%nat
  /\ parseXrayConfig mixed_config
     = [ lit "vmess://eyJ2IjoiMiIsInBzIjoiaW1wb3J0ZWQtbm9kZSIsImFkZCI6ImgiLCJwb3J0Ijo0NDMsImlkIjoidTEiLCJuZXQiOiJ0Y3AiLCJ0eXBlIjoibm9uZSIsImhvc3QiOiIiLCJwYXRoIjoiIiwidGxzIjoiIn0=";
         lit "vless://u2@h2:8443?type=tcp&security=none&path=&host=&flow=&encryption=none#imported-node" ]
  /\ length (parseXrayConfig mixed_config) <> 1%nat.
Proof. vm_compute. repeat split. discriminate. Qed.

(** The descriptor is passed to [btoa], which takes code units up to 255
    only: a remark beyond them makes [btoa] throw, and the importer returns
    nothing.  The statement for every configuration, proved with the facts
    about the descriptor further down, is for descriptors within this
    range. *)
Lemma wide_remark_imports_nothing :
  latin1 (JSON_stringify
            (VObj (vmess_fields
                     (nth 0 (outbounds_of (parsed wide_remark_config)) VUndefined)
                     (nth 0 (endpoints (nth 0 (outbounds_of (parsed wide_remark_config))
                                          VUndefined)) VUndefined)))) = false
  /\ parseXrayConfig wide_remark_config = [].
Proof. vm_compute. split; reflexivity. Qed.

(** ** C8: the vless link *)

(** C8 fails on the code: the path is passed through [encodeURIComponent]
    and the result is percent-encoded again when the query is serialized.
    For the WebSocket path /ws the URL encoding is %2Fws; the link carries
    path=%252Fws. *)
Theorem vless_path_is_encoded_twice :
  encodeURIComponent (VStr (lit "/ws")) = Return (lit "%2Fws")
  /\ parseXrayConfig vless_config
     = [lit "vless://u1@h:443?type=ws&security=none&path=%252Fws&host=&flow=&encryption=none#imported-node"].
Proof. vm_compute. split; reflexivity. Qed.

(** ** C9: embedded references *)

(** C9, as stated, fails: the payload that is decoded ends at the second
    comma.  For the reference below the substring after the first comma is
    QQ==,Qg== , which is not base64; the fetch decodes QQ== and returns the
    entry A. *)
Lemma second_comma_ends_the_payload :
  let ref := lit "data:text/plain;base64,QQ==,Qg==" in
  after_first_comma ref = lit "QQ==,Qg=="
  /\ data_entries ref = []
  /\ fetchSubscriptionNodes offline ref = Return [lit "A"]
  /\ fetchSubscriptionNodes offline ref <> Return (data_entries ref).
Proof. vm_compute. repeat split; discriminate. Qed.

(** C9 (amended): for every link reference beginning with the data: scheme,
    the fetch decodes as base64 the substring between the first comma and the
    next one (the end of the string when there is no further comma: then it is
    the entire substring after the first comma) and splits the decoded text on
    newlines; a decode failure, and a reference without a comma, yield the
    empty sequence.  The platform is not consulted. *)
Theorem data_reference_entries (pf : platform) (linkRef : jsstring) :
  startsWith (lit "data:") linkRef = true ->
  fetchSubscriptionNodes pf linkRef
    = Return (if has_comma linkRef
              then match atob (until_comma (after_first_comma linkRef)) with
                   | Some decoded => split nl decoded
                   | None => []
                   end
              else [])
  /\ (has_comma linkRef = true ->
      has_comma (after_first_comma linkRef) = false ->
      fetchSubscriptionNodes pf linkRef = Return (data_entries linkRef)).
Proof.
  intros Hd.
  assert (E : fetchSubscriptionNodes pf linkRef
    = Return (if has_comma linkRef
              then match atob (until_comma (after_first_comma linkRef)) with
                   | Some decoded => split nl decoded
                   | None => []
                   end
              else [])).
  { unfold fetchSubscriptionNodes, atob_arg. rewrite Hd, split_second.
    destruct (has_comma linkRef); [|reflexivity].
    destruct (atob _); reflexivity. }
  split; [exact E|].
  intros H1 H2. rewrite E, H1. unfold data_entries.
  now rewrite (until_comma_whole _ H2).
Qed.

Lemma data_reference_entries_witness :
  fetchSubscriptionNodes offline (lit "data:text/plain;base64,QQpCCkE=")
  = Return [lit "A"; lit "B"; lit "A"]
  /\ fetchSubscriptionNodes offline (lit "data:text/plain;base64,QQpCCkE=")
     = Return (data_entries (lit "data:text/plain;base64,QQpCCkE=")).
Proof.
  split.
  - apply (proj1 (data_reference_entries offline (lit "data:text/plain;base64,QQpCCkE=") eq_refl)).
  - apply (proj2 (data_reference_entries offline (lit "data:text/plain;base64,QQpCCkE=") eq_refl));
      reflexivity.
Defined.

(** ** C10: getConfig does not return the password *)

(** C10: whatever CONFIG text is stored, a successful getConfig response
    carries the stored configuration without its password field and the
    isConfigured flag; two stores whose configurations differ only in the
    password field get identical responses. *)
Theorem getConfig_hides_password
    (pf1 pf2 : platform) (kv1 kv2 kv1' kv2' : gmap jsstring jsstring)
    (req1 req2 : request) (stored1 stored2 : jsstring) (config1 config2 : value)
    (r1 r2 : response) :
  kv_get kv1 CONFIG = Some stored1 ->
  kv_get kv2 CONFIG = Some stored2 ->
  JSON_parse stored1 = Some config1 ->
  JSON_parse stored2 = Some config2 ->
  without_password config1 = without_password config2 ->
  handleAdminApi pf1 kv1 req1 (lit "getConfig") = Return (r1, kv1') ->
  handleAdminApi pf2 kv2 req2 (lit "getConfig") = Return (r2, kv2') ->
  status r1 = 200 ->
  status r2 = 200 ->
  r1 = r2
  /\ body r1 = JSON_stringify
                 (VObj [ (lit "success", VBool true);
                         (lit "data", without_password config1);
                         (lit "isConfigured", VBool true) ])
  /\ opt_prop (without_password config1) (lit "password") = VUndefined.
Proof.
  intros Hkv1 Hkv2 Hp1 Hp2 Hsame H1 H2 Hs1 Hs2.
  destruct (getConfig_response _ _ _ _ _ _ _ Hkv1 Hp1 H1 Hs1) as [-> _].
  destruct (getConfig_response _ _ _ _ _ _ _ Hkv2 Hp2 H2 Hs2) as [-> _].
  split; [now rewrite Hsame|]. split; [reflexivity|].
  destruct config1; try reflexivity. cbn [without_password opt_prop].
  pose proof (has_own_delete_own (lit "password") kvs) as Hno.
  induction (delete_own (lit "password") kvs) as [|[k v] r IH]; [reflexivity|].
  cbn [has_own lookup_own] in *. apply orb_false_iff in Hno as [-> Hr]. now apply IH.
Qed.

Lemma getConfig_hides_password_witness :
  let data := VObj [(lit "subPath", VStr (lit "sub")); (lit "adminPath", VStr (lit "admin"))] in
  let answer :=
    json_response 200
      (VObj [ (lit "success", VBool true); (lit "data", data);
              (lit "isConfigured", VBool true) ]) in
  handleAdminApi offline (store_with_config (lit "hunter2"))
    (getConfig_request (lit "hunter2")) (lit "getConfig")
  = Return (answer, store_with_config (lit "hunter2"))
  /\ handleAdminApi offline (store_with_config (lit "swordfish"))
       (getConfig_request (lit "swordfish")) (lit "getConfig")
     = Return (answer, store_with_config (lit "swordfish"))
  /\ opt_prop data (lit "password") = VUndefined.
Proof.
  intros data answer.
  assert (H1 : handleAdminApi offline (store_with_config (lit "hunter2"))
                 (getConfig_request (lit "hunter2")) (lit "getConfig")
               = Return (answer, store_with_config (lit "hunter2")))
    by (vm_compute; reflexivity).
  assert (H2 : handleAdminApi offline (store_with_config (lit "swordfish"))
                 (getConfig_request (lit "swordfish")) (lit "getConfig")
               = Return (answer, store_with_config (lit "swordfish")))
    by (vm_compute; reflexivity).
  split; [exact H1|]. split; [exact H2|].
  assert (K1 : kv_get (store_with_config (lit "hunter2")) CONFIG
               = Some (config_text (lit "hunter2"))) by (vm_compute; reflexivity).
  assert (K2 : kv_get (store_with_config (lit "swordfish")) CONFIG
               = Some (config_text (lit "swordfish"))) by (vm_compute; reflexivity).
  assert (P1 : JSON_parse (config_text (lit "hunter2"))
               = Some (VObj [ (lit "password", VStr (lit "hunter2"));
                              (lit "subPath", VStr (lit "sub"));
                              (lit "adminPath", VStr (lit "admin")) ]))
    by (vm_compute; reflexivity).
  assert (P2 : JSON_parse (config_text (lit "swordfish"))
               = Some (VObj [ (lit "password", VStr (lit "swordfish"));
                              (lit "subPath", VStr (lit "sub"));
                              (lit "adminPath", VStr (lit "admin")) ]))
    by (vm_compute; reflexivity).
  exact (proj2 (proj2 (getConfig_hides_password _ _ _ _ _ _ _ _ _ _ _ _ _ _
                         K1 K2 P1 P2 eq_refl H1 H2 eq_refl eq_refl))).
Defined.

(** * Further properties: lemmas *)

(** ** What is written as JSON is read back *)

Section JsonStrings.

Ltac euclid := zify; Z.to_euclidean_division_equations; lia.

Ltac tests :=
  repeat (first [ case N.ltb_spec | case N.leb_spec | case N.eqb_spec ];
          intros; simpl; try lia).

Lemma hex_val_digit n : n < 16 -> hex_val (hex_digit n) = Some n.
Proof.
  intros Hn. unfold hex_digit. destruct (N.ltb_spec n 10).
  - unfold hex_val, is_digit. tests. f_equal. lia.
  - unfold hex_val, is_digit. tests; f_equal; lia.
Qed.

(** The four hexadecimal digits of an escape give the code unit back. *)
Lemma hex4_escape c :
  c < 65536 ->
  hex4 (hex_digit (c / 4096)) (hex_digit ((c / 256) mod 16))
       (hex_digit ((c / 16) mod 16)) (hex_digit (c mod 16)) = Some c.
Proof.
  intros Hc. unfold hex4.
  rewrite !hex_val_digit by euclid. f_equal. euclid.
Qed.

(** Reading the escape of a code unit, a short escape and a plain character. *)
Lemma parse_chars_escape c s t rest :
  c < 65536 ->
  parse_chars s = Some (t, rest) ->
  parse_chars (unicode_escape c ++ s) = Some (c :: t, rest).
Proof.
  intros Hc Hs. unfold unicode_escape.
  cbn [app parse_chars]. change (92 =? 34) with false. change (92 =? 92) with true.
  change (117 =? 117) with true. cbv iota.
  rewrite (hex4_escape c Hc), Hs. reflexivity.
Qed.

Lemma parse_chars_short e u s t rest :
  escape_char e = Some u -> (e =? 117) = false ->
  parse_chars s = Some (t, rest) ->
  parse_chars ([92; e] ++ s) = Some (u :: t, rest).
Proof.
  intros He Hu Hs. cbn [app parse_chars].
  change (92 =? 34) with false. change (92 =? 92) with true. cbv iota.
  rewrite Hu, He, Hs. reflexivity.
Qed.

Lemma parse_chars_plain c s t rest :
  (c =? 34) = false -> (c =? 92) = false -> (c <? 32) = false ->
  parse_chars s = Some (t, rest) ->
  parse_chars (c :: s) = Some (c :: t, rest).
Proof.
  intros H1 H2 H3 Hs. cbn [parse_chars]. rewrite H1, H2, H3, Hs. reflexivity.
Qed.

(** A quoted string reads back as the string, whatever follows the closing
    quote. *)
Lemma parse_quote_chars s : forall rest,
  parse_chars (quote_chars s ++ 34 :: rest) = Some (s, rest).
Proof.
  assert (H : forall n s, (length s <= n)%nat -> forall rest,
             parse_chars (quote_chars s ++ 34 :: rest) = Some (s, rest)).
  { induction n as [|n IH]; intros [|c r] Hlen rest; simpl in Hlen; try lia;
      try reflexivity.
    assert (IHr : parse_chars (quote_chars r ++ 34 :: rest) = Some (r, rest))
      by (apply IH; lia).
    cbn [quote_chars].
    destruct (N.eqb_spec c 34) as [->|N34];
      [rewrite <- app_assoc; now apply (parse_chars_short 34 34)|].
    destruct (N.eqb_spec c 92) as [->|N92];
      [rewrite <- app_assoc; now apply (parse_chars_short 92 92)|].
    destruct (N.eqb_spec c 8) as [->|N8];
      [rewrite <- app_assoc; now apply (parse_chars_short 98 8)|].
    destruct (N.eqb_spec c 12) as [->|N12];
      [rewrite <- app_assoc; now apply (parse_chars_short 102 12)|].
    destruct (N.eqb_spec c 10) as [->|N10];
      [rewrite <- app_assoc; now apply (parse_chars_short 110 10)|].
    destruct (N.eqb_spec c 13) as [->|N13];
      [rewrite <- app_assoc; now apply (parse_chars_short 114 13)|].
    destruct (N.eqb_spec c 9) as [->|N9];
      [rewrite <- app_assoc; now apply (parse_chars_short 116 9)|].
    destruct (N.ltb_spec c 32) as [L32|G32];
      [rewrite <- app_assoc; apply parse_chars_escape; [lia|assumption]|].
    destruct (is_high_surrogate c) eqn:Hh.
    - unfold is_high_surrogate in Hh. apply andb_true_iff in Hh as [Hh1 Hh2].
      apply N.leb_le in Hh1, Hh2.
      destruct r as [|d r'].
      + apply parse_chars_escape; [lia|reflexivity].
      + destruct (is_low_surrogate d) eqn:Hl.
        * unfold is_low_surrogate in Hl. apply andb_true_iff in Hl as [Hl1 Hl2].
          apply N.leb_le in Hl1, Hl2.
          cbn [app].
          apply parse_chars_plain; try (tests; reflexivity).
          apply parse_chars_plain; try (tests; reflexivity).
          apply IH. simpl in Hlen. lia.
        * rewrite <- app_assoc. apply parse_chars_escape; [lia|assumption].
    - destruct (is_low_surrogate c) eqn:Hl.
      + unfold is_low_surrogate in Hl. apply andb_true_iff in Hl as [Hl1 Hl2].
        apply N.leb_le in Hl1, Hl2.
        rewrite <- app_assoc. apply parse_chars_escape; [lia|assumption].
      + cbn [app]. apply parse_chars_plain; try (tests; reflexivity). assumption. }
  intros rest. now apply (H (length s)).
Qed.

End JsonStrings.

Section JsonNumbers.

Lemma lit_String a s : lit (String a s) = N_of_ascii a :: lit s.
Proof.
  reflexivity.
Qed.

Lemma parse_digits_stop acc rest : delimited rest -> parse_digits acc rest = (acc, rest).
Proof.
  destruct rest as [|c r]; [reflexivity|]. intros [->|[->| ->]]; reflexivity.
Qed.

(** The digits of a decimal numeral, read after an accumulator. *)
Lemma parse_digits_uint d : forall acc rest,
  delimited rest ->
  parse_digits (Npos acc) (lit (NilEmpty.string_of_uint d) ++ rest)
  = (Npos (Pos.of_uint_acc d acc), rest).
Proof.
  induction d; intros acc rest Hrest; cbn [NilEmpty.string_of_uint Pos.of_uint_acc];
    try (rewrite lit_String; cbn [app parse_digits];
         match goal with
         | |- context [is_digit ?c] => change (is_digit c) with true
         end; cbv iota;
         match goal with
         | |- parse_digits ?a _ = _ =>
             match goal with
             | |- _ = (Npos (Pos.of_uint_acc _ ?b), _) =>
                 replace a with (Npos b) by (cbn; lia)
             end
         end; now apply IHd).
  now apply parse_digits_stop.
Qed.

Lemma nzhead_not_D0 d d' : Decimal.nzhead d <> Decimal.D0 d'.
Proof.
  induction d; simpl; try discriminate. assumption.
Qed.

Lemma to_uint_leading p d : Pos.to_uint p <> Decimal.D0 d.
Proof.
  intros H.
  pose proof (Unsigned.to_of (Pos.to_uint p)) as Hn.
  rewrite Unsigned.of_to in Hn.
  change (N.to_uint (N.pos p)) with (Pos.to_uint p) in Hn.
  rewrite H in Hn. unfold Decimal.unorm in Hn. cbn [Decimal.nzhead] in Hn.
  destruct (Decimal.nzhead d) eqn:E;
    try (rewrite <- E in Hn; symmetry in Hn; now apply nzhead_not_D0 in Hn).
  injection Hn as ->. now apply (Unsigned.to_uint_nonzero p).
Qed.

(** Reading the decimal text of a positive number. *)
Lemma parse_digits_pos p rest :
  delimited rest ->
  exists c r,
    lit (NilEmpty.string_of_uint (Pos.to_uint p)) ++ rest = c :: r
    /\ is_digit c = true /\ (c =? 48) = false /\ (c =? 45) = false
    /\ parse_digits 0 (c :: r) = (Npos p, rest).
Proof.
  intros Hrest.
  pose proof (Unsigned.of_to p) as Hof.
  pose proof (to_uint_leading p) as Hlead.
  pose proof (Unsigned.to_uint_nonnil p) as Hnil.
  destruct (Pos.to_uint p) as [|d|d|d|d|d|d|d|d|d|d]; try congruence;
    try (exfalso; now apply (Hlead d));
    cbn [NilEmpty.string_of_uint]; rewrite lit_String; cbn [app];
    eexists _, _; (split; [reflexivity|]); repeat (split; [reflexivity|]);
    cbn [parse_digits];
    match goal with
    | |- context [is_digit ?c] => change (is_digit c) with true
    end; cbv iota;
    cbn [Pos.of_uint] in Hof; injection Hof as <-;
    match goal with
    | |- parse_digits ?a _ = (Npos (Pos.of_uint_acc _ ?b), _) =>
        change a with (Npos b)
    end; now apply parse_digits_uint.
Qed.

Lemma integral_delimited rest :
  delimited rest ->
  match rest with
  | c :: _ => negb ((c =? 46) || (c =? 101) || (c =? 69))
  | [] => true
  end = true.
Proof.
  destruct rest as [|c r]; [reflexivity|]. intros [->|[->| ->]]; reflexivity.
Qed.

(** A printed integer within the safe range reads back as the integer. *)
Lemma parse_number_decimal n rest :
  (Z.abs n <= Z.of_N max_safe)%Z -> delimited rest ->
  parse_number (decimal n ++ rest) = Some (n, rest).
Proof.
  intros Hn Hrest. unfold decimal.
  destruct n as [|p|p]; cbn [Z.to_int NilZero.string_of_int].
  - destruct rest as [|c r]; [reflexivity|].
    destruct Hrest as [->|[->| ->]]; reflexivity.
  - unfold NilZero.string_of_uint.
    pose proof (Unsigned.to_uint_nonnil p) as Hnil.
    destruct (parse_digits_pos p rest Hrest) as (c & r & E & Hd & H48 & H45 & Hp).
    replace (lit match Pos.to_uint p with
                 | Decimal.Nil => "0"%string
                 | _ => NilEmpty.string_of_uint (Pos.to_uint p)
                 end) with (lit (NilEmpty.string_of_uint (Pos.to_uint p)))
      by (destruct (Pos.to_uint p); congruence).
    rewrite E. unfold parse_number. rewrite H45, Hd, H48, Hp.
    rewrite (integral_delimited _ Hrest).
    replace (N.pos p <=? max_safe) with true by (symmetry; apply N.leb_le; lia).
    reflexivity.
  - unfold NilZero.string_of_uint.
    pose proof (Unsigned.to_uint_nonnil p) as Hnil.
    destruct (parse_digits_pos p rest Hrest) as (c & r & E & Hd & H48 & H45 & Hp).
    replace (lit (String "-" match Pos.to_uint p with
                 | Decimal.Nil => "0"%string
                 | _ => NilEmpty.string_of_uint (Pos.to_uint p)
                 end)) with (45 :: lit (NilEmpty.string_of_uint (Pos.to_uint p)))
      by (destruct (Pos.to_uint p); try congruence; reflexivity).
    cbn [app]. rewrite E. unfold parse_number.
    change (45 =? 45) with true. cbv iota. rewrite Hd, H48, Hp.
    rewrite (integral_delimited _ Hrest).
    replace (N.pos p <=? max_safe) with true by (symmetry; apply N.leb_le; lia).
    reflexivity.
Qed.

End JsonNumbers.

Section JsonLoops.

(** The parser, one level unfolded, over the two loops. *)
Lemma parse_value_S f s :
  parse_value (S f) s =
    match skip_ws s with
    | [] => None
    | c :: r =>
        if c =? 123 then
          match skip_ws r with
          | 125 :: r' => Some (VObj [], r')
          | _ => members_loop (parse_value f) f [] r
          end
        else if c =? 91 then
          match skip_ws r with
          | 93 :: r' => Some (VArr [], r')
          | _ => elements_loop (parse_value f) f [] r
          end
        else if c =? 34 then
          match parse_chars r with
          | Some (t, r') => Some (VStr t, r')
          | None => None
          end
        else if startsWith (lit "true") (c :: r) then Some (VBool true, skipn 4 (c :: r))
        else if startsWith (lit "false") (c :: r) then Some (VBool false, skipn 5 (c :: r))
        else if startsWith (lit "null") (c :: r) then Some (VNull, skipn 4 (c :: r))
        else
          match parse_number (c :: r) with
          | Some (n, r') => Some (VNum n, r')
          | None => None
          end
    end.
Proof.
  reflexivity.
Qed.

Lemma serialize_VArr l : serialize (VArr l) = [91] ++ ser_elements l ++ [93].
Proof.
  reflexivity.
Qed.

Lemma serialize_VObj kvs : serialize (VObj kvs) = [123] ++ ser_members true kvs ++ [125].
Proof.
  reflexivity.
Qed.

End JsonLoops.

Section JsonValues.

(** Induction on values, with the hypothesis for the elements of arrays and
    for the values of the properties of objects. *)
Lemma value_ind_nested (P : value -> Prop) :
  P VUndefined -> P VNull -> (forall b, P (VBool b)) -> (forall n, P (VNum n)) ->
  (forall s, P (VStr s)) ->
  (forall l, List.Forall P l -> P (VArr l)) ->
  (forall kvs, List.Forall (fun kv => P (snd kv)) kvs -> P (VObj kvs)) ->
  forall v, P v.
Proof.
  intros Hu Hn Hb Hz Hs Ha Ho. fix IH 1.
  intros [| |b|n|s|l|kvs];
    [exact Hu|exact Hn|apply Hb|apply Hz|apply Hs| |].
  - apply Ha. induction l as [|x l IHl]; constructor; [apply IH|exact IHl].
  - apply Ho. induction kvs as [|[k x] kvs IHk]; constructor; [apply IH|exact IHk].
Qed.

Lemma skip_ws_head c r : is_json_ws c = false -> skip_ws (c :: r) = c :: r.
Proof.
  intros H. simpl. now rewrite H.
Qed.

Lemma decimal_head n : exists c t, decimal n = c :: t /\ (c = 45 \/ is_digit c = true).
Proof.
  unfold decimal. destruct n as [|p|p]; cbn [Z.to_int NilZero.string_of_int].
  - exists 48, []. split; [reflexivity|right; reflexivity].
  - destruct (parse_digits_pos p [] I) as (c & r & E & Hd & _).
    rewrite app_nil_r in E. unfold NilZero.string_of_uint.
    pose proof (Unsigned.to_uint_nonnil p).
    exists c, r. split; [|now right].
    rewrite <- E. destruct (Pos.to_uint p); congruence.
  - eexists 45, _. split; [reflexivity|now left].
Qed.

(** A printed value starts like a value. *)
Lemma serialize_head v :
  exists c t, serialize v = c :: t /\ value_start c.
Proof.
  unfold value_start.
  destruct v as [| |[|]|n|s|l|kvs]; try (eexists _, _; split; [reflexivity|]; tauto).
  cbn [serialize].
  destruct (decimal_head n) as (c & t & -> & H). exists c, t. split; [reflexivity|tauto].
Qed.

Lemma value_start_facts c :
  value_start c -> is_json_ws c = false /\ (c =? 93) = false /\ (c =? 125) = false
                   /\ (c =? 44) = false.
Proof.
  unfold value_start, is_digit, is_json_ws.
  intros [->|[->|[->|[->|[->|[->|[->|H]]]]]]]; try (repeat split; reflexivity).
  apply andb_true_iff in H as [H1 H2]. apply N.leb_le in H1, H2.
  repeat split; repeat (first [case N.eqb_spec | case N.ltb_spec]; intros; simpl; try lia);
    reflexivity.
Qed.

(** The parser reads a printed number back. *)
Lemma parse_value_num f n rest :
  (Z.abs n <= Z.of_N max_safe)%Z -> delimited rest ->
  parse_value (S f) (decimal n ++ rest) = Some (VNum n, rest).
Proof.
  intros Hn Hrest. rewrite parse_value_S.
  pose proof (parse_number_decimal n rest Hn Hrest) as Hp.
  destruct (decimal_head n) as (c & t & E & Hc). rewrite E in *. cbn [app] in *.
  assert (Hws : is_json_ws c = false /\ (c =? 123) = false /\ (c =? 91) = false
                /\ (c =? 34) = false /\ (116 =? c) = false /\ (102 =? c) = false
                /\ (110 =? c) = false).
  { destruct Hc as [->|Hc]; [repeat split; reflexivity|].
    unfold is_digit in Hc. apply andb_true_iff in Hc as [H1 H2]. apply N.leb_le in H1, H2.
    unfold is_json_ws.
    repeat split; repeat (case N.eqb_spec; intros; simpl; try lia); reflexivity. }
  destruct Hws as (Hws & H1 & H2 & H3 & H4 & H5 & H6).
  rewrite (skip_ws_head _ _ Hws), H1, H2, H3.
  cbn [startsWith lit List.map list_ascii_of_string].
  change (N_of_ascii "t") with 116. change (N_of_ascii "f") with 102.
  change (N_of_ascii "n") with 110.
  rewrite H4, H5, H6. cbn [andb]. now rewrite Hp.
Qed.

End JsonValues.

Section JsonReadLoops.

(** A property added after properties that all come before it goes last. *)
Lemma obj_set_append k v acc :
  List.Forall (fun kv => key_before (fst kv) k = true) acc ->
  obj_set k v acc = acc ++ [(k, v)].
Proof.
  induction 1 as [|[k' v'] acc Hk _ IH]; [reflexivity|].
  cbn [obj_set fst] in *. unfold key_before in Hk.
  apply andb_true_iff in Hk as [Hne Hord]. apply negb_true_iff in Hne. rewrite Hne.
  destruct (array_index k) as [i|], (array_index k') as [j|]; try discriminate;
    cbn [app]; [|now rewrite IH|now rewrite IH].
  apply N.leb_le in Hord.
  replace (i <? j) with false by (symmetry; apply N.ltb_ge; lia).
  now rewrite IH.
Qed.

Lemma keys_ordered_app ks k :
  keys_ordered (ks ++ [k]) = true ->
  keys_ordered ks = true /\ List.Forall (fun k' => key_before k' k = true) ks.
Proof.
  induction ks as [|k' ks IH]; cbn [app keys_ordered]; [auto|].
  rewrite andb_true_iff, forallb_app, andb_true_iff. cbn [forallb].
  rewrite andb_true_r. intros [[H1 H2] H3]. destruct (IH H3) as [H4 H5].
  split; [now rewrite H1, H4|]. now constructor.
Qed.

Variable f : nat.
Variable rest : jsstring.
Hypothesis rest_delimited : delimited rest.

Lemma ser_elements_cons x y r :
  ser_elements (x :: y :: r) = serialize x ++ [44] ++ ser_elements (y :: r).
Proof.
  reflexivity.
Qed.

(** The element loop reads the printed elements of an array back. *)
Lemma elements_loop_reads l : forall n acc,
  l <> [] -> (length l <= n)%nat -> List.Forall (reads_back f) l ->
  elements_loop (parse_value f) n acc (ser_elements l ++ 93 :: rest)
  = Some (VArr (List.rev acc ++ l), rest).
Proof.
  induction l as [|x l IH]; intros n acc Hne Hlen Hall; [congruence|].
  inversion_clear Hall as [|? ? Hx Hl].
  destruct n as [|n]; [simpl in Hlen; lia|]. cbn [elements_loop].
  destruct l as [|y l].
  - cbn [ser_elements]. rewrite (Hx (93 :: rest)) by (right; left; reflexivity).
    reflexivity.
  - rewrite ser_elements_cons, <- !app_assoc.
    rewrite (Hx _) by (left; reflexivity).
    cbn [app skip_ws]. change (is_json_ws 44) with false. cbv iota.
    change (44 =? 44) with true. cbv iota.
    rewrite IH; [|discriminate|simpl in *; lia|assumption].
    cbn [List.rev]. now rewrite <- app_assoc.
Qed.

Lemma defined_wf x : well_formed x = true -> x <> VUndefined.
Proof.
  intros H ->. discriminate.
Qed.

Lemma ser_members_cons first k x r :
  x <> VUndefined ->
  ser_members first ((k, x) :: r)
  = (if first then [] else [44]) ++ quote k ++ [58] ++ serialize x ++ ser_members false r.
Proof.
  destruct x; try reflexivity. congruence.
Qed.

Lemma keys_ordered_prefix ks ks' :
  keys_ordered (ks ++ ks') = true -> keys_ordered ks = true.
Proof.
  induction ks as [|k0 ks IH]; [reflexivity|]. cbn [app keys_ordered].
  rewrite !andb_true_iff, forallb_app, andb_true_iff.
  intros [[H1 _] H2]. split; [exact H1|now apply IH].
Qed.

Lemma obj_set_next k x acc kvs :
  keys_ordered (List.map fst (acc ++ (k, x) :: kvs)) = true ->
  obj_set k x acc = acc ++ [(k, x)].
Proof.
  intros Hord. apply obj_set_append.
  replace (acc ++ (k, x) :: kvs) with ((acc ++ [(k, x)]) ++ kvs) in Hord
    by now rewrite <- app_assoc.
  rewrite map_app in Hord. apply keys_ordered_prefix in Hord.
  rewrite map_app in Hord. cbn [List.map fst] in Hord.
  apply keys_ordered_app in Hord as [_ Hpre].
  apply List.Forall_forall. intros [k0 v0] Hin.
  rewrite List.Forall_forall in Hpre. apply Hpre.
  apply in_map_iff. exists (k0, v0). auto.
Qed.

(** The member loop reads the printed properties of an object back. *)
Lemma members_loop_reads kvs : forall n acc k x,
  (length kvs < n)%nat ->
  x <> VUndefined -> reads_back f x ->
  List.Forall (fun kv => snd kv <> VUndefined /\ reads_back f (snd kv)) kvs ->
  keys_ordered (List.map fst (acc ++ (k, x) :: kvs)) = true ->
  members_loop (parse_value f) n acc
    (quote k ++ [58] ++ serialize x ++ ser_members false kvs ++ 125 :: rest)
  = Some (VObj (acc ++ (k, x) :: kvs), rest).
Proof.
  induction kvs as [|[k1 x1] kvs IH]; intros n acc k x Hlen Hdef Hx Hall Hord;
    (destruct n as [|n]; [simpl in Hlen; lia|]);
    unfold quote; rewrite <- !app_assoc; cbn [members_loop app];
    unfold expect at 1; cbn [skip_ws]; change (is_json_ws 34) with false; cbv iota;
    change (34 =? 34) with true; cbv iota;
    rewrite parse_quote_chars;
    unfold expect; cbn [skip_ws app]; change (is_json_ws 58) with false; cbv iota;
    change (58 =? 58) with true; cbv iota.
  - change (ser_members false [] ++ 125 :: rest) with (125 :: rest).
    rewrite (Hx (125 :: rest)) by (right; right; reflexivity).
    cbv zeta. rewrite (obj_set_next _ _ _ _ Hord). reflexivity.
  - inversion_clear Hall as [|? ? [Hdef1 Hx1] Hl]. cbn [snd] in *.
    rewrite (ser_members_cons false k1 x1 kvs Hdef1).
    rewrite <- !app_assoc. cbn [app].
    rewrite (Hx _) by (left; reflexivity).
    cbv zeta. rewrite (obj_set_next _ _ _ _ Hord).
    cbn [skip_ws]. change (is_json_ws 44) with false. cbv iota.
    change (44 =? 44) with true. cbv iota.
    specialize (IH n (acc ++ [(k, x)]) k1 x1).
    rewrite <- !app_assoc in IH. cbn [app] in IH.
    rewrite IH; [reflexivity|simpl in *; lia|assumption|assumption|assumption|assumption].
Qed.

End JsonReadLoops.

Section JsonReadBack.

Lemma array_dispatch c t (X : option (value * jsstring)) :
  (c =? 93) = false ->
  match c :: t with
  | 93 :: r' => Some (VArr [], r')
  | _ => X
  end = X.
Proof.
  intros H. destruct c as [|p]; [reflexivity|].
  do 7 (destruct p as [p|p|]; try reflexivity). discriminate.
Qed.

Lemma list_max_bound (l : list nat) n x :
  (list_max l <= n)%nat -> In x l -> (x <= n)%nat.
Proof.
  intros H Hin. apply List.list_max_le in H. rewrite List.Forall_forall in H. auto.
Qed.

(** Reading a printed well-formed value gives the value back, with any
    fuel above its depth and before any delimiter. *)
Lemma parse_serialize v :
  well_formed v = true ->
  forall fuel tail, (depth v <= fuel)%nat -> delimited tail ->
  parse_value fuel (serialize v ++ tail) = Some (v, tail).
Proof.
  induction v as [| |b|n|s|l IH|kvs IH] using value_ind_nested;
    intros Hwf fuel tail Hfuel Htail; try discriminate;
    (destruct fuel as [|f]; [simpl in Hfuel; lia|]).
  - reflexivity.
  - destruct b; reflexivity.
  - apply parse_value_num; [|assumption]. cbn [well_formed] in Hwf.
    now apply Z.leb_le.
  - rewrite parse_value_S. cbn [serialize]. unfold quote. rewrite <- !app_assoc.
    cbn [app skip_ws]. change (is_json_ws 34) with false. cbv iota.
    change (34 =? 123) with false. change (34 =? 91) with false.
    change (34 =? 34) with true. cbv iota. now rewrite parse_quote_chars.
  - rewrite parse_value_S, serialize_VArr, <- !app_assoc.
    cbn [app skip_ws]. change (is_json_ws 91) with false. cbv iota.
    change (91 =? 123) with false. change (91 =? 91) with true. cbv iota.
    destruct l as [|x l]; [reflexivity|].
    cbn [well_formed] in Hwf. cbn [depth] in Hfuel.
    assert (Hreads : List.Forall (reads_back f) (x :: l)).
    { rewrite List.Forall_forall in *. intros y Hy tl Htl. apply IH; try assumption.
      - rewrite forallb_forall in Hwf. now apply Hwf.
      - apply (list_max_bound (List.map depth (x :: l))); [lia|]. now apply in_map. }
    destruct (serialize_head x) as (c & t & Ex & Hc).
    destruct (value_start_facts c Hc) as (Hws & H93 & _).
    assert (Ehead : exists t', ser_elements (x :: l) ++ 93 :: tail = c :: t').
    { destruct l; cbn [ser_elements]; rewrite Ex; eexists; reflexivity. }
    destruct Ehead as [t' Ehead].
    pose proof (elements_loop_reads f tail (x :: l) f [] ltac:(discriminate)
                  ltac:(lia) Hreads) as Hloop.
    rewrite Ehead in *. rewrite (skip_ws_head _ _ Hws), (array_dispatch _ _ _ H93).
    exact Hloop.
  - rewrite parse_value_S, serialize_VObj, <- !app_assoc.
    cbn [app skip_ws]. change (is_json_ws 123) with false. cbv iota.
    change (123 =? 123) with true. cbv iota.
    destruct kvs as [|[k x] kvs]; [reflexivity|].
    cbn [well_formed] in Hwf. apply andb_true_iff in Hwf as [Hord Hvals].
    cbn [depth] in Hfuel.
    assert (Hreads : List.Forall (fun kv => snd kv <> VUndefined /\ reads_back f (snd kv))
                       ((k, x) :: kvs)).
    { rewrite List.Forall_forall in *. intros kv Hkv.
      rewrite forallb_forall in Hvals. specialize (Hvals kv Hkv).
      split; [now apply defined_wf|]. intros tl Htl. apply IH; try assumption.
      apply (list_max_bound (List.map (fun kv => depth (snd kv)) ((k, x) :: kvs))); [lia|].
      now apply (in_map (fun kv => depth (snd kv))). }
    inversion_clear Hreads as [|? ? [Hdef Hx] Hrest]. cbn [snd] in *.
    rewrite (ser_members_cons true k x kvs Hdef). cbn [app].
    pose proof (members_loop_reads f tail kvs f [] k x ltac:(simpl in Hfuel; lia)
                  Hdef Hx Hrest Hord) as Hloop.
    unfold quote in *. rewrite <- ?app_assoc in Hloop. rewrite <- ?app_assoc.
    cbn [app] in *. cbn [skip_ws]. change (is_json_ws 34) with false. cbv iota.
    rewrite <- ?app_assoc. exact Hloop.
Qed.

End JsonReadBack.

Section JsonRoundTrip.

Lemma serialize_nonempty v : (1 <= length (serialize v))%nat.
Proof.
  destruct (serialize_head v) as (c & t & -> & _). simpl. lia.
Qed.

Lemma ser_elements_length l :
  (length l <= length (ser_elements l))%nat
  /\ forall x, In x l -> (length (serialize x) <= length (ser_elements l))%nat.
Proof.
  induction l as [|x l [IH1 IH2]]; [split; [reflexivity|intros ? []]|].
  destruct l as [|y l].
  - cbn [ser_elements]. pose proof (serialize_nonempty x). split; [simpl; lia|].
    intros z [<-|[]]. lia.
  - rewrite ser_elements_cons, !length_app. pose proof (serialize_nonempty x).
    split; [simpl in *; lia|]. intros z [<-|Hz]; [lia|]. specialize (IH2 z Hz). lia.
Qed.

Lemma ser_members_length first kvs :
  List.Forall (fun kv => snd kv <> VUndefined) kvs ->
  (length kvs <= length (ser_members first kvs))%nat
  /\ forall kv, In kv kvs ->
       (S (length (serialize (snd kv))) <= length (ser_members first kvs))%nat.
Proof.
  intros H. revert first. induction H as [|[k x] kvs Hx _ IH]; intros first;
    [split; [reflexivity|intros ? []]|].
  cbn [snd] in Hx. rewrite ser_members_cons by assumption.
  destruct (IH false) as [IH1 IH2]. rewrite !length_app. unfold quote.
  rewrite !length_app. cbn [length]. split; [lia|].
  intros kv [<-|Hkv]; cbn [snd]; [lia|]. specialize (IH2 kv Hkv). lia.
Qed.

(** The text of a value is long enough for the fuel the parser is given. *)
Lemma depth_serialize v :
  well_formed v = true -> (depth v <= length (serialize v))%nat.
Proof.
  induction v as [| |b|n|s|l IH|kvs IH] using value_ind_nested; intros Hwf;
    try discriminate; try apply serialize_nonempty.
  - cbn [well_formed] in Hwf. rewrite forallb_forall in Hwf.
    rewrite serialize_VArr, !length_app. cbn [depth length].
    destruct (ser_elements_length l) as [H1 H2].
    assert (Hmax : (list_max (List.map depth l) <= length (ser_elements l))%nat).
    { apply List.list_max_le, List.Forall_forall. intros d Hd.
      apply in_map_iff in Hd as (x & <- & Hx).
      rewrite List.Forall_forall in IH. specialize (IH x Hx (Hwf x Hx)).
      specialize (H2 x Hx). lia. }
    lia.
  - cbn [well_formed] in Hwf. apply andb_true_iff in Hwf as [_ Hwf].
    rewrite forallb_forall in Hwf.
    rewrite serialize_VObj, !length_app. cbn [depth length].
    assert (Hdef : List.Forall (fun kv => snd kv <> VUndefined) kvs).
    { apply List.Forall_forall. intros kv Hkv. apply defined_wf. now apply Hwf. }
    destruct (ser_members_length true kvs Hdef) as [H1 H2].
    assert (Hmax : (list_max (List.map (fun kv => depth (snd kv)) kvs)
                    <= length (ser_members true kvs))%nat).
    { apply List.list_max_le, List.Forall_forall. intros d Hd.
      apply in_map_iff in Hd as (kv & <- & Hkv).
      rewrite List.Forall_forall in IH. specialize (IH kv Hkv (Hwf kv Hkv)).
      specialize (H2 kv Hkv). lia. }
    lia.
Qed.

(** [JSON.parse(JSON.stringify(v))] is [v] for every well-formed value. *)
Lemma JSON_parse_stringify v :
  well_formed v = true -> JSON_parse (JSON_stringify v) = Some v.
Proof.
  intros Hwf. unfold JSON_parse, JSON_stringify.
  pose proof (parse_serialize v Hwf (S (length (serialize v))) []
                ltac:(pose proof (depth_serialize v Hwf); lia) I) as H.
  rewrite app_nil_r in H. now rewrite H.
Qed.

End JsonRoundTrip.

(** ** What the parser builds is well-formed *)

Section ObjectFacts.

Lemma str_eqb_sym a b : str_eqb a b = str_eqb b a.
Proof.
  destruct (str_eqb a b) eqn:E.
  - apply str_eqb_eq in E. subst. symmetry. apply str_eqb_refl.
  - apply str_eqb_neq in E. symmetry. apply str_eqb_neq. congruence.
Qed.

(** Setting a property keeps the properties in order. *)
Lemma obj_set_ordered k v kvs :
  keys_ordered (List.map fst kvs) = true ->
  keys_ordered (List.map fst (obj_set k v kvs)) = true
  /\ forall k0, forallb (key_before k0) (List.map fst kvs) = true ->
                key_before k0 k = true ->
                forallb (key_before k0) (List.map fst (obj_set k v kvs)) = true.
Proof.
  induction kvs as [|[k' v'] r IH]; intros Hord.
  - split; [reflexivity|]. intros k0 _ H. cbn. now rewrite H.
  - cbn [List.map fst keys_ordered] in Hord. apply andb_true_iff in Hord as [Hk' Hr].
    destruct (IH Hr) as [IH1 IH2]. cbn [obj_set].
    destruct (str_eqb k k') eqn:Eq.
    { apply str_eqb_eq in Eq. subst k'. cbn [List.map fst keys_ordered forallb].
      split; [now rewrite Hk', Hr|]. intros k0 H _. exact H. }
    assert (Hinsert :
      (forall x, In x (List.map fst r) -> key_before k x = true) ->
      key_before k k' = true ->
      keys_ordered (List.map fst ((k, v) :: (k', v') :: r)) = true
      /\ forall k0, forallb (key_before k0) (List.map fst ((k', v') :: r)) = true ->
                    key_before k0 k = true ->
                    forallb (key_before k0) (List.map fst ((k, v) :: (k', v') :: r)) = true).
    { intros Hall Hkk'. split.
      - cbn [List.map fst keys_ordered forallb]. rewrite Hkk', Hk', Hr.
        replace (forallb (key_before k) (List.map fst r)) with true; [reflexivity|].
        symmetry. apply forallb_forall. exact Hall.
      - intros k0 H0 H1. cbn [List.map fst forallb] in *. now rewrite H1, H0. }
    assert (Hkeep :
      key_before k' k = true ->
      keys_ordered (List.map fst ((k', v') :: obj_set k v r)) = true
      /\ forall k0, forallb (key_before k0) (List.map fst ((k', v') :: r)) = true ->
                    key_before k0 k = true ->
                    forallb (key_before k0) (List.map fst ((k', v') :: obj_set k v r)) = true).
    { intros Hk'k. split.
      - cbn [List.map fst keys_ordered]. rewrite IH1, (IH2 k' Hk' Hk'k). reflexivity.
      - intros k0 H0 H1. cbn [List.map fst forallb] in *.
        apply andb_true_iff in H0 as [H0 H0']. now rewrite H0, (IH2 k0 H0' H1). }
    rewrite forallb_forall in Hk'.
    destruct (array_index k) as [i|] eqn:Ei, (array_index k') as [j|] eqn:Ej.
    + destruct (N.ltb_spec i j) as [Hlt|Hge].
      * apply Hinsert.
        -- intros x Hx. specialize (Hk' x Hx).
           unfold key_before in *. rewrite Ej in Hk'. rewrite Ei.
           apply andb_true_iff in Hk' as [Hne Hx'].
           destruct (array_index x) as [jx|] eqn:Ex.
           ++ apply N.leb_le in Hx'.
              apply andb_true_iff. split; [|apply N.leb_le; lia].
              apply negb_true_iff, str_eqb_neq. intros ->. rewrite Ei in Ex.
              injection Ex as <-. lia.
           ++ rewrite andb_true_r. apply negb_true_iff, str_eqb_neq. intros ->.
              congruence.
        -- unfold key_before. rewrite Ei, Ej, str_eqb_sym, Eq. cbn.
           apply N.leb_le. lia.
      * apply Hkeep. unfold key_before. rewrite Ei, Ej, Eq. cbn. apply N.leb_le. lia.
    + apply Hinsert.
      * intros x Hx. specialize (Hk' x Hx). unfold key_before in *.
        rewrite Ej in Hk'. rewrite Ei.
        apply andb_true_iff in Hk' as [Hne Hx'].
        destruct (array_index x) as [jx|] eqn:Ex; [discriminate|].
        rewrite andb_true_r. apply negb_true_iff, str_eqb_neq. intros ->. congruence.
      * unfold key_before. rewrite Ej, str_eqb_sym, Eq. reflexivity.
    + apply Hkeep. unfold key_before. rewrite Ei, Eq. reflexivity.
    + apply Hkeep. unfold key_before. rewrite Ei, Eq. reflexivity.
Qed.

(** Setting a well-formed value keeps the values well-formed. *)
Lemma obj_set_values k v kvs :
  well_formed v = true ->
  forallb (fun kv => well_formed (snd kv)) kvs = true ->
  forallb (fun kv => well_formed (snd kv)) (obj_set k v kvs) = true.
Proof.
  intros Hv. induction kvs as [|[k' v'] r IH]; cbn [obj_set forallb snd].
  - now rewrite Hv.
  - rewrite andb_true_iff. intros [H1 H2].
    destruct (str_eqb k k'); [cbn; now rewrite Hv, H2|].
    destruct (array_index k), (array_index k'); try destruct (_ <? _);
      cbn [forallb snd]; now rewrite ?Hv, ?H1, ?H2, ?IH.
Qed.

(** Setting a property of a well-formed object gives a well-formed object. *)
Lemma obj_set_wf k v kvs :
  well_formed v = true -> well_formed (VObj kvs) = true ->
  well_formed (VObj (obj_set k v kvs)) = true.
Proof.
  cbn [well_formed]. intros Hv H. apply andb_true_iff in H as [H1 H2].
  rewrite (proj1 (obj_set_ordered k v kvs H1)), (obj_set_values k v kvs Hv H2).
  reflexivity.
Qed.

End ObjectFacts.

Section ParserFacts.

(** The numbers the parser accepts are in the safe range. *)
Lemma parse_number_safe s n r :
  parse_number s = Some (n, r) -> (Z.abs n <=? Z.of_N max_safe)%Z = true.
Proof.
  unfold parse_number.
  destruct (match s with
            | [] => (false, s)
            | c :: r0 => if c =? 45 then (true, r0) else (false, s)
            end) as [neg s1].
  destruct s1 as [|d r1]; [discriminate|].
  destruct (is_digit d); [|discriminate].
  destruct (if d =? 48 then (0, r1) else parse_digits 0 (d :: r1)) as [m r'].
  destruct (_ && (m <=? max_safe)) eqn:E; [|discriminate].
  apply andb_true_iff in E as [_ E]. apply N.leb_le in E.
  intros [= <- _]. apply Z.leb_le. destruct neg; lia.
Qed.

Variable f : nat.
Hypothesis inner_wf :
  forall s v r, parse_value f s = Some (v, r) -> well_formed v = true.

Lemma members_loop_wf n : forall acc s v r,
  well_formed (VObj acc) = true ->
  members_loop (parse_value f) n acc s = Some (v, r) -> well_formed v = true.
Proof.
  induction n as [|n IH]; intros acc s v r Hacc; [discriminate|].
  cbn [members_loop].
  destruct (expect 34 s) as [s1|]; [|discriminate].
  destruct (parse_chars s1) as [[k s2]|]; [|discriminate].
  destruct (expect 58 s2) as [s3|]; [|discriminate].
  destruct (parse_value f s3) as [[x s4]|] eqn:Ex; [|discriminate].
  cbv zeta. pose proof (obj_set_wf k x acc (inner_wf _ _ _ Ex) Hacc) as Hacc'.
  destruct (skip_ws s4) as [|d s5]; [discriminate|].
  destruct (d =? 44); [now apply IH|].
  destruct (d =? 125); [|discriminate]. now intros [= <- _].
Qed.

Lemma elements_loop_wf n : forall acc s v r,
  forallb well_formed acc = true ->
  elements_loop (parse_value f) n acc s = Some (v, r) -> well_formed v = true.
Proof.
  induction n as [|n IH]; intros acc s v r Hacc; [discriminate|].
  cbn [elements_loop].
  destruct (parse_value f s) as [[x s1]|] eqn:Ex; [|discriminate].
  assert (Hacc' : forallb well_formed (x :: acc) = true)
    by (cbn; now rewrite (inner_wf _ _ _ Ex), Hacc).
  destruct (skip_ws s1) as [|d s2]; [discriminate|].
  destruct (d =? 44); [now apply IH|].
  destruct (d =? 93); [|discriminate]. intros [= <- _].
  cbn [well_formed]. change (rev acc ++ [x]) with (rev (x :: acc)).
  rewrite forallb_rev. exact Hacc'.
Qed.

End ParserFacts.

Lemma object_empty_cases l (X y : option (value * jsstring)) :
  match l with
  | 125 :: r' => Some (VObj [], r')
  | _ => X
  end = y -> y = X \/ exists r', y = Some (VObj [], r').
Proof.
  destruct l as [|c t]; [auto|]. destruct c as [|p]; [auto|].
  do 7 (destruct p as [p|p|]; auto). eauto.
Qed.

Lemma array_empty_cases l (X y : option (value * jsstring)) :
  match l with
  | 93 :: r' => Some (VArr [], r')
  | _ => X
  end = y -> y = X \/ exists r', y = Some (VArr [], r').
Proof.
  destruct l as [|c t]; [auto|]. destruct c as [|p]; [auto|].
  do 7 (destruct p as [p|p|]; auto). eauto.
Qed.

(** The parser only builds well-formed values. *)
Lemma parse_value_wf fuel : forall s v r,
  parse_value fuel s = Some (v, r) -> well_formed v = true.
Proof.
  induction fuel as [|f IH]; intros s v r; [discriminate|].
  rewrite parse_value_S.
  destruct (skip_ws s) as [|c t]; [discriminate|].
  destruct (c =? 123).
  { intros H. apply object_empty_cases in H as [H|[r' H]].
    - symmetry in H. now apply (members_loop_wf f IH) in H.
    - now injection H as -> _. }
  destruct (c =? 91).
  { intros H. apply array_empty_cases in H as [H|[r' H]].
    - symmetry in H. now apply (elements_loop_wf f IH) in H.
    - now injection H as -> _. }
  destruct (c =? 34).
  { destruct (parse_chars t) as [[x r']|]; [|discriminate]. now intros [= <- _]. }
  destruct (startsWith (lit "true") (c :: t)); [now intros [= <- _]|].
  destruct (startsWith (lit "false") (c :: t)); [now intros [= <- _]|].
  destruct (startsWith (lit "null") (c :: t)); [now intros [= <- _]|].
  destruct (parse_number (c :: t)) as [[n r']|] eqn:En; [|discriminate].
  intros [= <- _]. cbn [well_formed]. now apply (parse_number_safe _ _ _ En).
Qed.

(** [JSON.parse] only builds well-formed values. *)
Lemma JSON_parse_wf s v : JSON_parse s = Some v -> well_formed v = true.
Proof.
  unfold JSON_parse.
  destruct (parse_value (S (length s)) s) as [[x r]|] eqn:E; [|discriminate].
  destruct (skip_ws r); [|discriminate]. intros [= <-].
  now apply (parse_value_wf _ _ _ _ E).
Qed.

(** What is read from a well-formed value is well-formed, or undefined. *)
Lemma lookup_own_wf k kvs :
  well_formed (VObj kvs) = true ->
  lookup_own k kvs = VUndefined \/ well_formed (lookup_own k kvs) = true.
Proof.
  cbn [well_formed]. rewrite andb_true_iff. intros [_ H].
  induction kvs as [|[k' x] r IH]; [now left|].
  cbn [forallb snd lookup_own] in *. apply andb_true_iff in H as [Hx Hr].
  destruct (str_eqb k k'); [now right|now apply IH].
Qed.

Lemma opt_prop_wf v k :
  well_formed v = true ->
  opt_prop v k = VUndefined \/ well_formed (opt_prop v k) = true.
Proof.
  destruct v; try (now left). intros H. now apply lookup_own_wf.
Qed.

Lemma truthy_wf v k :
  well_formed v = true -> truthy (opt_prop v k) = true ->
  well_formed (opt_prop v k) = true.
Proof.
  intros Hv Ht. destruct (opt_prop_wf v k Hv) as [E|E]; [|exact E].
  rewrite E in Ht. discriminate.
Qed.

Section StringifyFacts.

(** Properties without a value are not written. *)
Lemma ser_members_defined kvs : forall first,
  ser_members first (defined_props kvs) = ser_members first kvs.
Proof.
  induction kvs as [|[k x] r IH]; intros first; [reflexivity|].
  destruct x; cbn [defined_props List.filter snd is_undefined negb ser_members];
    fold (defined_props r); rewrite ?IH; reflexivity.
Qed.

Lemma serialize_defined kvs :
  serialize (VObj (defined_props kvs)) = serialize (VObj kvs).
Proof.
  now rewrite !serialize_VObj, ser_members_defined.
Qed.

Lemma keys_before_defined k kvs :
  forallb (key_before k) (List.map fst kvs) = true ->
  forallb (key_before k) (List.map fst (defined_props kvs)) = true.
Proof.
  induction kvs as [|[k' x] r IH]; [reflexivity|].
  cbn [List.map fst forallb]. intros H. apply andb_true_iff in H as [Hx Hr].
  unfold defined_props. cbn [List.filter snd].
  destruct (negb (is_undefined x)); cbn [List.map fst forallb];
    [rewrite Hx|]; now apply IH.
Qed.

Lemma keys_ordered_defined kvs :
  keys_ordered (List.map fst kvs) = true ->
  keys_ordered (List.map fst (defined_props kvs)) = true.
Proof.
  induction kvs as [|[k x] r IH]; [reflexivity|].
  cbn [List.map fst keys_ordered]. intros H. apply andb_true_iff in H as [Hk Hr].
  unfold defined_props. cbn [List.filter snd].
  destruct (negb (is_undefined x)); cbn [List.map fst keys_ordered];
    [|now apply IH].
  fold (defined_props r). now rewrite keys_before_defined, IH.
Qed.

(** The defined properties of an object with ordered keys and read values
    are a well-formed object. *)
Lemma defined_props_wf kvs :
  keys_ordered (List.map fst kvs) = true ->
  forallb (fun kv => read_value (snd kv)) kvs = true ->
  well_formed (VObj (defined_props kvs)) = true.
Proof.
  intros Hk Hv. cbn [well_formed]. rewrite (keys_ordered_defined _ Hk). cbn [andb].
  clear Hk. induction kvs as [|[k x] r IH]; [reflexivity|].
  cbn [forallb snd] in Hv. apply andb_true_iff in Hv as [Hx Hr].
  unfold defined_props. cbn [List.filter snd].
  destruct x; cbn [is_undefined negb forallb snd]; fold (defined_props r);
    rewrite ?(IH Hr); try reflexivity; unfold read_value in Hx; cbn [is_undefined orb] in Hx;
    now rewrite Hx.
Qed.

Lemma key_before_absent k kvs :
  forallb (key_before k) (List.map fst kvs) = true -> lookup_own k kvs = VUndefined.
Proof.
  induction kvs as [|[k' x] r IH]; [reflexivity|].
  cbn [List.map fst forallb lookup_own]. intros H. apply andb_true_iff in H as [Hx Hr].
  unfold key_before in Hx. apply andb_true_iff in Hx as [Hne _].
  apply negb_true_iff in Hne. rewrite str_eqb_sym, Hne. now apply IH.
Qed.

(** Reading a property of the defined properties. *)
Lemma lookup_defined k kvs :
  keys_ordered (List.map fst kvs) = true ->
  lookup_own k (defined_props kvs) = lookup_own k kvs.
Proof.
  induction kvs as [|[k' x] r IH]; [reflexivity|].
  cbn [List.map fst keys_ordered]. intros H. apply andb_true_iff in H as [Hk Hr].
  unfold defined_props. cbn [List.filter snd]. fold (defined_props r).
  destruct (is_undefined x) eqn:Hu; cbn [negb lookup_own].
  - destruct x; try discriminate Hu. rewrite (IH Hr).
    destruct (str_eqb k k') eqn:E; [|reflexivity].
    apply str_eqb_eq in E. subst k'. now apply key_before_absent.
  - now rewrite (IH Hr).
Qed.

(** What was written for an object parses back to its defined properties. *)
Lemma JSON_parse_stringify_object kvs :
  keys_ordered (List.map fst kvs) = true ->
  forallb (fun kv => read_value (snd kv)) kvs = true ->
  JSON_parse (JSON_stringify (VObj kvs)) = Some (VObj (defined_props kvs)).
Proof.
  intros Hk Hv. unfold JSON_stringify. rewrite <- serialize_defined.
  apply (JSON_parse_stringify (VObj (defined_props kvs))).
  now apply defined_props_wf.
Qed.

Lemma read_value_wf v : well_formed v = true -> read_value v = true.
Proof.
  unfold read_value. intros ->. apply orb_true_r.
Qed.

Lemma opt_prop_read v k : read_value v = true -> read_value (opt_prop v k) = true.
Proof.
  unfold read_value. destruct v; try reflexivity. cbn [is_undefined orb].
  intros H. destruct (opt_prop_wf (VObj kvs) k H) as [-> | ->]; [reflexivity|apply orb_true_r].
Qed.

Lemma opt_index0_read v : read_value v = true -> read_value (opt_index0 v) = true.
Proof.
  unfold read_value. destruct v as [| | | |s|l|kvs]; try reflexivity; cbn [is_undefined orb].
  - destruct s; reflexivity.
  - destruct l as [|x r]; [reflexivity|]. cbn [well_formed forallb opt_index0].
    intros H. apply andb_true_iff in H as [-> _]. apply orb_true_r.
  - intros H. cbn [opt_index0].
    destruct (lookup_own_wf (lit "0") kvs H) as [-> | ->]; [reflexivity|apply orb_true_r].
Qed.

Lemma get_index0_opt v x : get_index0 v = Return x -> x = opt_index0 v.
Proof.
  destruct v as [| | | |s|l|kvs]; cbn; try congruence.
  - destruct s; congruence.
  - destruct l; congruence.
Qed.

Lemma or_else_wf a b :
  read_value a = true -> well_formed b = true -> well_formed (or_else a b) = true.
Proof.
  unfold or_else, read_value. intros Ha Hb.
  destruct (truthy a) eqn:Ht; [|exact Hb].
  destruct a; try discriminate Ht; exact Ha.
Qed.

End StringifyFacts.

(** ** The namespace and the lines *)

Section StoreFacts.

Variable kv : gmap jsstring jsstring.

(** [get] after [put] and after [delete]. *)
Lemma kv_get_insert key text : kv_get (<[key := text]> kv) key = Some text.
Proof.
  unfold kv_get. apply lookup_insert_eq.
Qed.

Lemma kv_get_insert_ne key key' text :
  key <> key' -> kv_get (<[key := text]> kv) key' = kv_get kv key'.
Proof.
  unfold kv_get. apply lookup_insert_ne.
Qed.

Lemma kv_get_delete key : kv_get (delete key kv) key = None.
Proof.
  unfold kv_get. apply lookup_delete_eq.
Qed.

Lemma kv_get_delete_ne key key' :
  key <> key' -> kv_get (delete key kv) key' = kv_get kv key'.
Proof.
  unfold kv_get. apply lookup_delete_ne.
Qed.

(** The key of a group is not the key of the configuration. *)
Lemma group_key_not_CONFIG id : SUBS_GROUP ++ id <> CONFIG.
Proof.
  discriminate.
Qed.

Lemma group_key_inj a b : SUBS_GROUP ++ a = SUBS_GROUP ++ b -> a = b.
Proof.
  apply app_inv_head.
Qed.

End StoreFacts.

Section LineFacts.

(** No line of a split text holds the separator. *)
Lemma split_no_sep_in sep s : List.Forall (fun e => ~ In sep e) (split sep s).
Proof.
  induction s as [|c r IH]; cbn [split].
  - constructor; [intros []|constructor].
  - destruct (c =? sep) eqn:E.
    + constructor; [intros []|exact IH].
    + destruct (split sep r) as [|h t]; [constructor; [|constructor]|].
      * intros [->|[]]. now rewrite N.eqb_refl in E.
      * inversion IH as [|? ? Hh Ht]; subst. constructor; [|exact Ht].
        intros [->|Hin]; [now rewrite N.eqb_refl in E|now apply Hh].
Qed.

Lemma Forall_filter_keep {A} (P : A -> Prop) f l :
  List.Forall P l -> List.Forall P (List.filter f l).
Proof.
  induction 1 as [|x r Hx Hr IH]; cbn [List.filter]; [constructor|].
  destruct (f x); [now constructor|exact IH].
Qed.

(** Splitting what was joined gives the lines back, when no line holds the
    separator and there is a line at all. *)
Lemma split_join sep l :
  List.Forall (fun e => ~ In sep e) l -> l <> [] -> split sep (join [sep] l) = l.
Proof.
  induction 1 as [|x r Hx Hr IH]; [congruence|]. intros _.
  destruct r as [|y r'].
  - cbn [join]. now apply split_no_sep.
  - change (join [sep] (x :: y :: r')) with (x ++ sep :: join [sep] (y :: r')).
    rewrite (split_app _ _ _ Hx). f_equal. now apply IH.
Qed.

Lemma b64_char_not_comma n : b64_char n <> comma.
Proof.
  unfold b64_char, comma.
  repeat match goal with |- context [if ?b then _ else _] => destruct b eqn:? end;
    try lia.
  all: repeat match goal with H : (_ <? _) = _ |- _ => apply N.ltb_lt in H || apply N.ltb_ge in H end; lia.
Qed.

(** The base64 alphabet has no comma. *)
Lemma btoa_no_comma s b : btoa s = Some b -> ~ In comma b.
Proof.
  unfold btoa. destruct (latin1 s); [|discriminate]. intros [= <-] Hin.
  apply in_app_or in Hin as [Hin|Hin].
  - apply in_map_iff in Hin as (n & Hn & _). now apply b64_char_not_comma in Hn.
  - unfold padding in Hin. destruct (length s mod 3)%nat as [|[|[|]]]; cbn in Hin;
      unfold pad, comma in Hin; intuition discriminate.
Qed.

End LineFacts.

(** ** The handlers, step by step *)

(** One step of the inversion of a computation that returned. *)
Ltac bind_step H :=
  match type of H with
  | bind ?c _ = Return _ =>
      let a := fresh "a" in
      let E := fresh "E" in
      apply bind_Return in H as (a & E & H)
  end.

Section FetchedLines.

Variable pf : platform.

(** The entries of a reference are lines. *)
Lemma fetched_lines subUrl : List.Forall (fun e => ~ In nl e) (fetched pf subUrl).
Proof.
  unfold fetched, fetchSubscriptionNodes, fetch, atob_arg.
  destruct (startsWith (lit "data:") subUrl).
  - destruct (atob _); cbn; [apply split_no_sep_in|constructor].
  - destruct (pf_fetch pf subUrl) as [|ok st [text|]]; cbn; [constructor| |].
    + destruct ok; cbn; [|constructor].
      destruct (atob text); cbn; apply Forall_filter_keep, split_no_sep_in.
    + destruct ok; cbn; constructor.
Qed.

(** The fetcher on the embedded reference of a payload that [btoa] made. *)
Lemma data_reference_fetch text payload :
  btoa text = Some payload ->
  fetchSubscriptionNodes pf (lit "data:text/plain;base64," ++ payload)
  = Return (split nl text).
Proof.
  intros Hb. unfold fetchSubscriptionNodes.
  change (startsWith (lit "data:") (lit "data:text/plain;base64," ++ payload)) with true.
  cbv iota.
  change (lit "data:text/plain;base64," ++ payload)
    with (lit "data:text/plain;base64" ++ comma :: payload).
  rewrite split_app by (vm_compute; intuition discriminate).
  rewrite (split_no_sep comma payload (btoa_no_comma _ _ Hb)).
  cbn [nth_error]. unfold atob_arg. rewrite (atob_btoa _ _ Hb). reflexivity.
Qed.

End FetchedLines.

Section FeedFacts.

Variable pf : platform.
Variable kv : gmap jsstring jsstring.

(** The links of a group that was fetched are strings. *)
Lemma map_fetch_link_strings items arrays :
  map_outcome (fetch_link pf) items = Return arrays ->
  exists refs, items = List.map VStr refs.
Proof.
  revert arrays. induction items as [|x r IH]; intros arrays; [now exists []|].
  cbn [map_outcome]. intros H.
  apply bind_Return in H as (y & Hy & H). apply bind_Return in H as (t & Ht & _).
  destruct (IH _ Ht) as [refs ->].
  destruct x; try discriminate. now exists (s :: refs).
Qed.

(** What a 200 answer of the subscription handler says about the store. *)
Lemma handleSubscription_200 groupId :
  status (handleSubscription pf kv groupId) = 200 ->
  exists stored groupData links refs encoded,
    groupId <> []
    /\ kv_get kv (SUBS_GROUP ++ groupId) = Some stored
    /\ JSON_parse stored = Some groupData
    /\ get_prop groupData (lit "links") = Return links
    /\ or_else links (VArr []) = VArr (List.map VStr refs)
    /\ btoa (join [nl] (feed_entries pf refs)) = Some encoded
    /\ handleSubscription pf kv groupId
       = {| status := 200; body := encoded; headers := no_cache_headers |}.
Proof.
  intros H.
  assert (Hid : groupId <> []).
  { intros ->. revert H. unfold handleSubscription. cbn. discriminate. }
  destruct (kv_get kv (SUBS_GROUP ++ groupId)) as [stored|] eqn:Hkv.
  2:{ revert H. unfold handleSubscription. destruct groupId; [congruence|].
      cbn [is_nonempty negb]. rewrite Hkv. cbn. discriminate. }
  destruct stored as [|c s].
  { revert H. unfold handleSubscription. destruct groupId; [congruence|].
    cbn [is_nonempty negb]. rewrite Hkv. cbn. discriminate. }
  destruct (JSON_parse (c :: s)) as [groupData|] eqn:Hp.
  2:{ revert H. unfold handleSubscription. destruct groupId; [congruence|].
      cbn [is_nonempty negb]. rewrite Hkv. cbn [present]. unfold parse. rewrite Hp.
      cbn. discriminate. }
  destruct (get_prop groupData (lit "links")) as [links|e] eqn:Hl.
  2:{ revert H. unfold handleSubscription. destruct groupId; [congruence|].
      cbn [is_nonempty negb]. rewrite Hkv. cbn [present]. unfold parse. rewrite Hp.
      cbn [of_option bind]. rewrite Hl. cbn. discriminate. }
  destruct (or_else links (VArr [])) as [| | | | |items|] eqn:Ho.
  1-5,7:
    revert H; unfold handleSubscription; destruct groupId; [congruence|];
    cbn [is_nonempty negb]; rewrite Hkv; cbn [present]; unfold parse; rewrite Hp;
    cbn [of_option bind]; rewrite Hl; cbn [bind]; rewrite Ho; cbn; discriminate.
  destruct (map_outcome (fetch_link pf) items) as [arrays|e] eqn:Hm.
  2:{ revert H. unfold handleSubscription. destruct groupId; [congruence|].
      cbn [is_nonempty negb]. rewrite Hkv. cbn [present]. unfold parse. rewrite Hp.
      cbn [of_option bind]. rewrite Hl. cbn [bind]. rewrite Ho. cbn [bind].
      rewrite Hm. cbn. discriminate. }
  destruct (map_fetch_link_strings _ _ Hm) as [refs ->].
  pose proof (handleSubscription_links pf kv groupId (c :: s) groupData links refs
                Hid Hkv Hp Hl Ho) as E.
  fold (feed_entries pf refs) in E.
  destruct (btoa (join [nl] (feed_entries pf refs))) as [encoded|] eqn:Hb.
  - exists (c :: s), groupData, links, refs, encoded. repeat split; assumption.
  - rewrite E in H. discriminate.
Qed.

(** The entries of a feed are non-empty lines. *)
Lemma feed_entries_lines refs :
  List.Forall (fun e => e <> [] /\ ~ In nl e) (feed_entries pf refs).
Proof.
  apply List.Forall_forall. intros e He. unfold feed_entries in He.
  apply first_occurrences_In, filter_In in He as [He Hne].
  split; [now destruct e|].
  apply in_concat in He as (l & Hl & He). apply in_map_iff in Hl as (u & <- & _).
  pose proof (fetched_lines pf u) as Hu.
  rewrite List.Forall_forall in Hu. now apply Hu.
Qed.

End FeedFacts.

Section AuthFacts.

Lemma startsWith_skipn p s : startsWith p s = true <-> s = p ++ skipn (length p) s.
Proof.
  revert s. induction p as [|c p IH]; intros s; cbn [startsWith length skipn app].
  - tauto.
  - destruct s as [|d s]; [split; discriminate|].
    rewrite andb_true_iff, N.eqb_eq, IH. cbn [skipn]. split.
    + intros [-> Hs]. now rewrite <- Hs.
    + intros [= -> Hs]. now split.
Qed.

Lemma startsWith_app p s : startsWith p (p ++ s) = true.
Proof.
  induction p as [|c p IH]; cbn; [reflexivity|]. now rewrite N.eqb_refl.
Qed.

Lemma endsWith_app p s : endsWith p (s ++ p) = true.
Proof.
  unfold endsWith. rewrite rev_app_distr. apply startsWith_app.
Qed.

Lemma skipn_app_length (p s : jsstring) : skipn (length p) (p ++ s) = s.
Proof.
  induction p; cbn; auto.
Qed.

Variable kv : gmap jsstring jsstring.

(** The answer of [checkAuth] for a namespace whose CONFIG text parses to a
    configuration with the password value [saved]. *)
Lemma checkAuth_configured req stored config saved :
  kv_get kv CONFIG = Some stored ->
  JSON_parse stored = Some config ->
  get_prop config (lit "password") = Return saved ->
  truthy saved = true ->
  checkAuth kv req =
    match present (req_authorization req) with
    | None => Return (AuthFail (lit "Authorization header is missing.") 401)
    | Some authHeader =>
        if negb (startsWith (lit "Bearer ") authHeader)
        then Return (AuthFail (lit "Authorization header is missing.") 401)
        else if negb (strict_eq (VStr (substring_from 7 authHeader)) saved)
             then Return (AuthFail (lit "Invalid token.") 401)
             else Return AuthOk
    end.
Proof.
  intros Hkv Hp Hs Ht. unfold checkAuth.
  rewrite Hkv, (present_parsed _ _ Hp). unfold parse. rewrite Hp.
  cbn [of_option bind]. rewrite Hs. cbn [bind]. rewrite Ht. reflexivity.
Qed.

(** The guard for a configured string password. *)
Lemma checkAuth_string req stored config password :
  kv_get kv CONFIG = Some stored ->
  JSON_parse stored = Some config ->
  get_prop config (lit "password") = Return (VStr password) ->
  password <> [] ->
  (checkAuth kv req = Return AuthOk
   <-> req_authorization req = Some (lit "Bearer " ++ password))
  /\ (checkAuth kv req = Return AuthOk
      \/ exists m, checkAuth kv req = Return (AuthFail m 401)).
Proof.
  intros Hkv Hp Hs Hne.
  rewrite (checkAuth_configured req stored config (VStr password) Hkv Hp Hs)
    by (now destruct password).
  destruct (req_authorization req) as [[|h t]|]; cbn [present].
  - split; [split; [discriminate|]|eauto]. intros E. discriminate E.
  - destruct (startsWith (lit "Bearer ") (h :: t)) eqn:Hb; cbn [negb].
    + cbn [strict_eq]. destruct (str_eqb _ password) eqn:He; cbn [negb].
      * split; [split; [intros _|reflexivity]|now left].
        apply str_eqb_eq in He. apply startsWith_skipn in Hb.
        rewrite Hb at 1. f_equal. f_equal. exact He.
      * split; [split; [discriminate|]|eauto]. intros E. apply (inj Some) in E.
        apply str_eqb_neq in He. exfalso. apply He. rewrite E.
        apply (skipn_app_length (lit "Bearer ")).
    + split; [split; [discriminate|]|eauto]. intros E. apply (inj Some) in E.
      rewrite E, startsWith_app in Hb. discriminate Hb.
  - split; [split; discriminate|eauto].
Qed.

(** The guard for a configured password that is not a string. *)
Lemma checkAuth_not_string req stored config saved :
  kv_get kv CONFIG = Some stored ->
  JSON_parse stored = Some config ->
  get_prop config (lit "password") = Return saved ->
  truthy saved = true ->
  (forall s, saved <> VStr s) ->
  exists m, checkAuth kv req = Return (AuthFail m 401).
Proof.
  intros Hkv Hp Hs Ht Hn.
  rewrite (checkAuth_configured req stored config saved Hkv Hp Hs Ht).
  destruct (present (req_authorization req)) as [h|]; [|eauto].
  destruct (negb (startsWith _ h)); [eauto|].
  destruct saved; cbn [strict_eq negb]; eauto. now destruct (Hn s).
Qed.

End AuthFacts.

Section AdminSteps.

Variable pf : platform.
Variable kv : gmap jsstring jsstring.
Variable req : request.

(** The body of a request is well-formed. *)
Lemma request_json_wf body : request_json req = Some body -> well_formed body = true.
Proof.
  unfold request_json. destruct (str_eqb _ _); [apply JSON_parse_wf|].
  now intros [= <-].
Qed.

(** A request that is answered went through the guard; when the answer is
    not the guard's, the body and the stored configuration were read. *)
Lemma handleAdminApi_enter action r kv' :
  handleAdminApi pf kv req action = Return (r, kv') ->
  (exists m st, checkAuth kv req = Return (AuthFail m st)
                /\ st <> 200 /\ r = message_response st false m /\ kv' = kv)
  \/ (checkAuth kv req = Return AuthOk /\ request_json req = None
      /\ r = message_response 400 false (lit "Invalid JSON body") /\ kv' = kv)
  \/ (exists body config,
        checkAuth kv req = Return AuthOk /\ request_json req = Some body
        /\ parse (stored_config kv) = Return config).
Proof.
  unfold handleAdminApi. intros H.
  apply bind_Return in H as (auth & Hauth & H).
  destruct auth as [|m st].
  - fold (request_json req) in H. destruct (request_json req) as [body|].
    + fold (stored_config kv) in H.
      apply bind_Return in H as (config & Hc & _).
      right. right. now exists body, config.
    + right. left. now injection H as <- <-.
  - left. exists m, st. injection H as <- <-.
    split; [exact Hauth|]. split; [exact (checkAuth_status _ _ _ _ Hauth)|].
    split; reflexivity.
Qed.

(** The handler past the guard, on one action. *)
Lemma handleAdminApi_saveConfig body config :
  checkAuth kv req = Return AuthOk -> request_json req = Some body ->
  parse (stored_config kv) = Return config ->
  handleAdminApi pf kv req (lit "saveConfig") =
    let* password := get_prop body (lit "password") in
    let* subPath := get_prop body (lit "subPath") in
    let* adminPath := get_prop body (lit "adminPath") in
    let* old := get_prop config (lit "password") in
    let* oldPassword := get_prop body (lit "oldPassword") in
    if truthy old && negb (strict_eq old oldPassword) then
      Return (message_response 403 false msg_old_password, kv)
    else if negb (truthy password) || negb (truthy subPath)
            || negb (truthy adminPath) then
      Return (message_response 400 false msg_all_required, kv)
    else
      Return (message_response 200 true msg_config_saved,
              <[CONFIG := JSON_stringify
                            (VObj [ (lit "password", password); (lit "subPath", subPath);
                                    (lit "adminPath", adminPath) ])]> kv).
Proof.
  intros Ha Hb Hc. unfold handleAdminApi. rewrite Ha. cbn [bind].
  fold (request_json req). rewrite Hb. fold (stored_config kv). rewrite Hc.
  reflexivity.
Qed.

Lemma handleAdminApi_saveGroup body config :
  checkAuth kv req = Return AuthOk -> request_json req = Some body ->
  parse (stored_config kv) = Return config ->
  handleAdminApi pf kv req (lit "saveGroup") =
    let* id := get_prop body (lit "id") in
    let* name := get_prop body (lit "name") in
    let* links := get_prop body (lit "links") in
    if negb (truthy name) || negb (is_array links) then
      Return (message_response 400 false (lit "Invalid group data"), kv)
    else
      let groupId := or_else id (VStr (pf_randomUUID pf)) in
      let* groupId_text := ToString groupId in
      Return (json_response 200
                (VObj [ (lit "success", VBool true);
                        (lit "message", VStr (lit "Group saved"));
                        (lit "id", groupId) ]),
              <[SUBS_GROUP ++ groupId_text :=
                  JSON_stringify (VObj [(lit "name", name); (lit "links", links)])]> kv).
Proof.
  intros Ha Hb Hc. unfold handleAdminApi. rewrite Ha. cbn [bind].
  fold (request_json req). rewrite Hb. fold (stored_config kv). rewrite Hc.
  reflexivity.
Qed.

Lemma handleAdminApi_getGroupDetails body config :
  checkAuth kv req = Return AuthOk -> request_json req = Some body ->
  parse (stored_config kv) = Return config ->
  handleAdminApi pf kv req (lit "getGroupDetails") =
    let* id := get_prop body (lit "id") in
    let* id_text := ToString id in
    match present (kv_get kv (SUBS_GROUP ++ id_text)) with
    | None => Return (message_response 404 false (lit "Group not found"), kv)
    | Some groupDataStr =>
        let* data := parse groupDataStr in
        Return (json_response 200
                  (VObj [(lit "success", VBool true); (lit "data", data)]), kv)
    end.
Proof.
  intros Ha Hb Hc. unfold handleAdminApi. rewrite Ha. cbn [bind].
  fold (request_json req). rewrite Hb. fold (stored_config kv). rewrite Hc.
  reflexivity.
Qed.

Lemma handleAdminApi_deleteGroup body config :
  checkAuth kv req = Return AuthOk -> request_json req = Some body ->
  parse (stored_config kv) = Return config ->
  handleAdminApi pf kv req (lit "deleteGroup") =
    let* id := get_prop body (lit "id") in
    let* id_text := ToString id in
    Return (message_response 200 true (lit "Group deleted"),
            delete (SUBS_GROUP ++ id_text) kv).
Proof.
  intros Ha Hb Hc. unfold handleAdminApi. rewrite Ha. cbn [bind].
  fold (request_json req). rewrite Hb. fold (stored_config kv). rewrite Hc.
  reflexivity.
Qed.

Lemma handleAdminApi_batchImport body config :
  checkAuth kv req = Return AuthOk -> request_json req = Some body ->
  parse (stored_config kv) = Return config ->
  handleAdminApi pf kv req (lit "batchImport") =
    let* groupId := get_prop body (lit "groupId") in
    let* xrayConfig := get_prop body (lit "xrayConfig") in
    let* groupId_text := ToString groupId in
    match present (kv_get kv (SUBS_GROUP ++ groupId_text)) with
    | None => Return (message_response 404 false (lit "Group not found"), kv)
    | Some groupDataStr =>
        let nodes :=
          match ToString xrayConfig with
          | Return text => parseXrayConfig text
          | Throw _ => []
          end in
        match nodes with
        | [] => Return (message_response 400 false msg_no_nodes, kv)
        | _ =>
            let* importedNodesContent := btoa_or_throw (join [nl] nodes) in
            let dataUrl := lit "data:text/plain;base64," ++ importedNodesContent in
            let* groupData := parse groupDataStr in
            let* links := get_prop groupData (lit "links") in
            match groupData, links with
            | VObj props, VArr l =>
                let groupData' :=
                  VObj (obj_set (lit "links") (VArr (l ++ [VStr dataUrl])) props) in
                Return (message_response 200 true (msg_imported (length nodes)),
                        <[SUBS_GROUP ++ groupId_text := JSON_stringify groupData']> kv)
            | _, _ => Throw TypeError
            end
        end
    end.
Proof.
  intros Ha Hb Hc. unfold handleAdminApi. rewrite Ha. cbn [bind].
  fold (request_json req). rewrite Hb. fold (stored_config kv). rewrite Hc.
  reflexivity.
Qed.

End AdminSteps.

Section ConfigFacts.

Lemma get_prop_truthy_wf v k x :
  well_formed v = true -> get_prop v k = Return x -> truthy x = true ->
  well_formed x = true.
Proof.
  intros Hv Hx Ht. apply get_prop_opt in Hx. subst x. now apply truthy_wf.
Qed.

Lemma new_config_wf password subPath adminPath :
  well_formed password = true -> well_formed subPath = true ->
  well_formed adminPath = true ->
  well_formed (new_config password subPath adminPath) = true.
Proof.
  intros H1 H2 H3. unfold new_config. cbn [well_formed List.map fst forallb snd].
  rewrite H1, H2, H3. reflexivity.
Qed.

(** The configuration the handlers read from a namespace that holds one. *)
Lemma stored_config_text (kv : gmap jsstring jsstring) stored config :
  kv_get kv CONFIG = Some stored -> JSON_parse stored = Some config ->
  stored_config kv = stored /\ parse (stored_config kv) = Return config.
Proof.
  intros Hkv Hp. unfold stored_config. rewrite Hkv, (present_parsed _ _ Hp).
  split; [reflexivity|]. unfold parse. now rewrite Hp.
Qed.

Variable pf : platform.
Variable kv : gmap jsstring jsstring.
Variable req : request.

(** What a 200 answer to [saveConfig] says. *)
Lemma saveConfig_200 r kv' :
  handleAdminApi pf kv req (lit "saveConfig") = Return (r, kv') ->
  status r = 200 ->
  exists body config password subPath adminPath old oldPassword,
    checkAuth kv req = Return AuthOk
    /\ request_json req = Some body
    /\ parse (stored_config kv) = Return config
    /\ get_prop body (lit "password") = Return password
    /\ get_prop body (lit "subPath") = Return subPath
    /\ get_prop body (lit "adminPath") = Return adminPath
    /\ get_prop config (lit "password") = Return old
    /\ get_prop body (lit "oldPassword") = Return oldPassword
    /\ (truthy old = true -> strict_eq old oldPassword = true)
    /\ truthy password = true /\ truthy subPath = true /\ truthy adminPath = true
    /\ JSON_parse (JSON_stringify (new_config password subPath adminPath))
       = Some (new_config password subPath adminPath)
    /\ kv' = <[CONFIG := JSON_stringify (new_config password subPath adminPath)]> kv.
Proof.
  intros H Hst.
  destruct (handleAdminApi_enter pf kv req _ r kv' H)
    as [(m & st & _ & Hne & -> & _)|[(_ & _ & -> & _)|(body & config & Ha & Hb & Hc)]];
    [now destruct Hne|discriminate Hst|].
  rewrite (handleAdminApi_saveConfig pf kv req body config Ha Hb Hc) in H.
  repeat bind_step H.
  destruct (truthy a2 && negb (strict_eq a2 a3)) eqn:Hold;
    [injection H as <- <-; discriminate Hst|].
  destruct (negb (truthy a) || negb (truthy a0) || negb (truthy a1)) eqn:Hreq;
    [injection H as <- <-; discriminate Hst|].
  injection H as <- <-.
  apply orb_false_iff in Hreq as [Hreq H3]. apply orb_false_iff in Hreq as [H1 H2].
  apply negb_false_iff in H1, H2, H3.
  pose proof (request_json_wf req body Hb) as Hwf.
  exists body, config, a, a0, a1, a2, a3.
  repeat (split; [assumption|]).
  split.
  { intros Ht. rewrite Ht in Hold. cbn in Hold. now apply negb_false_iff in Hold. }
  repeat (split; [assumption|]).
  split; [|reflexivity].
  apply JSON_parse_stringify, new_config_wf; eapply get_prop_truthy_wf; eassumption.
Qed.

(** The body of a request that [saveConfig] answers with 200 is the parsed
    text of the request. *)
Lemma saveConfig_body body r kv' :
  JSON_parse (req_body req) = Some body ->
  handleAdminApi pf kv req (lit "saveConfig") = Return (r, kv') ->
  status r = 200 ->
  request_json req = Some body.
Proof.
  intros Hp H Hst.
  destruct (saveConfig_200 r kv' H Hst)
    as (body0 & config & password & subPath & adminPath & old & oldPassword
        & _ & Hb & _ & Hpw & _ & _ & _ & _ & _ & Ht & _).
  unfold request_json in *. destruct (str_eqb _ _); [exact Hp|].
  injection Hb as <-. cbn in Hpw. injection Hpw as <-. discriminate Ht.
Qed.

End ConfigFacts.

Section RouterFacts.

Variable pf : platform.
Variable kv : gmap jsstring jsstring.

(** The router with a stored configuration, and with none. *)
Lemma onRequest_configured req stored config subPath adminPath :
  kv_get kv CONFIG = Some stored ->
  JSON_parse stored = Some config ->
  get_prop config (lit "subPath") = Return subPath ->
  get_prop config (lit "adminPath") = Return adminPath ->
  onRequest pf kv req
  = route pf kv req (or_else subPath (VStr (lit "sub")))
      (or_else adminPath (VStr (lit "admin"))).
Proof.
  intros Hkv Hp Hs Ha. unfold onRequest.
  rewrite Hkv, (present_parsed _ _ Hp). unfold parse. rewrite Hp.
  cbn [of_option bind]. rewrite Hs. cbn [bind]. rewrite Ha. reflexivity.
Qed.

Lemma onRequest_unconfigured req :
  present (kv_get kv CONFIG) = None ->
  onRequest pf kv req = route pf kv req (VStr (lit "sub")) (VStr (lit "admin")).
Proof.
  intros Hkv. unfold onRequest. rewrite Hkv. reflexivity.
Qed.

End RouterFacts.

Lemma strict_eq_string s x : strict_eq (VStr s) x = true -> x = VStr s.
Proof.
  destruct x; cbn; try discriminate. intros H. apply str_eqb_eq in H. now subst.
Qed.

Section GroupFacts.

Lemma new_group_wf name links :
  well_formed name = true -> well_formed links = true ->
  well_formed (new_group name links) = true.
Proof.
  intros H1 H2. unfold new_group. cbn [well_formed List.map fst forallb snd].
  rewrite H1, H2. reflexivity.
Qed.

Lemma get_prop_array_wf v k l :
  well_formed v = true -> get_prop v k = Return (VArr l) ->
  well_formed (VArr l) = true.
Proof.
  intros Hv Hx. apply get_prop_opt in Hx.
  destruct (opt_prop_wf v k Hv) as [E|E]; rewrite <- Hx in E; [discriminate|exact E].
Qed.

(** Reading a property after setting one. *)
Lemma lookup_obj_set k v kvs : lookup_own k (obj_set k v kvs) = v.
Proof.
  induction kvs as [|[k' v'] r IH]; cbn [obj_set lookup_own].
  - now rewrite str_eqb_refl.
  - destruct (str_eqb k k') eqn:E; [cbn [lookup_own]; now rewrite str_eqb_refl|].
    destruct (array_index k) as [i|]; [destruct (array_index k') as [j|]|].
    + destruct (i <? j); cbn [lookup_own]; [now rewrite str_eqb_refl|now rewrite E].
    + cbn [lookup_own]. now rewrite str_eqb_refl.
    + cbn [lookup_own]. now rewrite E.
Qed.

Lemma lookup_obj_set_ne k k0 v kvs :
  k0 <> k -> lookup_own k0 (obj_set k v kvs) = lookup_own k0 kvs.
Proof.
  intros Hne. apply str_eqb_neq in Hne.
  induction kvs as [|[k' v'] r IH]; cbn [obj_set lookup_own].
  - now rewrite Hne.
  - destruct (str_eqb k k') eqn:E.
    { apply str_eqb_eq in E. subst k'. cbn [lookup_own]. now rewrite Hne. }
    destruct (array_index k) as [i|]; [destruct (array_index k') as [j|]|].
    + destruct (i <? j); cbn [lookup_own]; [now rewrite Hne|now rewrite IH].
    + cbn [lookup_own]. now rewrite Hne.
    + cbn [lookup_own]. now rewrite IH.
Qed.

Lemma stored_config_insert_group (kv : gmap jsstring jsstring) id text :
  stored_config (<[SUBS_GROUP ++ id := text]> kv) = stored_config kv.
Proof.
  assert (E : kv_get (<[SUBS_GROUP ++ id := text]> kv) CONFIG = kv_get kv CONFIG)
    by apply kv_get_insert_ne, group_key_not_CONFIG.
  unfold stored_config. now rewrite E.
Qed.

(** The subscription handler reads the key of its group only. *)
Lemma handleSubscription_frame (pf : platform) (kv1 kv2 : gmap jsstring jsstring) groupId :
  kv_get kv1 (SUBS_GROUP ++ groupId) = kv_get kv2 (SUBS_GROUP ++ groupId) ->
  handleSubscription pf kv1 groupId = handleSubscription pf kv2 groupId.
Proof.
  intros H. unfold handleSubscription. now rewrite H.
Qed.

Variable pf : platform.
Variable kv : gmap jsstring jsstring.
Variable req : request.

(** What a 200 answer to [saveGroup] says. *)
Lemma saveGroup_200 r kv' :
  handleAdminApi pf kv req (lit "saveGroup") = Return (r, kv') ->
  status r = 200 ->
  exists body config id name l id_text,
    checkAuth kv req = Return AuthOk
    /\ request_json req = Some body
    /\ parse (stored_config kv) = Return config
    /\ get_prop body (lit "id") = Return id
    /\ get_prop body (lit "name") = Return name
    /\ get_prop body (lit "links") = Return (VArr l)
    /\ truthy name = true
    /\ ToString (or_else id (VStr (pf_randomUUID pf))) = Return id_text
    /\ JSON_parse (JSON_stringify (new_group name (VArr l))) = Some (new_group name (VArr l))
    /\ r = json_response 200
             (VObj [ (lit "success", VBool true);
                     (lit "message", VStr (lit "Group saved"));
                     (lit "id", or_else id (VStr (pf_randomUUID pf))) ])
    /\ kv' = <[SUBS_GROUP ++ id_text := JSON_stringify (new_group name (VArr l))]> kv.
Proof.
  intros H Hst.
  destruct (handleAdminApi_enter pf kv req _ r kv' H)
    as [(m & st & _ & Hne & -> & _)|[(_ & _ & -> & _)|(body & config & Ha & Hb & Hc)]];
    [now destruct Hne|discriminate Hst|].
  rewrite (handleAdminApi_saveGroup pf kv req body config Ha Hb Hc) in H.
  repeat bind_step H.
  destruct (negb (truthy a0) || negb (is_array a1)) eqn:Hreq;
    [injection H as <- <-; discriminate Hst|].
  cbv zeta in H. bind_step H. injection H as <- <-.
  apply orb_false_iff in Hreq as [H1 H2]. apply negb_false_iff in H1, H2.
  destruct a1 as [| | | | |l|]; try discriminate H2.
  pose proof (request_json_wf req body Hb) as Hwf.
  exists body, config, a, a0, l, a2.
  repeat (split; [assumption|]).
  split; [|split; reflexivity].
  apply JSON_parse_stringify, new_group_wf.
  - eapply get_prop_truthy_wf; eassumption.
  - eapply get_prop_array_wf; eassumption.
Qed.

End GroupFacts.

Section ImportFacts.

(** A loop that returned ran every turn; a turn that throws ends the loop. *)
Lemma map_outcome_Forall2 {A B} (f : A -> outcome B) l ys :
  map_outcome f l = Return ys -> List.Forall2 (fun x y => f x = Return y) l ys.
Proof.
  revert ys. induction l as [|x r IH]; intros ys; cbn [map_outcome].
  - intros [= <-]. constructor.
  - intros H. apply bind_Return in H as (y & Hy & H).
    apply bind_Return in H as (t & Ht & H). apply Return_inj in H. subst ys.
    constructor; [exact Hy|now apply IH].
Qed.

Lemma map_outcome_Throw {A B} (f : A -> outcome B) l x e :
  In x l -> f x = Throw e -> exists e', map_outcome f l = Throw e'.
Proof.
  induction l as [|y r IH]; intros Hin Hx; [destruct Hin|].
  cbn [map_outcome]. destruct Hin as [->|Hin].
  - rewrite Hx. cbn. eauto.
  - destruct (f y); cbn; [|eauto]. destruct (IH Hin Hx) as [e' ->]. cbn. eauto.
Qed.

(** The scheme markers of the two kinds of link. *)
Lemma vmess_link_scheme outbound remark server link :
  vmess_link outbound remark server = Return link -> has_scheme link = true.
Proof.
  unfold vmess_link. intros H. repeat bind_step H. apply Return_inj in H. now subst.
Qed.

Lemma vless_link_scheme outbound remark server link :
  vless_link outbound remark server = Return link -> has_scheme link = true.
Proof.
  unfold vless_link. intros H. repeat bind_step H. apply Return_inj in H. now subst.
Qed.

(** The links of one outbound: one for each of its endpoints, each with a
    scheme. *)
Lemma outbound_links_Return outbound links :
  outbound_links outbound = Return links ->
  length links = length (endpoints outbound)
  /\ forallb has_scheme links = true.
Proof.
  unfold outbound_links, endpoints. intros H. repeat bind_step H.
  apply get_prop_opt in E0, E1. subst a0 a1.
  destruct (strict_eq_str (opt_prop outbound (lit "protocol")) (lit "vmess")) eqn:Hvm.
  - cbn [orb andb] in *.
    destruct (truthy (opt_prop (opt_prop outbound (lit "settings")) (lit "vnext"))).
    + bind_step H. rewrite E0. clear E0. apply map_outcome_Forall2 in H.
      induction H as [|x y r t Hxy _ IH]; [now split|].
      destruct IH as [IH1 IH2]. cbn [length forallb]. split; [now rewrite IH1|].
      now rewrite (vmess_link_scheme _ _ _ _ Hxy), IH2.
    + cbn [andb] in H.
      destruct (strict_eq_str _ (lit "vless")); cbn [andb] in H;
        apply Return_inj in H; now subst.
  - cbn [orb andb] in *.
    destruct (strict_eq_str (opt_prop outbound (lit "protocol")) (lit "vless")).
    + cbn [andb] in *.
      destruct (truthy (opt_prop (opt_prop outbound (lit "settings")) (lit "vnext"))).
      * bind_step H. rewrite E0. clear E0. apply map_outcome_Forall2 in H.
        induction H as [|x y r t Hxy _ IH]; [now split|].
        destruct IH as [IH1 IH2]. cbn [length forallb]. split; [now rewrite IH1|].
        now rewrite (vless_link_scheme _ _ _ _ Hxy), IH2.
      * apply Return_inj in H. now subst.
    + cbn [andb] in *. apply Return_inj in H. now subst.
Qed.

(** The importer returns nothing, or the links of the outbounds of a
    configuration that parsed. *)
Lemma parseXrayConfig_cases configStr :
  parseXrayConfig configStr = []
  \/ exists config items arrays,
       JSON_parse configStr = Some config
       /\ get_prop config (lit "outbounds") = Return (VArr items)
       /\ map_outcome outbound_links items = Return arrays
       /\ parseXrayConfig configStr = List.concat arrays.
Proof.
  unfold parseXrayConfig, parse.
  destruct (JSON_parse configStr) as [config|]; cbn [of_option bind]; [|now left].
  destruct (get_prop config (lit "outbounds")) as [outbounds|e] eqn:Ho;
    cbn [bind]; [|now left].
  destruct outbounds as [| | |n|s|items|]; try (now left).
  - destruct b; now left.
  - cbn [truthy is_array negb orb]. rewrite orb_true_r. now left.
  - cbn [truthy is_array negb orb]. rewrite orb_true_r. now left.
  - cbn [truthy is_array negb orb iterate bind].
    destruct (map_outcome outbound_links items) as [arrays|e] eqn:Hm;
      cbn [bind]; [|now left].
    right. exists config, items, arrays.
    split; [reflexivity|]. split; [exact Ho|]. split; [exact Hm|reflexivity].
Qed.

End ImportFacts.

Section PathFacts.

(** The segments of a path of two and of four parts. *)
Lemma segments_two a b :
  a <> [] -> b <> [] -> ~ In slash a -> ~ In slash b ->
  List.filter is_nonempty (split slash ([slash] ++ a ++ [slash] ++ b)) = [a; b].
Proof.
  intros Ha Hb Hsa Hsb.
  change ([slash] ++ a ++ [slash] ++ b) with ([] ++ slash :: (a ++ slash :: b)).
  rewrite split_app by (intros []). rewrite (split_app _ _ _ Hsa).
  rewrite (split_no_sep _ _ Hsb).
  destruct a; [congruence|]. destruct b; [congruence|]. reflexivity.
Qed.

Lemma segments_admin action tail :
  action <> [] -> ~ In slash action ->
  exists rest,
    List.filter is_nonempty
      (split slash (lit "/admin/api/" ++ action ++ [slash] ++ tail))
    = lit "admin" :: lit "api" :: action :: rest.
Proof.
  intros Ha Hs.
  change (lit "/admin/api/" ++ action ++ [slash] ++ tail)
    with ([] ++ slash :: (lit "admin" ++ slash :: (lit "api" ++ slash :: (action ++ slash :: tail)))).
  rewrite split_app by (intros []).
  rewrite split_app by (vm_compute; intuition discriminate).
  rewrite split_app by (vm_compute; intuition discriminate).
  rewrite (split_app _ _ _ Hs).
  destruct action; [congruence|]. eexists. reflexivity.
Qed.

End PathFacts.

Section ListingFacts.

Variable pf : platform.
Variable kv : gmap jsstring jsstring.
Variable req : request.

(** The listing past the guard. *)
Lemma handleAdminApi_getGroups body config :
  checkAuth kv req = Return AuthOk -> request_json req = Some body ->
  parse (stored_config kv) = Return config ->
  handleAdminApi pf kv req (lit "getGroups") =
    Return (json_response 200
              (VObj [ (lit "success", VBool true);
                      (lit "data", VArr (omap (group_summary kv) (pf_list pf SUBS_GROUP kv))) ]),
            kv).
Proof.
  intros Ha Hb Hc. unfold handleAdminApi. rewrite Ha. cbn [bind].
  fold (request_json req). rewrite Hb. fold (stored_config kv). rewrite Hc.
  reflexivity.
Qed.

Lemma In_omap {A B} (f : A -> option B) l x y :
  In x l -> f x = Some y -> In y (omap f l).
Proof.
  intros Hin Hx. induction l as [|z r IH]; [destruct Hin|].
  cbn [omap list_omap]. destruct Hin as [->|Hin].
  - rewrite Hx. now left.
  - destruct (f z); [right|]; now apply IH.
Qed.

Lemma replace_first_prefix pat s : replace_first pat [] (pat ++ s) = s.
Proof.
  destruct pat as [|c p]; [destruct s; reflexivity|].
  cbn [replace_first app]. change (c :: p ++ s) with ((c :: p) ++ s).
  rewrite startsWith_app. apply skipn_app_length.
Qed.

(** The entry of the listing for a group text that [saveGroup] wrote. *)
Lemma group_summary_saved id_text stored name l :
  kv_get kv (SUBS_GROUP ++ id_text) = Some stored ->
  JSON_parse stored = Some (new_group name (VArr l)) ->
  group_summary kv (SUBS_GROUP ++ id_text)
  = Some (VObj [ (lit "id", VStr id_text); (lit "name", name);
                 (lit "linkCount", VNum (Z.of_nat (length l))) ]).
Proof.
  intros Hkv Hp. unfold group_summary. rewrite Hkv. unfold parse. rewrite Hp.
  cbn [of_option bind]. rewrite replace_first_prefix. reflexivity.
Qed.

End ListingFacts.

Section VmessFacts.

(** A vmess link is the marker and the base64 of the printed descriptor. *)
Lemma vmess_link_fields outbound server link :
  vmess_link outbound (outbound_remark outbound) server = Return link ->
  exists payload,
    link = lit "vmess://" ++ payload
    /\ btoa (JSON_stringify (VObj (vmess_fields outbound server))) = Some payload.
Proof.
  unfold vmess_link. intros H. repeat bind_step H.
  apply Return_inj in H. subst link.
  apply get_prop_opt in E, E0, E1, E2, E4, E5, E6.
  apply get_index0_opt in E3. subst.
  eexists. split; [reflexivity|]. now apply btoa_or_throw_Return.
Qed.

(** The fields of a descriptor are read values. *)
Lemma vmess_fields_read outbound server :
  well_formed outbound = true -> well_formed server = true ->
  forallb (fun kv => read_value (snd kv)) (vmess_fields outbound server) = true.
Proof.
  intros Ho Hs. apply read_value_wf in Ho, Hs.
  assert (Hr : well_formed (outbound_remark outbound) = true)
    by (apply or_else_wf; [now apply opt_prop_read|reflexivity]).
  unfold vmess_fields. cbn [forallb snd].
  repeat (apply andb_true_iff; split); try reflexivity;
    repeat first [ apply read_value_wf, or_else_wf | apply or_else_wf
                 | apply opt_prop_read | apply opt_index0_read
                 | assumption | reflexivity ].
  destruct (strict_eq_str _ _); reflexivity.
Qed.

(** A vmess link decodes to the JSON text of its descriptor, and that text
    parses to the defined fields of the descriptor. *)
Lemma vmess_link_decodes outbound server link :
  well_formed outbound = true -> well_formed server = true ->
  vmess_link outbound (outbound_remark outbound) server = Return link ->
  exists text fields,
    atob (skipn 8 link) = Some text
    /\ JSON_parse text = Some (VObj fields)
    /\ forall k, lookup_own k fields = lookup_own k (vmess_fields outbound server).
Proof.
  intros Ho Hs H. destruct (vmess_link_fields _ _ _ H) as (payload & -> & Hb).
  exists (JSON_stringify (VObj (vmess_fields outbound server))),
         (defined_props (vmess_fields outbound server)).
  split; [exact (atob_btoa _ _ Hb)|]. split.
  - apply JSON_parse_stringify_object; [reflexivity|now apply vmess_fields_read].
  - intros k. now apply lookup_defined.
Qed.

(** A vless link does not start with the vmess marker. *)
Lemma vless_link_not_vmess outbound remark server link :
  vless_link outbound remark server = Return link ->
  startsWith (lit "vmess://") link = false.
Proof.
  unfold vless_link. intros H. repeat bind_step H. apply Return_inj in H. now subst.
Qed.

Lemma Forall2_In_r {A B} (R : A -> B -> Prop) l ys y :
  List.Forall2 R l ys -> In y ys -> exists x, In x l /\ R x y.
Proof.
  induction 1 as [|x y' r t Hxy _ IH]; intros Hin; [destruct Hin|].
  destruct Hin as [->|Hin]; [exists x; split; [now left|exact Hxy]|].
  destruct (IH Hin) as (x' & Hx' & HR). exists x'. split; [now right|exact HR].
Qed.

(** A vmess link of an outbound is the link of one of its endpoints. *)
Lemma outbound_links_vmess outbound links link :
  outbound_links outbound = Return links -> In link links ->
  startsWith (lit "vmess://") link = true ->
  exists server,
    In server (endpoints outbound)
    /\ vmess_link outbound (outbound_remark outbound) server = Return link.
Proof.
  unfold outbound_links, endpoints, outbound_remark. intros H Hin Hv.
  repeat bind_step H. apply get_prop_opt in E, E0, E1. subst a a0 a1.
  destruct (strict_eq_str (opt_prop outbound (lit "protocol")) (lit "vmess")).
  - cbn [orb andb] in *.
    destruct (truthy (opt_prop (opt_prop outbound (lit "settings")) (lit "vnext"))).
    + bind_step H. rewrite E. apply map_outcome_Forall2 in H.
      exact (Forall2_In_r _ _ _ _ H Hin).
    + cbn [andb] in H.
      destruct (strict_eq_str _ (lit "vless")); cbn [andb] in H;
        apply Return_inj in H; subst links; destruct Hin.
  - cbn [orb andb] in *.
    destruct (strict_eq_str (opt_prop outbound (lit "protocol")) (lit "vless")).
    + cbn [andb] in *.
      destruct (truthy (opt_prop (opt_prop outbound (lit "settings")) (lit "vnext"))).
      * bind_step H. apply map_outcome_Forall2 in H.
        destruct (Forall2_In_r _ _ _ _ H Hin) as (server & _ & Hl).
        apply vless_link_not_vmess in Hl. rewrite Hl in Hv. discriminate Hv.
      * apply Return_inj in H. subst links. destruct Hin.
    + cbn [andb] in *. apply Return_inj in H. subst links. destruct Hin.
Qed.

Lemma string_iter_wf s : forallb well_formed (List.map VStr (string_iter s)) = true.
Proof.
  induction (string_iter s) as [|x r IH]; [reflexivity|]. cbn. exact IH.
Qed.

Lemma iterate_wf v l :
  read_value v = true -> iterate v = Return l -> forallb well_formed l = true.
Proof.
  destruct v; try discriminate; cbn [iterate].
  - intros _ [= <-]. apply string_iter_wf.
  - intros H [= <-]. exact H.
Qed.

(** The endpoints of a well-formed outbound are well-formed. *)
Lemma endpoints_wf outbound server :
  well_formed outbound = true -> In server (endpoints outbound) ->
  well_formed server = true.
Proof.
  intros Ho. unfold endpoints.
  destruct (_ && _); [|intros []].
  destruct (iterate _) as [servers|e] eqn:Hi; [|intros []].
  apply iterate_wf in Hi; [|now apply opt_prop_read, opt_prop_read, read_value_wf].
  rewrite forallb_forall in Hi. apply Hi.
Qed.

End VmessFacts.

(** * The import of one vmess outbound *)

Section SingleOutbound.

Lemma get_prop_defined v k :
  nullish v = false -> get_prop v k = Return (opt_prop v k).
Proof. destruct v; intros H; try discriminate H; reflexivity. Qed.

Lemma opt_prop_defined v k : opt_prop v k <> VUndefined -> nullish v = false.
Proof. destruct v; intros H; try reflexivity; now contradiction H. Qed.

Lemma get_index0_defined v :
  nullish (opt_index0 v) = false -> get_index0 v = Return (opt_index0 v).
Proof.
  destruct v as [| | | |s|l|kvs]; cbn [opt_index0 get_index0 nullish];
    try discriminate; try reflexivity.
  - destruct s; [discriminate|reflexivity].
  - destruct l; [discriminate|reflexivity].
Qed.

(** The link of an endpoint whose descriptor [btoa] accepts. *)
Lemma vmess_link_Return outbound server payload :
  nullish outbound = false -> nullish server = false ->
  nullish (opt_index0 (opt_prop server (lit "users"))) = false ->
  btoa (JSON_stringify (VObj (vmess_fields outbound server))) = Some payload ->
  vmess_link outbound (outbound_remark outbound) server
  = Return (lit "vmess://" ++ payload).
Proof.
  intros Ho Hs Hu Hb. unfold vmess_link.
  rewrite !(get_prop_defined server) by exact Hs. cbn [bind].
  rewrite get_index0_defined by exact Hu. cbn [bind].
  rewrite !(get_prop_defined _ _ Hu). cbn [bind].
  rewrite (get_prop_defined outbound) by exact Ho. cbn [bind].
  fold (outbound_remark outbound).
  change (VObj _) with (VObj (vmess_fields outbound server)).
  unfold btoa_or_throw. rewrite Hb. reflexivity.
Qed.

(** An outbound that is passed over contributes no link. *)
Lemma outbound_links_passed_over outbound :
  passed_over outbound = true -> outbound_links outbound = Return [].
Proof.
  unfold passed_over. intros H.
  apply andb_true_iff in H as [H Hl]. apply andb_true_iff in H as [Hn Hm].
  apply negb_true_iff in Hn, Hm, Hl.
  unfold outbound_links. rewrite !(get_prop_defined outbound) by exact Hn.
  cbn [bind]. now rewrite Hm, Hl.
Qed.

(** The links of a vmess outbound with one endpoint. *)
Lemma outbound_links_single outbound server link :
  opt_prop outbound (lit "protocol") = VStr (lit "vmess") ->
  endpoints outbound = [server] ->
  vmess_link outbound (outbound_remark outbound) server = Return link ->
  outbound_links outbound = Return [link].
Proof.
  intros Hp He Hl.
  assert (Hn : nullish outbound = false)
    by (apply (opt_prop_defined _ (lit "protocol")); rewrite Hp; discriminate).
  unfold endpoints in He. rewrite Hp in He. cbn [strict_eq_str] in He.
  change (str_eqb (lit "vmess") (lit "vmess")) with true in He. cbn [orb andb] in He.
  unfold outbound_links. rewrite !(get_prop_defined outbound) by exact Hn.
  cbn [bind]. rewrite Hp. cbn [strict_eq_str].
  change (str_eqb (lit "vmess") (lit "vmess")) with true. cbn [andb].
  destruct (truthy (opt_prop (opt_prop outbound (lit "settings")) (lit "vnext")));
    [|discriminate He].
  destruct (iterate _) as [servers|e]; [|discriminate He]. subst servers.
  cbn [bind map_outcome]. fold (outbound_remark outbound). rewrite Hl. reflexivity.
Qed.

Lemma map_outcome_nothing {A B} (f : A -> outcome (list B)) l :
  List.Forall (fun x => f x = Return []) l ->
  exists arrays, map_outcome f l = Return arrays /\ List.concat arrays = [].
Proof.
  induction 1 as [|x r Hx _ (arrays & E & Hc)]; [now exists []|].
  exists ([] :: arrays). cbn [map_outcome]. rewrite Hx, E. cbn [bind]. now split.
Qed.

Lemma map_outcome_one {A B} (f : A -> outcome (list B)) before x after ys :
  List.Forall (fun x => f x = Return []) (before ++ after) ->
  f x = Return ys ->
  exists arrays,
    map_outcome f (before ++ x :: after) = Return arrays /\ List.concat arrays = ys.
Proof.
  intros Hall Hx. apply List.Forall_app in Hall as [Hb Ha].
  induction Hb as [|b r Hb0 _ (arrays & E & Hc)].
  - destruct (map_outcome_nothing f after Ha) as (arrays & E & Hc).
    exists (ys :: arrays). cbn [app map_outcome]. rewrite Hx, E. cbn [bind].
    split; [reflexivity|]. cbn [List.concat]. rewrite Hc. apply app_nil_r.
  - exists ([] :: arrays). cbn [app map_outcome]. rewrite Hb0, E. cbn [bind]. now split.
Qed.

(** The importer on a configuration of which one outbound contributes. *)
Lemma parseXrayConfig_one configStr config before outbound after links :
  JSON_parse configStr = Some config ->
  outbounds_of config = before ++ outbound :: after ->
  List.Forall (fun o => passed_over o = true) (before ++ after) ->
  outbound_links outbound = Return links ->
  parseXrayConfig configStr = links.
Proof.
  intros Hp Ho Hall Hl. unfold parseXrayConfig, parse. rewrite Hp.
  cbn [of_option bind].
  unfold outbounds_of in Ho.
  destruct config as [| | | | | |kvs]; try (now destruct before).
  cbn [opt_prop get_prop bind] in *.
  destruct (lookup_own (lit "outbounds") kvs) as [| | | | |items|];
    try (now destruct before).
  subst items. cbn [truthy is_array negb orb iterate bind].
  destruct (map_outcome_one outbound_links before outbound after links) as (arrays & E & Hc).
  - eapply List.Forall_impl; [|exact Hall]. intros o. apply outbound_links_passed_over.
  - exact Hl.
  - rewrite E. cbn [bind]. exact Hc.
Qed.

(** The address, the port and the user id of a descriptor. *)
Lemma vmess_fields_endpoint outbound server :
  lookup_own (lit "add") (vmess_fields outbound server) = opt_prop server (lit "address")
  /\ lookup_own (lit "port") (vmess_fields outbound server) = opt_prop server (lit "port")
  /\ lookup_own (lit "id") (vmess_fields outbound server)
     = opt_prop (opt_index0 (opt_prop server (lit "users"))) (lit "id").
Proof. repeat split. Qed.

End SingleOutbound.

(** C7 (amended): for every configuration text that parses, whose outbounds
    hold one vmess outbound with exactly one server endpoint - the address a
    string, the port a number, the first user's id a string - and otherwise
    only outbounds that are not null and of other protocols than vmess and
    vless, and whose descriptor prints with code units up to 255 only, the
    import yields exactly one link: it starts with vmess://, the rest
    decodes from base64 to a JSON text, and the value of that text has the
    endpoint's address as add, its port as port and its first user's id as
    id. *)
Theorem one_vmess_outbound_imports
    (configStr : jsstring) (config : value) (before after : list value)
    (outbound server : value) (address id : jsstring) (port : Z) :
  JSON_parse configStr = Some config ->
  outbounds_of config = before ++ outbound :: after ->
  List.Forall (fun o => passed_over o = true) (before ++ after) ->
  opt_prop outbound (lit "protocol") = VStr (lit "vmess") ->
  endpoints outbound = [server] ->
  opt_prop server (lit "address") = VStr address ->
  opt_prop server (lit "port") = VNum port ->
  opt_prop (opt_index0 (opt_prop server (lit "users"))) (lit "id") = VStr id ->
  latin1 (JSON_stringify (VObj (vmess_fields outbound server))) = true ->
  exists payload text descriptor,
    parseXrayConfig configStr = [lit "vmess://" ++ payload]
    /\ atob payload = Some text
    /\ JSON_parse text = Some descriptor
    /\ opt_prop descriptor (lit "add") = VStr address
    /\ opt_prop descriptor (lit "port") = VNum port
    /\ opt_prop descriptor (lit "id") = VStr id.
Proof.
  intros Hp Ho Hall Hproto He Haddr Hport Hid Hlat.
  destruct (btoa_latin1 _ Hlat) as [payload Hb].
  assert (Hno : nullish outbound = false)
    by (apply (opt_prop_defined _ (lit "protocol")); rewrite Hproto; discriminate).
  assert (Hns : nullish server = false)
    by (apply (opt_prop_defined _ (lit "address")); rewrite Haddr; discriminate).
  assert (Hnu : nullish (opt_index0 (opt_prop server (lit "users"))) = false)
    by (apply (opt_prop_defined _ (lit "id")); rewrite Hid; discriminate).
  pose proof (vmess_link_Return outbound server payload Hno Hns Hnu Hb) as Hlink.
  pose proof (outbound_links_single outbound server _ Hproto He Hlink) as Hlinks.
  pose proof (parseXrayConfig_one _ _ _ _ _ _ Hp Ho Hall Hlinks) as Himport.
  assert (Hin : In outbound (outbounds_of config))
    by (rewrite Ho; apply in_elt).
  assert (Hwo : well_formed outbound = true).
  { pose proof (JSON_parse_wf _ _ Hp) as Hwf. unfold outbounds_of in Hin.
    destruct (opt_prop_wf config (lit "outbounds") Hwf) as [Hu|Hw].
    - rewrite Hu in Hin. destruct Hin.
    - destruct (opt_prop config (lit "outbounds")); try (now destruct Hin).
      cbn [well_formed] in Hw. rewrite forallb_forall in Hw. now apply Hw. }
  assert (Hws : well_formed server = true)
    by (apply (endpoints_wf outbound server Hwo); rewrite He; now left).
  destruct (vmess_link_decodes _ _ _ Hwo Hws Hlink) as (text & fields & Ha & Hj & Hf).
  exists payload, text, (VObj fields).
  split; [exact Himport|]. split; [exact Ha|]. split; [exact Hj|].
  destruct (vmess_fields_endpoint outbound server) as (Fa & Fp & Fi).
  cbn [opt_prop]. rewrite !Hf, Fa, Fp, Fi.
  split; [exact Haddr|]. split; [exact Hport|exact Hid].
Qed.

Lemma one_vmess_outbound_imports_witness :
  exists payload text descriptor,
    parseXrayConfig xray_config = [lit "vmess://" ++ payload]
    /\ atob payload = Some text
    /\ JSON_parse text = Some descriptor
    /\ opt_prop descriptor (lit "add") = VStr (lit "h")
    /\ opt_prop descriptor (lit "port") = VNum 443
    /\ opt_prop descriptor (lit "id") = VStr (lit "u1").
Proof.
  apply (one_vmess_outbound_imports xray_config (parsed xray_config)
           [nth 0 (outbounds_of (parsed xray_config)) VUndefined]
           [nth 2 (outbounds_of (parsed xray_config)) VUndefined]
           (nth 1 (outbounds_of (parsed xray_config)) VUndefined)
           (nth 0 (endpoints (nth 1 (outbounds_of (parsed xray_config)) VUndefined))
              VUndefined)).
  - vm_compute. reflexivity.
  - vm_compute. reflexivity.
  - repeat constructor.
  - vm_compute. reflexivity.
  - vm_compute. reflexivity.
  - vm_compute. reflexivity.
  - vm_compute. reflexivity.
  - vm_compute. reflexivity.
  - vm_compute. reflexivity.
Defined.

(** * Further properties: the handlers one by one *)

(** ** The fetcher *)

(** X1: no entry the fetcher returns holds a newline, whatever the reference
    and whatever the network answers: entries are lines. *)
Theorem fetched_entries_are_lines (pf : platform) (subUrl : jsstring) :
  exists entries,
    fetchSubscriptionNodes pf subUrl = Return entries
    /\ List.Forall (fun e => ~ In nl e) entries.
Proof.
  exists (fetched pf subUrl). split; [apply fetched_spec|apply fetched_lines].
Qed.

(** X2: the embedded reference the importer builds for a text (the data:
    prefix and the base64 of the text) is read back by the fetcher as the
    lines of that text, without the network. *)
Theorem embedded_reference_round_trip (pf : platform) (text payload : jsstring) :
  btoa text = Some payload ->
  fetchSubscriptionNodes pf (data_url payload) = Return (split nl text).
Proof.
  apply data_reference_fetch.
Qed.

Lemma embedded_reference_round_trip_witness :
  fetchSubscriptionNodes offline (data_url (lit "QQpC"))
  = Return (split nl (lit "A" ++ [nl] ++ lit "B")).
Proof.
  apply (embedded_reference_round_trip offline (lit "A" ++ [nl] ++ lit "B") (lit "QQpC")).
  vm_compute. reflexivity.
Defined.

(** ** The aggregator *)

(** X3: a feed decodes to its entries: the body of a 200 answer is base64
    that decodes to the newline-join of entries that are pairwise distinct,
    non-empty and without a newline, so that splitting the decoded text on
    newlines gives these entries back (when there is one at all). *)
Theorem feed_round_trip
    (pf : platform) (kv : gmap jsstring jsstring) (groupId : jsstring) :
  status (handleSubscription pf kv groupId) = 200 ->
  exists entries,
    atob (body (handleSubscription pf kv groupId)) = Some (join [nl] entries)
    /\ List.NoDup entries
    /\ List.Forall (fun e => e <> [] /\ ~ In nl e) entries
    /\ (entries <> [] -> split nl (join [nl] entries) = entries).
Proof.
  intros H.
  destruct (handleSubscription_200 pf kv groupId H)
    as (stored & groupData & links & refs & encoded & _ & _ & _ & _ & _ & Hb & ->).
  exists (feed_entries pf refs). cbn [body].
  split; [now apply atob_btoa|]. split; [apply first_occurrences_NoDup|].
  split; [apply feed_entries_lines|].
  apply split_join. eapply List.Forall_impl; [|apply (feed_entries_lines pf)].
  now intros e [_ He].
Qed.

Lemma feed_round_trip_witness :
  exists entries,
    atob (body (handleSubscription offline
                  (store_with_group [lit "data:text/plain;base64,QQpCCkE="]) (lit "g1")))
    = Some (join [nl] entries)
    /\ List.NoDup entries
    /\ List.Forall (fun e => e <> [] /\ ~ In nl e) entries
    /\ (entries <> [] -> split nl (join [nl] entries) = entries).
Proof.
  apply (feed_round_trip offline
           (store_with_group [lit "data:text/plain;base64,QQpCCkE="]) (lit "g1")).
  vm_compute. reflexivity.
Defined.

(** X4: for a stored group whose text parses, the subscription handler
    answers 200 exactly when the id is not empty, the links are absent
    (falsy) or an array of strings, and the entries hold no code unit above
    255; without a stored text it does not answer 200.  Whatever is stored,
    the status is 200, 400, 404 or 500, and only the 200 answer carries the
    cache-disabling headers.  (The first part is for the texts [JSON_parse]
    reads: JSON texts whose numbers are integers of magnitude up to 2^53.) *)
Theorem feed_served_iff
    (pf : platform) (kv : gmap jsstring jsstring) (groupId : jsstring) :
  (forall stored groupData,
     kv_get kv (SUBS_GROUP ++ groupId) = Some stored ->
     JSON_parse stored = Some groupData ->
     (status (handleSubscription pf kv groupId) = 200 <->
      groupId <> []
      /\ exists links refs,
           get_prop groupData (lit "links") = Return links
           /\ or_else links (VArr []) = VArr (List.map VStr refs)
           /\ latin1 (join [nl] (feed_entries pf refs)) = true))
  /\ (present (kv_get kv (SUBS_GROUP ++ groupId)) = None ->
      status (handleSubscription pf kv groupId) <> 200)
  /\ (status (handleSubscription pf kv groupId) = 200 <->
      headers (handleSubscription pf kv groupId) = no_cache_headers)
  /\ In (status (handleSubscription pf kv groupId)) [200; 400; 404; 500].
Proof.
  split; [|split; [|split]].
  - intros stored groupData Hkv Hp. split.
    + intros H.
      destruct (handleSubscription_200 pf kv groupId H)
        as (stored' & groupData' & links & refs & encoded & Hid & Hkv' & Hp' & Hl & Ho & Hb & _).
      rewrite Hkv in Hkv'. apply (inj Some) in Hkv'. subst stored'.
      rewrite Hp in Hp'. apply (inj Some) in Hp'. subst groupData'.
      split; [exact Hid|]. exists links, refs.
      split; [exact Hl|]. split; [exact Ho|].
      unfold btoa in Hb. now destruct (latin1 _).
    + intros (Hid & links & refs & Hl & Ho & Hlat).
      rewrite (handleSubscription_links pf kv _ _ _ _ _ Hid Hkv Hp Hl Ho).
      fold (feed_entries pf refs). unfold btoa. now rewrite Hlat.
  - intros Hno H.
    destruct (handleSubscription_200 pf kv groupId H)
      as (stored & groupData & links & refs & encoded & _ & Hkv & Hp & _).
    rewrite Hkv, (present_parsed _ _ Hp) in Hno. discriminate Hno.
  - unfold handleSubscription.
    destruct (negb (is_nonempty groupId)); [split; discriminate|].
    destruct (present _) as [l|]; [|split; discriminate].
    match goal with
    | |- context [match ?c with Return r => r | Throw e => _ end] =>
        assert (Hc : (exists b, c = Return {| status := 200; body := b;
                                              headers := no_cache_headers |})
                     \/ exists e, c = Throw e)
    end.
    { destruct (parse l) as [groupData|e]; cbn [bind]; [|eauto].
      destruct (get_prop groupData (lit "links")) as [links|e]; cbn [bind]; [|eauto].
      destruct (match or_else links (VArr []) with VArr l0 => Return l0 | _ => Throw TypeError end)
        as [items|e]; cbn [bind]; [|eauto].
      destruct (map_outcome (fetch_link pf) items) as [arrays|e]; cbn [bind]; [|eauto].
      destruct (btoa_or_throw _) as [encoded|e]; cbn [bind]; eauto. }
    destruct Hc as [[b ->]|[e ->]]; cbn; split; reflexivity || discriminate.
  - unfold handleSubscription.
    destruct (negb (is_nonempty groupId)); [cbn; tauto|].
    destruct (present _) as [l|]; [|cbn; tauto].
    match goal with
    | |- context [match ?c with Return r => r | Throw e => _ end] =>
        assert (Hc : (exists b, c = Return {| status := 200; body := b;
                                              headers := no_cache_headers |})
                     \/ exists e, c = Throw e)
    end.
    { destruct (parse l) as [groupData|e]; cbn [bind]; [|eauto].
      destruct (get_prop groupData (lit "links")) as [links|e]; cbn [bind]; [|eauto].
      destruct (match or_else links (VArr []) with VArr l0 => Return l0 | _ => Throw TypeError end)
        as [items|e]; cbn [bind]; [|eauto].
      destruct (map_outcome (fetch_link pf) items) as [arrays|e]; cbn [bind]; [|eauto].
      destruct (btoa_or_throw _) as [encoded|e]; cbn [bind]; eauto. }
    destruct Hc as [[b ->]|[e ->]]; cbn; tauto.
Qed.

Lemma feed_served_iff_witness :
  status (handleSubscription offline
            (store_with_group [lit "data:text/plain;base64,QQpCCkE="]) (lit "g1")) = 200
  <-> lit "g1" <> []
      /\ exists links refs,
           get_prop (parsed (group_text [lit "data:text/plain;base64,QQpCCkE="]))
             (lit "links") = Return links
           /\ or_else links (VArr []) = VArr (List.map VStr refs)
           /\ latin1 (join [nl] (feed_entries offline refs)) = true.
Proof.
  apply (proj1 (feed_served_iff offline
                  (store_with_group [lit "data:text/plain;base64,QQpCCkE="]) (lit "g1"))
           (group_text [lit "data:text/plain;base64,QQpCCkE="])
           (parsed (group_text [lit "data:text/plain;base64,QQpCCkE="]))).
  - vm_compute. reflexivity.
  - vm_compute. reflexivity.
Defined.

(** X5: a feed built from remote references only holds no blank entry: when
    the handler answers 200 for a group none of whose references is an
    embedded one, the body decodes to the newline-join of entries none of
    which is empty or made of white space.  In every 200 answer the entries
    are non-empty lines: none holds a newline. *)
Theorem remote_feed_has_no_blank_entry
    (pf : platform) (kv : gmap jsstring jsstring) (groupId : jsstring) :
  status (handleSubscription pf kv groupId) = 200 ->
  exists stored groupData links refs entries,
    kv_get kv (SUBS_GROUP ++ groupId) = Some stored
    /\ JSON_parse stored = Some groupData
    /\ get_prop groupData (lit "links") = Return links
    /\ or_else links (VArr []) = VArr (List.map VStr refs)
    /\ atob (body (handleSubscription pf kv groupId)) = Some (join [nl] entries)
    /\ (List.Forall (fun u => startsWith (lit "data:") u = false) refs ->
        List.Forall (fun e => blank e = false) entries)
    /\ List.Forall (fun e => e <> [] /\ ~ In nl e) entries.
Proof.
  intros H.
  destruct (handleSubscription_200 pf kv groupId H)
    as (stored & groupData & links & refs & encoded & _ & Hkv & Hp & Hl & Ho & Hb & ->).
  exists stored, groupData, links, refs, (feed_entries pf refs). cbn [body].
  repeat (split; [assumption|]). split; [now apply atob_btoa|].
  split; [|apply feed_entries_lines].
  intros Hrefs. rewrite List.Forall_forall in Hrefs |- *. intros e He.
  unfold feed_entries in He.
  apply first_occurrences_In, filter_In in He as [He _].
  apply in_concat in He as (l & Hl' & He). apply in_map_iff in Hl' as (u & <- & Hu).
  exact (remote_entries_nonblank pf u e (Hrefs u Hu) He).
Qed.

Lemma remote_feed_has_no_blank_entry_witness :
  exists stored groupData links refs entries,
    kv_get (store_with_group [up_url]) (SUBS_GROUP ++ lit "g1") = Some stored
    /\ JSON_parse stored = Some groupData
    /\ get_prop groupData (lit "links") = Return links
    /\ or_else links (VArr []) = VArr (List.map VStr refs)
    /\ atob (body (handleSubscription
                     (platform_with (network (lit "ss://a" ++ [nl; 32; nl] ++ lit "ss://b") []))
                     (store_with_group [up_url]) (lit "g1")))
       = Some (join [nl] entries)
    /\ (List.Forall (fun u => startsWith (lit "data:") u = false) refs ->
        List.Forall (fun e => blank e = false) entries)
    /\ List.Forall (fun e => e <> [] /\ ~ In nl e) entries.
Proof.
  apply (remote_feed_has_no_blank_entry
           (platform_with (network (lit "ss://a" ++ [nl; 32; nl] ++ lit "ss://b") []))
           (store_with_group [up_url]) (lit "g1")).
  vm_compute. reflexivity.
Defined.

(** ** The guard of the admin API *)

(** X6: with a non-empty string password configured, a request
    authenticates exactly when its Authorization header is the word Bearer,
    one space and the password; every other request is refused with 401. *)
Theorem bearer_token_is_the_password
    (kv : gmap jsstring jsstring) (req : request) (stored : jsstring)
    (config : value) (password : jsstring) :
  kv_get kv CONFIG = Some stored ->
  JSON_parse stored = Some config ->
  get_prop config (lit "password") = Return (VStr password) ->
  password <> [] ->
  (checkAuth kv req = Return AuthOk
   <-> req_authorization req = Some (lit "Bearer " ++ password))
  /\ (checkAuth kv req = Return AuthOk
      \/ exists m, checkAuth kv req = Return (AuthFail m 401)).
Proof.
  apply checkAuth_string.
Qed.

Lemma bearer_token_is_the_password_witness :
  (checkAuth (store_with_config (lit "s3cret")) (getConfig_request (lit "s3cret"))
   = Return AuthOk
   <-> req_authorization (getConfig_request (lit "s3cret"))
       = Some (lit "Bearer " ++ lit "s3cret"))
  /\ (checkAuth (store_with_config (lit "s3cret")) (getConfig_request (lit "s3cret"))
      = Return AuthOk
      \/ exists m, checkAuth (store_with_config (lit "s3cret"))
                     (getConfig_request (lit "s3cret")) = Return (AuthFail m 401)).
Proof.
  apply (bearer_token_is_the_password (store_with_config (lit "s3cret"))
           (getConfig_request (lit "s3cret")) (config_text (lit "s3cret"))
           (parsed (config_text (lit "s3cret"))) (lit "s3cret")).
  - vm_compute. reflexivity.
  - vm_compute. reflexivity.
  - vm_compute. reflexivity.
  - discriminate.
Defined.

(** X7: with a non-empty string password configured, a request whose
    Authorization header is not Bearer, one space and the password gets 401
    from every admin action, and the namespace stays as it was. *)
Theorem no_action_without_the_password
    (pf : platform) (kv : gmap jsstring jsstring) (req : request)
    (action stored : jsstring) (config : value) (password : jsstring) :
  kv_get kv CONFIG = Some stored ->
  JSON_parse stored = Some config ->
  get_prop config (lit "password") = Return (VStr password) ->
  password <> [] ->
  req_authorization req <> Some (lit "Bearer " ++ password) ->
  exists m, handleAdminApi pf kv req action = Return (message_response 401 false m, kv).
Proof.
  intros Hkv Hp Hs Hne Hreq.
  destruct (checkAuth_string kv req stored config password Hkv Hp Hs Hne)
    as [Hiff [Hok|[m Hm]]].
  - now apply Hiff in Hok.
  - exists m. unfold handleAdminApi. now rewrite Hm.
Qed.

Lemma no_action_without_the_password_witness :
  exists m,
    handleAdminApi offline (store_with_config (lit "s3cret"))
      (getConfig_request (lit "guess")) (lit "deleteGroup")
    = Return (message_response 401 false m, store_with_config (lit "s3cret")).
Proof.
  apply (no_action_without_the_password offline (store_with_config (lit "s3cret"))
           (getConfig_request (lit "guess")) (lit "deleteGroup")
           (config_text (lit "s3cret"))
           (parsed (config_text (lit "s3cret"))) (lit "s3cret")).
  - vm_compute. reflexivity.
  - vm_compute. reflexivity.
  - vm_compute. reflexivity.
  - discriminate.
  - vm_compute. discriminate.
Defined.

(** X8: the guard of the unconfigured state looks at the end of the path,
    not at the action: while no password is stored, a request to
    /admin/api/ACTION/getConfig passes the guard without any credentials and
    runs ACTION, whatever it is. *)
Theorem unconfigured_guard_checks_the_suffix
    (pf : platform) (kv : gmap jsstring jsstring) (req : request) (action : jsstring) :
  present (kv_get kv CONFIG) = None ->
  action <> [] -> ~ In slash action ->
  req_pathname req = lit "/admin/api/" ++ action ++ lit "/getConfig" ->
  checkAuth kv req = Return AuthOk
  /\ onRequest pf kv req = handleAdminApi pf kv req action.
Proof.
  intros Hkv Hne Hs Hpath. split.
  - unfold checkAuth. rewrite Hkv. cbn [bind get_prop lookup_own truthy negb].
    rewrite Hpath.
    replace (endsWith (lit "/getConfig") (lit "/admin/api/" ++ action ++ lit "/getConfig"))
      with true; [reflexivity|].
    symmetry. rewrite app_assoc. apply endsWith_app.
  - rewrite (onRequest_unconfigured pf kv req Hkv). unfold route. rewrite Hpath.
    destruct (segments_admin action (lit "getConfig") Hne Hs) as [rest Hrest].
    change (lit "/getConfig") with ([slash] ++ lit "getConfig").
    unfold slash in *. rewrite Hrest. reflexivity.
Qed.

Lemma unconfigured_guard_checks_the_suffix_witness :
  checkAuth (store_with_group [])
    (anonymous_request (lit "POST")
       (lit "/admin/api/" ++ lit "deleteGroup" ++ lit "/getConfig") (dq "{'id':'g1'}"))
  = Return AuthOk
  /\ onRequest offline (store_with_group [])
       (anonymous_request (lit "POST")
          (lit "/admin/api/" ++ lit "deleteGroup" ++ lit "/getConfig") (dq "{'id':'g1'}"))
     = handleAdminApi offline (store_with_group [])
         (anonymous_request (lit "POST")
            (lit "/admin/api/" ++ lit "deleteGroup" ++ lit "/getConfig") (dq "{'id':'g1'}"))
         (lit "deleteGroup").
Proof.
  apply (unconfigured_guard_checks_the_suffix offline (store_with_group [])
           (anonymous_request (lit "POST")
              (lit "/admin/api/" ++ lit "deleteGroup" ++ lit "/getConfig") (dq "{'id':'g1'}"))
           (lit "deleteGroup")).
  - vm_compute. reflexivity.
  - discriminate.
  - vm_compute. intuition discriminate.
  - reflexivity.
Defined.

(** ** The admin actions *)

(** X9: the admin handler writes only for an authenticated request that it
    answers 200, and then one key: CONFIG for saveConfig, one group key for
    saveGroup and deleteGroup, and for batchImport the key of a group that
    is stored already.  A refused or failed request, and every other action,
    leaves the namespace as it was. *)
Theorem admin_writes_are_confined
    (pf : platform) (kv : gmap jsstring jsstring) (req : request)
    (action : jsstring) (r : response) (kv' : gmap jsstring jsstring) :
  handleAdminApi pf kv req action = Return (r, kv') ->
  kv' = kv
  \/ (status r = 200 /\ checkAuth kv req = Return AuthOk
      /\ ((action = lit "saveConfig" /\ exists text, kv' = <[CONFIG := text]> kv)
          \/ (action = lit "saveGroup"
              /\ exists id text, kv' = <[SUBS_GROUP ++ id := text]> kv)
          \/ (action = lit "deleteGroup"
              /\ exists id, kv' = delete (SUBS_GROUP ++ id) kv)
          \/ (action = lit "batchImport"
              /\ exists id text, kv_get kv (SUBS_GROUP ++ id) <> None
                                 /\ kv' = <[SUBS_GROUP ++ id := text]> kv))).
Proof.
  intros H.
  destruct (handleAdminApi_enter pf kv req action r kv' H)
    as [(m & st & _ & _ & _ & ->)|[(_ & _ & _ & ->)|(body & config & Ha & Hb & Hc)]];
    [now left|now left|].
  unfold handleAdminApi in H. rewrite Ha in H. cbn [bind] in H.
  fold (request_json req) in H. rewrite Hb in H.
  fold (stored_config kv) in H. rewrite Hc in H. cbn [bind] in H. revert H.
  destruct (str_eqb action (lit "login")); [intros [= <- <-]; now left|].
  destruct (str_eqb action (lit "saveConfig")) eqn:E2.
  { apply str_eqb_eq in E2. intros H. repeat bind_step H.
    destruct (_ && _) in H; [injection H as <- <-; now left|].
    destruct (_ || _) in H; [injection H as <- <-; now left|].
    injection H as <- <-. right. split; [reflexivity|]. split; [exact Ha|].
    left. eauto. }
  destruct (str_eqb action (lit "getConfig")).
  { intros H. bind_step H. injection H as <- <-. now left. }
  destruct (str_eqb action (lit "getGroups")); [intros [= <- <-]; now left|].
  destruct (str_eqb action (lit "getGroupDetails")).
  { intros H. repeat bind_step H.
    destruct (present _) in H; [|injection H as <- <-; now left].
    bind_step H. injection H as <- <-. now left. }
  destruct (str_eqb action (lit "saveGroup")) eqn:E6.
  { apply str_eqb_eq in E6. intros H. repeat bind_step H.
    destruct (_ || _) in H; [injection H as <- <-; now left|].
    bind_step H. injection H as <- <-. right. split; [reflexivity|].
    split; [exact Ha|]. right. left. eauto. }
  destruct (str_eqb action (lit "deleteGroup")) eqn:E7.
  { apply str_eqb_eq in E7. intros H. repeat bind_step H.
    injection H as <- <-. right. split; [reflexivity|]. split; [exact Ha|].
    right. right. left. eauto. }
  destruct (str_eqb action (lit "batchImport")) eqn:E8.
  { apply str_eqb_eq in E8. intros H. repeat bind_step H.
    destruct (present (kv_get kv _)) as [groupDataStr|] eqn:Hg in H;
      [|injection H as <- <-; now left].
    destruct (match ToString _ with Return text => parseXrayConfig text | Throw _ => [] end)
      as [|n ns] in H; [injection H as <- <-; now left|].
    repeat bind_step H.
    match type of H with
    | match ?g with _ => _ end = _ => destruct g; try discriminate H
    end.
    match type of H with
    | match ?g with _ => _ end = _ => destruct g; try discriminate H
    end.
    injection H as <- <-. right. split; [reflexivity|]. split; [exact Ha|].
    right. right. right. split; [exact E8|]. do 2 eexists. split; [|reflexivity].
    intros Hn. rewrite Hn in Hg. discriminate Hg. }
  intros [= <- <-]. now left.
Qed.

Lemma admin_writes_are_confined_witness :
  store_of import_store
    (handleAdminApi offline import_store import_request (lit "batchImport"))
  = import_store
  \/ (status (answer_of
                (handleAdminApi offline import_store import_request (lit "batchImport")))
      = 200
      /\ checkAuth import_store import_request = Return AuthOk
      /\ ((lit "batchImport" = lit "saveConfig"
           /\ exists text,
                store_of import_store
                  (handleAdminApi offline import_store import_request (lit "batchImport"))
                = <[CONFIG := text]> import_store)
          \/ (lit "batchImport" = lit "saveGroup"
              /\ exists id text,
                   store_of import_store
                     (handleAdminApi offline import_store import_request (lit "batchImport"))
                   = <[SUBS_GROUP ++ id := text]> import_store)
          \/ (lit "batchImport" = lit "deleteGroup"
              /\ exists id,
                   store_of import_store
                     (handleAdminApi offline import_store import_request (lit "batchImport"))
                   = delete (SUBS_GROUP ++ id) import_store)
          \/ (lit "batchImport" = lit "batchImport"
              /\ exists id text,
                   kv_get import_store (SUBS_GROUP ++ id) <> None
                   /\ store_of import_store
                        (handleAdminApi offline import_store import_request
                           (lit "batchImport"))
                      = <[SUBS_GROUP ++ id := text]> import_store))).
Proof.
  apply (admin_writes_are_confined offline import_store import_request
           (lit "batchImport")
           (answer_of (handleAdminApi offline import_store import_request (lit "batchImport")))
           (store_of import_store
              (handleAdminApi offline import_store import_request (lit "batchImport")))).
  vm_compute. reflexivity.
Defined.

(** X10: after a saveConfig answered 200 for a request whose body parses,
    the stored password is the password of the body: a request authenticates
    exactly when that password is a string and the Authorization header is
    Bearer, one space and that string.  A password sent as a number or as
    true is stored too, and then no request authenticates any more.  (The
    bodies are those [JSON_parse] reads: JSON texts whose numbers are
    integers of magnitude up to 2^53; a numeral that overflows to Infinity,
    which [JSON.stringify] writes as null, is outside the statement.) *)
Theorem saved_password_is_the_key
    (pf : platform) (kv : gmap jsstring jsstring) (req : request)
    (body password : value) (r : response) (kv' : gmap jsstring jsstring) :
  JSON_parse (req_body req) = Some body ->
  get_prop body (lit "password") = Return password ->
  handleAdminApi pf kv req (lit "saveConfig") = Return (r, kv') ->
  status r = 200 ->
  forall req',
    checkAuth kv' req' = Return AuthOk
    <-> exists pw, password = VStr pw
                   /\ req_authorization req' = Some (lit "Bearer " ++ pw).
Proof.
  intros Hbody Hpassword H Hst.
  pose proof (saveConfig_body pf kv req body r kv' Hbody H Hst) as Hreq.
  destruct (saveConfig_200 pf kv req r kv' H Hst)
    as (body0 & config & password0 & subPath & adminPath & old & oldPassword
        & _ & Hb & _ & Hpw & _ & _ & _ & _ & _ & Ht & _ & _ & Hparse & ->).
  rewrite Hreq in Hb. apply (inj Some) in Hb. subst body0.
  rewrite Hpassword in Hpw. apply Return_inj in Hpw. subst password0.
  intros req'.
  pose proof (kv_get_insert kv CONFIG
                (JSON_stringify (new_config password subPath adminPath))) as Hkv.
  assert (Hs : get_prop (new_config password subPath adminPath) (lit "password")
               = Return password) by reflexivity.
  destruct password as [| | | |pw| |].
  5:{ assert (Hne : pw <> []) by (now destruct pw).
      destruct (checkAuth_string _ req' _ _ pw Hkv Hparse Hs Hne) as [Hiff _].
      rewrite Hiff. split; [eauto|]. now intros (pw' & [= <-] & E). }
  all: split; [|now intros (pw' & E & _)].
  all: intros Hok;
    destruct (checkAuth_not_string _ req' _ _ _ Hkv Hparse Hs Ht) as [m Hm];
    [discriminate|rewrite Hm in Hok; discriminate Hok].
Qed.

Lemma saved_password_is_the_key_witness :
  get_prop (parsed (req_body first_config_request)) (lit "password")
  = Return (VStr (lit "pw"))
  /\ forall req',
       checkAuth first_config_store req' = Return AuthOk
       <-> exists pw, VStr (lit "pw") = VStr pw
                      /\ req_authorization req' = Some (lit "Bearer " ++ pw).
Proof.
  split; [vm_compute; reflexivity|].
  apply (saved_password_is_the_key offline empty first_config_request
           (parsed first_config_body) (VStr (lit "pw"))
           (message_response 200 true msg_config_saved) first_config_store).
  - vm_compute. reflexivity.
  - vm_compute. reflexivity.
  - vm_compute. reflexivity.
  - reflexivity.
Defined.

(** X11: once a string password is configured, saveConfig is answered 200
    only for a request that carries that password twice: as the bearer token
    and as the oldPassword field of its body. *)
Theorem changing_configuration_needs_old_password
    (pf : platform) (kv : gmap jsstring jsstring) (req : request)
    (stored : jsstring) (config : value) (password : jsstring)
    (r : response) (kv' : gmap jsstring jsstring) :
  kv_get kv CONFIG = Some stored ->
  JSON_parse stored = Some config ->
  get_prop config (lit "password") = Return (VStr password) ->
  password <> [] ->
  handleAdminApi pf kv req (lit "saveConfig") = Return (r, kv') ->
  status r = 200 ->
  req_authorization req = Some (lit "Bearer " ++ password)
  /\ exists body,
       JSON_parse (req_body req) = Some body
       /\ get_prop body (lit "oldPassword") = Return (VStr password).
Proof.
  intros Hkv Hp Hs Hne H Hst.
  destruct (saveConfig_200 pf kv req r kv' H Hst)
    as (body & config' & pw & subPath & adminPath & old & oldPassword
        & Ha & Hb & Hc & Hpw & _ & _ & Hold & Hop & Heq & Ht & _).
  destruct (stored_config_text kv stored config Hkv Hp) as [_ Hc'].
  rewrite Hc' in Hc. injection Hc as <-.
  rewrite Hs in Hold. injection Hold as <-.
  split.
  - now apply (checkAuth_string kv req stored config password Hkv Hp Hs Hne).
  - exists body. split.
    + unfold request_json in Hb. destruct (str_eqb _ _); [exact Hb|].
      injection Hb as <-. cbn in Hpw. injection Hpw as <-. discriminate Ht.
    + rewrite Hop. f_equal. apply strict_eq_string, Heq. now destruct password.
Qed.

Lemma changing_configuration_needs_old_password_witness :
  req_authorization
    (admin_request (lit "/admin/api/saveConfig")
       (dq "{'password':'pw','subPath':'s','adminPath':'a','oldPassword':'s3cret'}"))
  = Some (lit "Bearer " ++ lit "s3cret")
  /\ exists body,
       JSON_parse
         (req_body
            (admin_request (lit "/admin/api/saveConfig")
               (dq "{'password':'pw','subPath':'s','adminPath':'a','oldPassword':'s3cret'}")))
       = Some body
       /\ get_prop body (lit "oldPassword") = Return (VStr (lit "s3cret")).
Proof.
  apply (changing_configuration_needs_old_password offline
           (store_with_config (lit "s3cret"))
           (admin_request (lit "/admin/api/saveConfig")
              (dq "{'password':'pw','subPath':'s','adminPath':'a','oldPassword':'s3cret'}"))
           (config_text (lit "s3cret"))
           (parsed (config_text (lit "s3cret")))
           (lit "s3cret")
           (message_response 200 true msg_config_saved)
           (<[CONFIG := first_config_body]> (store_with_config (lit "s3cret")))).
  - vm_compute. reflexivity.
  - vm_compute. reflexivity.
  - vm_compute. reflexivity.
  - discriminate.
  - vm_compute. reflexivity.
  - reflexivity.
Defined.

(** X12: a configuration saved by saveConfig from a body that parses is
    the one the worker then runs with: getConfig answers its two paths (and
    not the password), and the router takes the saved subscription path for
    the feeds and the saved admin path, followed by api, for the admin
    actions.  (The bodies are those [JSON_parse] reads: JSON texts whose
    numbers are integers of magnitude up to 2^53; a path sent as a numeral
    that overflows to Infinity is stored as null and is outside the
    statement.) *)
Theorem saved_configuration_is_in_force
    (pf : platform) (kv : gmap jsstring jsstring) (req : request)
    (body subPath adminPath : value) (r : response) (kv' : gmap jsstring jsstring) :
  JSON_parse (req_body req) = Some body ->
  get_prop body (lit "subPath") = Return subPath ->
  get_prop body (lit "adminPath") = Return adminPath ->
  handleAdminApi pf kv req (lit "saveConfig") = Return (r, kv') ->
  status r = 200 ->
  (forall req2 r2 kv2,
     handleAdminApi pf kv' req2 (lit "getConfig") = Return (r2, kv2) ->
     status r2 = 200 ->
     r2 = json_response 200
            (VObj [ (lit "success", VBool true);
                    (lit "data", VObj [ (lit "subPath", subPath);
                                        (lit "adminPath", adminPath) ]);
                    (lit "isConfigured", VBool true) ])
     /\ kv2 = kv')
  /\ (forall req2, onRequest pf kv' req2 = route pf kv' req2 subPath adminPath).
Proof.
  intros Hbody Hsub Hadmin H Hst.
  pose proof (saveConfig_body pf kv req body r kv' Hbody H Hst) as Hreq.
  destruct (saveConfig_200 pf kv req r kv' H Hst)
    as (body0 & config & password & subPath0 & adminPath0 & old & oldPassword
        & _ & Hb & _ & _ & Hsp & Hap & _ & _ & _ & _ & Hts & Hta & Hparse & ->).
  rewrite Hreq in Hb. apply (inj Some) in Hb. subst body0.
  rewrite Hsub in Hsp. apply Return_inj in Hsp. subst subPath0.
  rewrite Hadmin in Hap. apply Return_inj in Hap. subst adminPath0.
  pose proof (kv_get_insert kv CONFIG
                (JSON_stringify (new_config password subPath adminPath))) as Hkv.
  split.
  - intros req2 r2 kv2 H2 Hst2.
    exact (getConfig_response pf _ req2 _ _ r2 kv2 Hkv Hparse H2 Hst2).
  - intros req2.
    rewrite (onRequest_configured pf _ req2 _ _ subPath adminPath Hkv Hparse
               eq_refl eq_refl).
    unfold or_else. now rewrite Hts, Hta.
Qed.

Lemma saved_configuration_is_in_force_witness :
  (forall req2 r2 kv2,
     handleAdminApi offline first_config_store req2 (lit "getConfig")
     = Return (r2, kv2) ->
     status r2 = 200 ->
     r2 = json_response 200
            (VObj [ (lit "success", VBool true);
                    (lit "data", VObj [ (lit "subPath", VStr (lit "s"));
                                        (lit "adminPath", VStr (lit "a")) ]);
                    (lit "isConfigured", VBool true) ])
     /\ kv2 = first_config_store)
  /\ (forall req2,
        onRequest offline first_config_store req2
        = route offline first_config_store req2 (VStr (lit "s")) (VStr (lit "a"))).
Proof.
  apply (saved_configuration_is_in_force offline empty first_config_request
           (parsed first_config_body) (VStr (lit "s")) (VStr (lit "a"))
           (message_response 200 true msg_config_saved) first_config_store).
  - vm_compute. reflexivity.
  - vm_compute. reflexivity.
  - vm_compute. reflexivity.
  - vm_compute. reflexivity.
  - reflexivity.
Defined.

(** X13: a group saved by saveGroup is read back by getGroupDetails: after
    a 200 answer, every authenticated request whose body names the id under
    which the group was stored is answered with the name and the links of
    the saved body. *)
Theorem saved_group_reads_back
    (pf : platform) (kv : gmap jsstring jsstring) (req : request)
    (r : response) (kv' : gmap jsstring jsstring) :
  handleAdminApi pf kv req (lit "saveGroup") = Return (r, kv') ->
  status r = 200 ->
  exists body id name links id_text,
    JSON_parse (req_body req) = Some body
    /\ get_prop body (lit "id") = Return id
    /\ get_prop body (lit "name") = Return name
    /\ get_prop body (lit "links") = Return links
    /\ ToString (or_else id (VStr (pf_randomUUID pf))) = Return id_text
    /\ forall req2 body2 id2,
         checkAuth kv' req2 = Return AuthOk ->
         request_json req2 = Some body2 ->
         get_prop body2 (lit "id") = Return id2 ->
         ToString id2 = Return id_text ->
         handleAdminApi pf kv' req2 (lit "getGroupDetails")
         = Return (json_response 200
                     (VObj [ (lit "success", VBool true);
                             (lit "data", VObj [(lit "name", name); (lit "links", links)]) ]),
                   kv').
Proof.
  intros H Hst.
  destruct (saveGroup_200 pf kv req r kv' H Hst)
    as (body & config & id & name & l & id_text
        & _ & Hb & Hc & Hid & Hname & Hlinks & Ht & Hts & Hparse & _ & ->).
  exists body, id, name, (VArr l), id_text. split.
  { unfold request_json in Hb. destruct (str_eqb _ _); [exact Hb|].
    injection Hb as <-. cbn in Hname. injection Hname as <-. discriminate Ht. }
  repeat (split; [assumption|]).
  intros req2 body2 id2 Ha2 Hb2 Hid2 Hts2.
  assert (Hc2 : parse (stored_config
                         (<[SUBS_GROUP ++ id_text := JSON_stringify (new_group name (VArr l))]> kv))
                = Return config) by (now rewrite stored_config_insert_group).
  rewrite (handleAdminApi_getGroupDetails pf _ req2 body2 config Ha2 Hb2 Hc2).
  rewrite Hid2. cbn [bind]. rewrite Hts2. cbn [bind].
  rewrite kv_get_insert, (present_parsed _ _ Hparse). unfold parse. rewrite Hparse.
  reflexivity.
Qed.

Lemma saved_group_reads_back_witness :
  exists body id name links id_text,
    JSON_parse (save_g1_body up_url) = Some body
    /\ get_prop body (lit "id") = Return id
    /\ get_prop body (lit "name") = Return name
    /\ get_prop body (lit "links") = Return links
    /\ ToString (or_else id (VStr (pf_randomUUID offline))) = Return id_text
    /\ forall req2 body2 id2,
         checkAuth (saved_g1_store up_url) req2 = Return AuthOk ->
         request_json req2 = Some body2 ->
         get_prop body2 (lit "id") = Return id2 ->
         ToString id2 = Return id_text ->
         handleAdminApi offline (saved_g1_store up_url) req2 (lit "getGroupDetails")
         = Return (json_response 200
                     (VObj [ (lit "success", VBool true);
                             (lit "data", VObj [(lit "name", name); (lit "links", links)]) ]),
                   saved_g1_store up_url).
Proof.
  apply (saved_group_reads_back offline (store_with_config (lit "s3cret"))
           (admin_request (lit "/admin/api/saveGroup") (save_g1_body up_url))
           saved_g1_answer (saved_g1_store up_url)).
  - vm_compute. reflexivity.
  - reflexivity.
Defined.

(** X14: a group saved by saveGroup is listed by getGroups: the listing
    answers 200 to every authenticated request, whatever the other group
    texts are, and when the key listing of the namespace holds the key of
    the saved group, the listing holds its id, its name and the number of
    its links. *)
Theorem saved_group_is_listed
    (pf : platform) (kv : gmap jsstring jsstring) (req : request)
    (r : response) (kv' : gmap jsstring jsstring) :
  handleAdminApi pf kv req (lit "saveGroup") = Return (r, kv') ->
  status r = 200 ->
  exists body id name l id_text,
    JSON_parse (req_body req) = Some body
    /\ get_prop body (lit "id") = Return id
    /\ get_prop body (lit "name") = Return name
    /\ get_prop body (lit "links") = Return (VArr l)
    /\ ToString (or_else id (VStr (pf_randomUUID pf))) = Return id_text
    /\ forall req2 body2,
         checkAuth kv' req2 = Return AuthOk ->
         request_json req2 = Some body2 ->
         exists groups,
           handleAdminApi pf kv' req2 (lit "getGroups")
           = Return (json_response 200
                       (VObj [(lit "success", VBool true); (lit "data", VArr groups)]),
                     kv')
           /\ (In (SUBS_GROUP ++ id_text) (pf_list pf SUBS_GROUP kv') ->
               In (VObj [ (lit "id", VStr id_text); (lit "name", name);
                          (lit "linkCount", VNum (Z.of_nat (length l))) ]) groups).
Proof.
  intros H Hst.
  destruct (saveGroup_200 pf kv req r kv' H Hst)
    as (body & config & id & name & l & id_text
        & _ & Hb & Hc & Hid & Hname & Hlinks & Ht & Hts & Hparse & _ & ->).
  exists body, id, name, l, id_text. split.
  { unfold request_json in Hb. destruct (str_eqb _ _); [exact Hb|].
    injection Hb as <-. cbn in Hname. injection Hname as <-. discriminate Ht. }
  repeat (split; [assumption|]).
  intros req2 body2 Ha2 Hb2.
  assert (Hc2 : parse (stored_config
                         (<[SUBS_GROUP ++ id_text := JSON_stringify (new_group name (VArr l))]> kv))
                = Return config) by (now rewrite stored_config_insert_group).
  eexists. split; [exact (handleAdminApi_getGroups pf _ req2 body2 config Ha2 Hb2 Hc2)|].
  intros Hin. apply (In_omap _ _ _ _ Hin).
  apply (group_summary_saved _ id_text _ name l (kv_get_insert kv _ _) Hparse).
Qed.

Lemma saved_group_is_listed_witness :
  exists body id name l id_text,
    JSON_parse (save_g1_body up_url) = Some body
    /\ get_prop body (lit "id") = Return id
    /\ get_prop body (lit "name") = Return name
    /\ get_prop body (lit "links") = Return (VArr l)
    /\ ToString (or_else id (VStr (pf_randomUUID offline))) = Return id_text
    /\ forall req2 body2,
         checkAuth (saved_g1_store up_url) req2 = Return AuthOk ->
         request_json req2 = Some body2 ->
         exists groups,
           handleAdminApi offline (saved_g1_store up_url) req2 (lit "getGroups")
           = Return (json_response 200
                       (VObj [(lit "success", VBool true); (lit "data", VArr groups)]),
                     saved_g1_store up_url)
           /\ (In (SUBS_GROUP ++ id_text)
                 (pf_list offline SUBS_GROUP (saved_g1_store up_url)) ->
               In (VObj [ (lit "id", VStr id_text); (lit "name", name);
                          (lit "linkCount", VNum (Z.of_nat (length l))) ]) groups).
Proof.
  apply (saved_group_is_listed offline (store_with_config (lit "s3cret"))
           (admin_request (lit "/admin/api/saveGroup") (save_g1_body up_url))
           saved_g1_answer (saved_g1_store up_url)).
  - vm_compute. reflexivity.
  - reflexivity.
Defined.

(** X15: a group saved by saveGroup with string links is served under the
    id it was stored with: the feed is the base64 of the newline-join of the
    distinct non-empty entries fetched from the saved links, in the order of
    first occurrence (500 when an entry holds a code unit above 255). *)
Theorem saved_group_is_served
    (pf : platform) (kv : gmap jsstring jsstring) (req : request)
    (r : response) (kv' : gmap jsstring jsstring) :
  handleAdminApi pf kv req (lit "saveGroup") = Return (r, kv') ->
  status r = 200 ->
  exists body id links id_text,
    JSON_parse (req_body req) = Some body
    /\ get_prop body (lit "id") = Return id
    /\ get_prop body (lit "links") = Return links
    /\ ToString (or_else id (VStr (pf_randomUUID pf))) = Return id_text
    /\ forall refs,
         links = VArr (List.map VStr refs) -> id_text <> [] ->
         handleSubscription pf kv' id_text =
           match btoa (join [nl] (feed_entries pf refs)) with
           | Some encoded =>
               {| status := 200; body := encoded; headers := no_cache_headers |}
           | None =>
               {| status := 500;
                  body := lit "// Error processing group: "
                            ++ pf_message pf InvalidCharacterError;
                  headers := [] |}
           end.
Proof.
  intros H Hst.
  destruct (saveGroup_200 pf kv req r kv' H Hst)
    as (body & config & id & name & l & id_text
        & _ & Hb & Hc & Hid & Hname & Hlinks & Ht & Hts & Hparse & _ & ->).
  exists body, id, (VArr l), id_text. split.
  { unfold request_json in Hb. destruct (str_eqb _ _); [exact Hb|].
    injection Hb as <-. cbn in Hname. injection Hname as <-. discriminate Ht. }
  repeat (split; [assumption|]).
  intros refs [= ->] Hne.
  apply (handleSubscription_links pf _ id_text
           (JSON_stringify (new_group name (VArr (List.map VStr refs))))
           (new_group name (VArr (List.map VStr refs)))
           (VArr (List.map VStr refs)) refs Hne);
    [apply kv_get_insert|exact Hparse|reflexivity|reflexivity].
Qed.

Lemma saved_group_is_served_witness :
  exists body id links id_text,
    JSON_parse (save_g1_body (data_url (lit "QQpCCkE="))) = Some body
    /\ get_prop body (lit "id") = Return id
    /\ get_prop body (lit "links") = Return links
    /\ ToString (or_else id (VStr (pf_randomUUID offline))) = Return id_text
    /\ forall refs,
         links = VArr (List.map VStr refs) -> id_text <> [] ->
         handleSubscription offline (saved_g1_store (data_url (lit "QQpCCkE="))) id_text =
           match btoa (join [nl] (feed_entries offline refs)) with
           | Some encoded =>
               {| status := 200; body := encoded; headers := no_cache_headers |}
           | None =>
               {| status := 500;
                  body := lit "// Error processing group: "
                            ++ pf_message offline InvalidCharacterError;
                  headers := [] |}
           end.
Proof.
  apply (saved_group_is_served offline (store_with_config (lit "s3cret"))
           (admin_request (lit "/admin/api/saveGroup")
              (save_g1_body (data_url (lit "QQpCCkE="))))
           saved_g1_answer (saved_g1_store (data_url (lit "QQpCCkE=")))).
  - vm_compute. reflexivity.
  - reflexivity.
Defined.

(** X16: after a deleteGroup answered 200 the group of the id in the body
    is not served any more (404, or 400 for the empty id), whether or not it
    was stored before, and the feed of every other group is what it was. *)
Theorem deleted_group_is_gone
    (pf : platform) (kv : gmap jsstring jsstring) (req : request)
    (r : response) (kv' : gmap jsstring jsstring) :
  handleAdminApi pf kv req (lit "deleteGroup") = Return (r, kv') ->
  status r = 200 ->
  exists body id id_text,
    request_json req = Some body
    /\ get_prop body (lit "id") = Return id
    /\ ToString id = Return id_text
    /\ status (handleSubscription pf kv' id_text)
       = (if is_nonempty id_text then 404 else 400)
    /\ forall other, other <> id_text ->
         handleSubscription pf kv' other = handleSubscription pf kv other.
Proof.
  intros H Hst.
  destruct (handleAdminApi_enter pf kv req _ r kv' H)
    as [(m & st & _ & Hne & -> & _)|[(_ & _ & -> & _)|(body & config & Ha & Hb & Hc)]];
    [now destruct Hne|discriminate Hst|].
  rewrite (handleAdminApi_deleteGroup pf kv req body config Ha Hb Hc) in H.
  repeat bind_step H. injection H as <- <-.
  exists body, a, a0. repeat (split; [assumption|]). split.
  - unfold handleSubscription. destruct a0 as [|c t]; [reflexivity|].
    cbn [is_nonempty negb]. now rewrite kv_get_delete.
  - intros other Hother. apply handleSubscription_frame, kv_get_delete_ne.
    intros Hk. apply Hother. symmetry. now apply group_key_inj in Hk.
Qed.

Lemma deleted_group_is_gone_witness :
  exists body id id_text,
    request_json (admin_request (lit "/admin/api/deleteGroup") (dq "{'id':'g1'}"))
    = Some body
    /\ get_prop body (lit "id") = Return id
    /\ ToString id = Return id_text
    /\ status (handleSubscription offline (store_with_config (lit "s3cret")) id_text)
       = (if is_nonempty id_text then 404 else 400)
    /\ forall other, other <> id_text ->
         handleSubscription offline (store_with_config (lit "s3cret")) other
         = handleSubscription offline import_store other.
Proof.
  apply (deleted_group_is_gone offline import_store
           (admin_request (lit "/admin/api/deleteGroup") (dq "{'id':'g1'}"))
           (message_response 200 true (lit "Group deleted"))
           (store_with_config (lit "s3cret"))).
  - vm_compute. reflexivity.
  - reflexivity.
Defined.

(** X17: a batchImport answered 200 appends one embedded reference to the
    links of the stored group and changes no other property of it: the
    group text stored afterwards parses to the old properties with the links
    followed by the reference, and the fetcher reads that reference back as
    the lines of the newline-join of the imported links. *)
Theorem batch_import_appends_reference
    (pf : platform) (kv : gmap jsstring jsstring) (req : request)
    (r : response) (kv' : gmap jsstring jsstring) :
  handleAdminApi pf kv req (lit "batchImport") = Return (r, kv') ->
  status r = 200 ->
  exists body groupId id_text xrayConfig text stored props l payload,
    request_json req = Some body
    /\ get_prop body (lit "groupId") = Return groupId
    /\ ToString groupId = Return id_text
    /\ get_prop body (lit "xrayConfig") = Return xrayConfig
    /\ ToString xrayConfig = Return text
    /\ parseXrayConfig text <> []
    /\ btoa (join [nl] (parseXrayConfig text)) = Some payload
    /\ kv_get kv (SUBS_GROUP ++ id_text) = Some stored
    /\ JSON_parse stored = Some (VObj props)
    /\ lookup_own (lit "links") props = VArr l
    /\ r = message_response 200 true (msg_imported (length (parseXrayConfig text)))
    /\ (exists stored' props',
          kv_get kv' (SUBS_GROUP ++ id_text) = Some stored'
          /\ JSON_parse stored' = Some (VObj props')
          /\ lookup_own (lit "links") props' = VArr (l ++ [VStr (data_url payload)])
          /\ forall k, k <> lit "links" -> lookup_own k props' = lookup_own k props)
    /\ fetchSubscriptionNodes pf (data_url payload)
       = Return (split nl (join [nl] (parseXrayConfig text))).
Proof.
  intros H Hst.
  destruct (handleAdminApi_enter pf kv req _ r kv' H)
    as [(m & st & _ & Hne & -> & _)|[(_ & _ & -> & _)|(body & config & Ha & Hb & Hc)]];
    [now destruct Hne|discriminate Hst|].
  rewrite (handleAdminApi_batchImport pf kv req body config Ha Hb Hc) in H.
  repeat bind_step H.
  destruct (kv_get kv (SUBS_GROUP ++ a1)) as [stored|] eqn:Hkv;
    [|injection H as <- <-; discriminate Hst].
  destruct stored as [|c s]; [injection H as <- <-; discriminate Hst|].
  cbn [present] in H. cbv zeta in H.
  destruct (ToString a0) as [text|e] eqn:Htext;
    [|injection H as <- <-; discriminate Hst].
  destruct (parseXrayConfig text) as [|n ns] eqn:Hnodes;
    [injection H as <- <-; discriminate Hst|].
  repeat bind_step H.
  destruct a3 as [| | | | | |props]; try discriminate H.
  destruct a4 as [| | | | |l|]; try discriminate H.
  injection H as <- <-.
  apply btoa_or_throw_Return in E2.
  unfold parse in E3. destruct (JSON_parse (c :: s)) as [g|] eqn:Hp; [|discriminate E3].
  injection E3 as ->. cbn [get_prop] in E4. apply Return_inj in E4. rename E4 into Hl.
  pose proof (JSON_parse_wf _ _ Hp) as Hwf.
  assert (Hwl : well_formed (VArr (l ++ [VStr (data_url a2)])) = true).
  { destruct (lookup_own_wf (lit "links") props Hwf) as [E5|E5];
      rewrite Hl in E5; [discriminate E5|].
    cbn [well_formed] in *. rewrite forallb_app, E5. reflexivity. }
  pose proof (obj_set_wf (lit "links") _ props Hwl Hwf) as Hnew.
  apply JSON_parse_stringify in Hnew.
  exists body, a, a1, a0, text, (c :: s), props, l, a2.
  split; [exact Hb|]. split; [exact E|]. split; [exact E1|]. split; [exact E0|].
  split; [exact Htext|]. split; [rewrite Hnodes; discriminate|].
  split; [rewrite Hnodes; exact E2|]. split; [exact Hkv|]. split; [exact Hp|].
  split; [exact Hl|]. split; [now rewrite Hnodes|].
  split.
  - eexists. eexists. split; [apply kv_get_insert|]. split; [exact Hnew|].
    split; [apply lookup_obj_set|]. intros k Hk. now apply lookup_obj_set_ne.
  - rewrite Hnodes. now apply data_reference_fetch.
Qed.

Lemma batch_import_appends_reference_witness :
  exists body groupId id_text xrayConfig text stored props l payload,
    request_json import_request = Some body
    /\ get_prop body (lit "groupId") = Return groupId
    /\ ToString groupId = Return id_text
    /\ get_prop body (lit "xrayConfig") = Return xrayConfig
    /\ ToString xrayConfig = Return text
    /\ parseXrayConfig text <> []
    /\ btoa (join [nl] (parseXrayConfig text)) = Some payload
    /\ kv_get import_store (SUBS_GROUP ++ id_text) = Some stored
    /\ JSON_parse stored = Some (VObj props)
    /\ lookup_own (lit "links") props = VArr l
    /\ answer_of (handleAdminApi offline import_store import_request (lit "batchImport"))
       = message_response 200 true (msg_imported (length (parseXrayConfig text)))
    /\ (exists stored' props',
          kv_get (store_of import_store
                    (handleAdminApi offline import_store import_request (lit "batchImport")))
            (SUBS_GROUP ++ id_text) = Some stored'
          /\ JSON_parse stored' = Some (VObj props')
          /\ lookup_own (lit "links") props' = VArr (l ++ [VStr (data_url payload)])
          /\ forall k, k <> lit "links" -> lookup_own k props' = lookup_own k props)
    /\ fetchSubscriptionNodes offline (data_url payload)
       = Return (split nl (join [nl] (parseXrayConfig text))).
Proof.
  apply (batch_import_appends_reference offline import_store import_request
           (answer_of (handleAdminApi offline import_store import_request (lit "batchImport")))
           (store_of import_store
              (handleAdminApi offline import_store import_request (lit "batchImport")))).
  - vm_compute. reflexivity.
  - vm_compute. reflexivity.
Defined.

(** ** The importer *)

(** X18: every link the importer returns starts with vmess:// or with
    vless://, whatever the configuration text. *)
Theorem imported_links_have_a_scheme (configStr : jsstring) :
  List.Forall (fun link => startsWith (lit "vmess://") link = true
                           \/ startsWith (lit "vless://") link = true)
    (parseXrayConfig configStr).
Proof.
  destruct (parseXrayConfig_cases configStr)
    as [->|(config & items & arrays & _ & _ & Hm & ->)]; [constructor|].
  apply map_outcome_Forall2 in Hm.
  apply List.Forall_forall. intros link Hin.
  apply in_concat in Hin as (links & Hl & Hin).
  assert (Hall : List.Forall (fun links => forallb has_scheme links = true) arrays).
  { clear -Hm. induction Hm as [|x y r t Hxy _ IH]; constructor; [|exact IH].
    now apply outbound_links_Return in Hxy. }
  rewrite List.Forall_forall in Hall. specialize (Hall links Hl).
  rewrite forallb_forall in Hall. specialize (Hall link Hin).
  now apply orb_true_iff in Hall.
Qed.

(** X19: the importer returns one link for each server endpoint of the
    vmess and vless outbounds, or nothing at all: outbounds of another
    protocol (trojan among them) contribute no link. *)
Theorem one_link_per_endpoint (configStr : jsstring) (config : value)
    (items : list value) :
  JSON_parse configStr = Some config ->
  get_prop config (lit "outbounds") = Return (VArr items) ->
  parseXrayConfig configStr = []
  \/ length (parseXrayConfig configStr)
     = length (List.concat (List.map endpoints items)).
Proof.
  intros Hp Ho.
  destruct (parseXrayConfig_cases configStr)
    as [->|(config' & items' & arrays & Hp' & Ho' & Hm & ->)]; [now left|].
  right. rewrite Hp in Hp'. injection Hp' as <-.
  rewrite Ho in Ho'. injection Ho' as <-.
  apply map_outcome_Forall2 in Hm. clear Hp Ho.
  induction Hm as [|x y r t Hxy _ IH]; [reflexivity|].
  cbn [List.concat List.map]. rewrite !length_app, IH.
  now destruct (outbound_links_Return _ _ Hxy) as [-> _].
Qed.

Lemma one_link_per_endpoint_witness :
  parseXrayConfig vmess_config = []
  \/ length (parseXrayConfig vmess_config)
     = length (List.concat (List.map endpoints (outbounds_of (parsed vmess_config)))).
Proof.
  apply (one_link_per_endpoint vmess_config (parsed vmess_config)
           (outbounds_of (parsed vmess_config))).
  - vm_compute. reflexivity.
  - vm_compute. reflexivity.
Defined.

(** X20: the import is all or nothing: when the conversion of one outbound
    of the configuration throws, the importer returns no link at all, also
    none of the outbounds converted before. *)
Theorem import_is_all_or_nothing (configStr : jsstring) (config : value)
    (items : list value) (outbound : value) (e : error) :
  JSON_parse configStr = Some config ->
  get_prop config (lit "outbounds") = Return (VArr items) ->
  In outbound items ->
  outbound_links outbound = Throw e ->
  parseXrayConfig configStr = [].
Proof.
  intros Hp Ho Hin Hthrow. unfold parseXrayConfig, parse.
  rewrite Hp. cbn [of_option bind]. rewrite Ho. cbn [bind truthy is_array negb orb iterate].
  destruct (map_outcome_Throw outbound_links items outbound e Hin Hthrow) as [e' ->].
  reflexivity.
Qed.

Lemma import_is_all_or_nothing_witness : parseXrayConfig broken_config = [].
Proof.
  apply (import_is_all_or_nothing broken_config (parsed broken_config)
           (outbounds_of (parsed broken_config))
           (nth 1 (outbounds_of (parsed broken_config)) VUndefined) TypeError).
  - vm_compute. reflexivity.
  - vm_compute. reflexivity.
  - vm_compute. right. left. reflexivity.
  - vm_compute. reflexivity.
Defined.

(** X21: every vmess link the importer returns for a configuration text
    that parses decodes to its endpoint: the text after the scheme marker is
    base64 that decodes to a JSON text, and that text parses to an object
    whose fields are those the importer fills for one server endpoint of one
    outbound of the configuration, the address, the port and the first
    user's id among them.  (The configurations are those [JSON_parse] reads:
    JSON texts whose numbers are integers of magnitude up to 2^53; a port
    with a fraction or an exponent is outside the statement.) *)
Theorem imported_vmess_link_decodes (configStr : jsstring) (config : value) (link : jsstring) :
  JSON_parse configStr = Some config ->
  In link (parseXrayConfig configStr) ->
  startsWith (lit "vmess://") link = true ->
  exists outbound server text fields,
    In outbound (outbounds_of config)
    /\ In server (endpoints outbound)
    /\ atob (skipn 8 link) = Some text
    /\ JSON_parse text = Some (VObj fields)
    /\ (forall k, lookup_own k fields = lookup_own k (vmess_fields outbound server))
    /\ lookup_own (lit "add") fields = opt_prop server (lit "address")
    /\ lookup_own (lit "port") fields = opt_prop server (lit "port")
    /\ lookup_own (lit "id") fields
       = opt_prop (opt_index0 (opt_prop server (lit "users"))) (lit "id").
Proof.
  intros Hconfig Hin Hv.
  destruct (parseXrayConfig_cases configStr)
    as [E|(config' & items & arrays & Hp & Ho & Hm & E)];
    rewrite E in Hin; [destruct Hin|].
  rewrite Hconfig in Hp. apply (inj Some) in Hp. subst config'.
  apply in_concat in Hin as (links & Hl & Hin).
  apply map_outcome_Forall2 in Hm.
  destruct (Forall2_In_r _ _ _ _ Hm Hl) as (outbound & Hout & Hlinks).
  destruct (outbound_links_vmess _ _ _ Hlinks Hin Hv) as (server & Hs & Hlink).
  pose proof (JSON_parse_wf _ _ Hconfig) as Hwf.
  assert (Hitems : forallb well_formed items = true).
  { apply get_prop_opt in Ho.
    destruct (opt_prop_wf config (lit "outbounds") Hwf) as [Hu|Hw];
      rewrite <- Ho in *; [discriminate Hu|exact Hw]. }
  rewrite forallb_forall in Hitems.
  pose proof (Hitems outbound Hout) as Hwo.
  pose proof (endpoints_wf _ _ Hwo Hs) as Hws.
  destruct (vmess_link_decodes _ _ _ Hwo Hws Hlink) as (text & fields & Ha & Hj & Hf).
  exists outbound, server, text, fields.
  split.
  { unfold outbounds_of. apply get_prop_opt in Ho. now rewrite <- Ho. }
  split; [exact Hs|]. split; [exact Ha|]. split; [exact Hj|]. split; [exact Hf|].
  rewrite !Hf. repeat split.
Qed.

Lemma imported_vmess_link_decodes_witness :
  exists outbound server text fields,
    In outbound (outbounds_of (parsed vmess_config))
    /\ In server (endpoints outbound)
    /\ atob (skipn 8 (nth 0 (parseXrayConfig vmess_config) [])) = Some text
    /\ JSON_parse text = Some (VObj fields)
    /\ (forall k, lookup_own k fields = lookup_own k (vmess_fields outbound server))
    /\ lookup_own (lit "add") fields = opt_prop server (lit "address")
    /\ lookup_own (lit "port") fields = opt_prop server (lit "port")
    /\ lookup_own (lit "id") fields
       = opt_prop (opt_index0 (opt_prop server (lit "users"))) (lit "id").
Proof.
  apply (imported_vmess_link_decodes vmess_config (parsed vmess_config)
           (nth 0 (parseXrayConfig vmess_config) [])).
  - vm_compute. reflexivity.
  - vm_compute. left. reflexivity.
  - vm_compute. reflexivity.
Defined.

(** ** The router *)

(** X22: without a stored configuration the default paths are in force:
    the path /sub/ followed by a group id is answered by the subscription
    handler for that id, and the namespace stays as it was. *)
Theorem default_subscription_route
    (pf : platform) (kv : gmap jsstring jsstring) (req : request) (groupId : jsstring) :
  present (kv_get kv CONFIG) = None ->
  groupId <> [] -> ~ In slash groupId ->
  req_pathname req = lit "/sub/" ++ groupId ->
  onRequest pf kv req = Return (handleSubscription pf kv groupId, kv).
Proof.
  intros Hkv Hne Hs Hpath. rewrite (onRequest_unconfigured pf kv req Hkv).
  unfold route. rewrite Hpath.
  change (lit "/sub/" ++ groupId) with ([slash] ++ lit "sub" ++ [slash] ++ groupId).
  rewrite segments_two; [reflexivity|discriminate|exact Hne| |exact Hs].
  vm_compute. intuition discriminate.
Qed.

Lemma default_subscription_route_witness :
  onRequest offline (store_with_group [])
    (anonymous_request (lit "GET") (lit "/sub/" ++ lit "g1") [])
  = Return (handleSubscription offline (store_with_group []) (lit "g1"),
            store_with_group []).
Proof.
  apply (default_subscription_route offline (store_with_group [])
           (anonymous_request (lit "GET") (lit "/sub/" ++ lit "g1") []) (lit "g1")).
  - vm_compute. reflexivity.
  - discriminate.
  - vm_compute. intuition discriminate.
  - reflexivity.
Defined.

(** X23: when the configured subscription path and admin path are the same
    value, the admin API cannot be reached: every request is answered by the
    subscription handler or with 404, and the namespace never changes
    again. *)
Theorem coinciding_paths_close_the_admin_api
    (pf : platform) (kv : gmap jsstring jsstring) (stored : jsstring)
    (config subPath adminPath : value) (req : request)
    (r : response) (kv' : gmap jsstring jsstring) :
  kv_get kv CONFIG = Some stored ->
  JSON_parse stored = Some config ->
  get_prop config (lit "subPath") = Return subPath ->
  get_prop config (lit "adminPath") = Return adminPath ->
  or_else subPath (VStr (lit "sub")) = or_else adminPath (VStr (lit "admin")) ->
  onRequest pf kv req = Return (r, kv') ->
  kv' = kv
  /\ (r = not_found \/ exists groupId, r = handleSubscription pf kv groupId).
Proof.
  intros Hkv Hp Hs Ha Hsame.
  rewrite (onRequest_configured pf kv req stored config subPath adminPath Hkv Hp Hs Ha).
  rewrite <- Hsame. unfold route.
  destruct (List.filter is_nonempty (split 47 (req_pathname req))) as [|first [|second rest]];
    try (intros [= <- <-]; split; [reflexivity|now left]).
  destruct (strict_eq (VStr first) (or_else subPath (VStr (lit "sub")))).
  - intros [= <- <-]. split; [reflexivity|]. right. now exists second.
  - cbn [andb]. intros [= <- <-]. split; [reflexivity|now left].
Qed.

Lemma coinciding_paths_close_the_admin_api_witness :
  store_of same_paths_store
    (onRequest offline same_paths_store
       (anonymous_request (lit "POST") (lit "/x/api/deleteGroup") (dq "{'id':'g1'}")))
  = same_paths_store
  /\ (answer_of
        (onRequest offline same_paths_store
           (anonymous_request (lit "POST") (lit "/x/api/deleteGroup") (dq "{'id':'g1'}")))
      = not_found
      \/ exists groupId,
           answer_of
             (onRequest offline same_paths_store
                (anonymous_request (lit "POST") (lit "/x/api/deleteGroup")
                   (dq "{'id':'g1'}")))
           = handleSubscription offline same_paths_store groupId).
Proof.
  apply (coinciding_paths_close_the_admin_api offline same_paths_store
           same_paths_text (parsed same_paths_text) (VStr (lit "x")) (VStr (lit "x"))
           (anonymous_request (lit "POST") (lit "/x/api/deleteGroup") (dq "{'id':'g1'}"))).
  - vm_compute. reflexivity.
  - vm_compute. reflexivity.
  - vm_compute. reflexivity.
  - vm_compute. reflexivity.
  - reflexivity.
  - vm_compute. reflexivity.
Defined.

(** X25: a path of at most two segments never reaches the admin API,
    whatever the stored paths are: the router answers it through the
    subscription handler or with 404 Not Found and the namespace stays as
    it was.  The path /api/getConfig that the guard of the admin panel
    requests is such a path. *)
Theorem short_paths_never_reach_the_admin_api
    (pf : platform) (kv : gmap jsstring jsstring) (req : request)
    (r : response) (kv' : gmap jsstring jsstring) :
  (length (List.filter is_nonempty (split 47 (req_pathname req))) <= 2)%nat ->
  onRequest pf kv req = Return (r, kv') ->
  kv' = kv
  /\ (r = not_found \/ exists groupId, r = handleSubscription pf kv groupId).
Proof.
  intros Hlen H. unfold onRequest in H.
  apply bind_Return in H as (config & _ & H).
  apply bind_Return in H as (subPath & _ & H).
  apply bind_Return in H as (adminPath & _ & H).
  destruct (List.filter is_nonempty (split 47 (req_pathname req)))
    as [|first [|second [|third rest]]];
    try (injection H as <- <-; split; [reflexivity|now left]).
  - destruct (strict_eq (VStr first) _).
    + injection H as <- <-. split; [reflexivity|]. right. now exists second.
    + destruct (_ && _); injection H as <- <-; split; try reflexivity; now left.
  - cbn [length] in Hlen. lia.
Qed.

Lemma short_paths_never_reach_the_admin_api_witness :
  store_of (store_with_config (lit "s3cret"))
    (onRequest offline (store_with_config (lit "s3cret"))
       (admin_request (lit "/api/getConfig") []))
  = store_with_config (lit "s3cret")
  /\ (answer_of
        (onRequest offline (store_with_config (lit "s3cret"))
           (admin_request (lit "/api/getConfig") []))
      = not_found
      \/ exists groupId,
           answer_of
             (onRequest offline (store_with_config (lit "s3cret"))
                (admin_request (lit "/api/getConfig") []))
           = handleSubscription offline (store_with_config (lit "s3cret")) groupId).
Proof.
  apply (short_paths_never_reach_the_admin_api offline
           (store_with_config (lit "s3cret"))
           (admin_request (lit "/api/getConfig") [])).
  - vm_compute. lia.
  - vm_compute. reflexivity.
Defined.

(** ** The navigation guard of the admin panel *)

(** X26: the guard lets a navigation to a route other than Setup go on only
    when the configuration request answered a value whose isConfigured is
    truthy (and the navigation is not one to Login with a token stored):
    when the request fails, when its body is not JSON, and when the answer
    is not configured, every such navigation is redirected. *)
Theorem only_setup_without_configuration
    (answer : outcome value) (auth_token to_name : option jsstring) :
  is_route to_name (lit "Setup") = false ->
  beforeEach answer auth_token to_name = Return Proceed ->
  (exists data isConfigured,
     answer = Return data
     /\ get_prop data (lit "isConfigured") = Return isConfigured
     /\ truthy isConfigured = true)
  /\ has_token auth_token && is_route to_name (lit "Login") = false.
Proof.
  intros Hs. unfold beforeEach. rewrite Hs. cbn [negb andb orb].
  destruct answer as [data|e]; cbn [bind try_catch]; [|discriminate].
  destruct (get_prop data (lit "isConfigured")) as [c|e] eqn:Hg; cbn [bind try_catch];
    [|discriminate].
  destruct (truthy c) eqn:Hc; cbn [negb andb try_catch]; [|discriminate].
  rewrite ?andb_false_r, ?orb_false_r.
  destruct (has_token auth_token && is_route to_name (lit "Login")); cbn [try_catch];
    [discriminate|].
  intros _. split; [|reflexivity]. exists data, c. now repeat split.
Qed.

Lemma only_setup_without_configuration_witness :
  (exists data isConfigured,
     Return (VObj [(lit "isConfigured", VBool true)]) = Return data
     /\ get_prop data (lit "isConfigured") = Return isConfigured
     /\ truthy isConfigured = true)
  /\ has_token (Some (lit "s3cret")) && is_route (Some (lit "Dashboard")) (lit "Login")
     = false.
Proof.
  apply (only_setup_without_configuration
           (Return (VObj [(lit "isConfigured", VBool true)]))
           (Some (lit "s3cret")) (Some (lit "Dashboard"))).
  - reflexivity.
  - reflexivity.
Defined.

(** X27: when the configuration request answers a value whose isConfigured
    is falsy while a token is stored, the guard lets no navigation go on:
    it sends Setup to Dashboard and every other route, Dashboard among
    them, to Setup, so that the redirections do not end. *)
Theorem stale_token_blocks_every_navigation
    (data isConfigured : value) (auth_token to_name : option jsstring) :
  get_prop data (lit "isConfigured") = Return isConfigured ->
  truthy isConfigured = false ->
  has_token auth_token = true ->
  beforeEach (Return data) auth_token to_name
  = Return (if is_route to_name (lit "Setup") then Redirect (lit "Dashboard")
            else Redirect (lit "Setup"))
  /\ beforeEach (Return data) auth_token (Some (lit "Dashboard"))
     = Return (Redirect (lit "Setup")).
Proof.
  intros Hc Hf Ht. unfold beforeEach. cbn [bind]. rewrite Hc. cbn [bind].
  rewrite Hf, Ht. cbn [negb andb]. split; [|reflexivity].
  destruct (is_route to_name (lit "Setup")); cbn [negb andb orb try_catch];
    [|reflexivity].
  now rewrite orb_true_r.
Qed.

Lemma stale_token_blocks_every_navigation_witness :
  beforeEach (Return (VObj [(lit "isConfigured", VBool false)]))
    (Some (lit "stale")) (Some (lit "Setup"))
  = Return (if is_route (Some (lit "Setup")) (lit "Setup") then Redirect (lit "Dashboard")
            else Redirect (lit "Setup"))
  /\ beforeEach (Return (VObj [(lit "isConfigured", VBool false)]))
       (Some (lit "stale")) (Some (lit "Dashboard"))
     = Return (Redirect (lit "Setup")).
Proof.
  apply (stale_token_blocks_every_navigation
           (VObj [(lit "isConfigured", VBool false)]) (VBool false)
           (Some (lit "stale")) (Some (lit "Setup"))).
  - reflexivity.
  - reflexivity.
  - reflexivity.
Defined.
